(** * text-miner: the Corpus of lib/corpus.js

    A shallow embedding of the document collection of [lib/corpus.js]:
    JavaScript values, a store of objects shared by reference, a state
    and exception monad for the methods of a Corpus instance, and the
    string primitives the methods call. *)

From stdpp Require Import base gmap strings list pretty.
From Stdlib Require Import ZArith NArith Lia.

Open Scope string_scope.
Open Scope list_scope.
Open Scope nat_scope.

#[local] Set Warnings "-register-all".

(** ** Values and the store *)

(** An object of the store is named by its address. *)
Abbreviation loc := nat (only parsing).

(** A JavaScript string is a sequence of UTF-16 code units. *)
Abbreviation jsstring := (list N) (only parsing).

(** The code units of an ASCII literal. *)
Definition str (s : string) : jsstring :=
  List.map Ascii.N_of_ascii (String.list_ascii_of_string s).

(** The values the methods of a Corpus receive, store and return.  Arrays
    are only ever read by the methods (arguments of the constructor, of
    [addDocs] and of [setAttributes]) and are kept by value; plain objects
    and Corpus instances are references into the store. *)
Inductive value :=
| VUndefined
| VNull
| VBool (b : bool)
| VNum (z : Z)
| VStr (s : jsstring)
| VArr (elts : list value)
| VObj (l : loc)
| VCorpus (c : loc).

(** A plain object: its own properties. *)
Abbreviation object := (gmap string value) (only parsing).

(** The store: the plain objects, and the [documents] array of every Corpus
    instance ([None] between the allocation of the instance and the
    assignment of [documents] by [init]). *)
Record state := State {
  heap : list object;
  corpora : list (option (list value))
}.

Inductive error :=
| TypeError (msg : string)
| Error (msg : string).

(** How a call completes.  [Stuck] is not a behaviour of the program: it
    marks the runs this embedding does not cover (a dangling address, a
    pattern outside the embedded fragment of regular expressions, an
    external string primitive applied to something that is not a string). *)
Inductive completion (A : Type) :=
| Normal (a : A)
| Throw (e : error)
| Stuck.
Arguments Normal {A} a.
Arguments Throw {A} e.
Arguments Stuck {A}.

(** State passing; an exception keeps the store as it was when raised. *)
Definition M (A : Type) : Type := state -> completion A * state.

Definition ret {A} (a : A) : M A := fun s => (Normal a, s).

Definition bind {A B} (m : M A) (k : A -> M B) : M B :=
  fun s =>
    match m s with
    | (Normal a, s') => k a s'
    | (Throw e, s') => (Throw e, s')
    | (Stuck, s') => (Stuck, s')
    end.

Definition throw {A} (e : error) : M A := fun s => (Throw e, s).
Definition stuck {A} : M A := fun s => (Stuck, s).
Definition lift {A} (c : completion A) : M A := fun s => (c, s).

Notation "'let*' x ':=' c 'in' k" := (bind c (fun x => k))
  (at level 10, x pattern, c at level 100, k at level 200,
   format "'[v' 'let*'  x  ':='  c  'in' '/' k ']'").
Notation "c1 ';;' k" := (bind c1 (fun _ => k))
  (at level 100, k at level 200, right associativity, only parsing).

(** ** Objects of the store *)

Definition alloc (o : object) : M loc :=
  fun s => (Normal (length (heap s)), State (heap s ++ [o]) (corpora s)).

Definition get_object (l : loc) : M object :=
  fun s =>
    match heap s !! l with
    | Some o => (Normal o, s)
    | None => (Stuck, s)
    end.

Definition put_object (l : loc) (o : object) : M unit :=
  fun s => (Normal tt, State (<[l := o]> (heap s)) (corpora s)).

(** [v.p] for the properties the methods read, [text] and [attributes]:
    nothing but a plain object owns them. *)
Definition get_prop (v : value) (p : string) : M value :=
  match v with
  | VObj l => let* o := get_object l in ret (default VUndefined (o !! p))
  | VUndefined | VNull =>
      throw (TypeError "Cannot read property of undefined or null")
  | _ => ret VUndefined
  end.

(** [v.p = x] (the file is in strict mode, where writing to a primitive
    throws); writing to an array or to a Corpus instance is not covered. *)
Definition set_prop (v : value) (p : string) (x : value) : M unit :=
  match v with
  | VObj l => let* o := get_object l in put_object l (<[p := x]> o)
  | VArr _ | VCorpus _ => stuck
  | _ => throw (TypeError "Cannot set property of a primitive")
  end.

(** The own properties of a Corpus instance. *)
Definition instance_properties : list string :=
  [ "nDocs"; "init"; "addDoc"; "setAttributes"; "addDocs"; "clean"; "trim";
    "toString"; "toLower"; "toUpper"; "stem"; "apply"; "map"; "filter";
    "removeWords"; "removeInterpunctuation"; "removeNewlines";
    "removeDigits"; "removeInvalidCharacters"; "documents" ].

(** [v.hasOwnProperty( p )] for an object [v]: the call of the property
    [hasOwnProperty] of [v] itself.  That is the method of
    [Object.prototype], unless [v] owns a property of that name; no value
    of the store is a function, so that calling an own [hasOwnProperty]
    throws.  An instance owns no such property. *)
Definition hasOwnProperty (v : value) (p : string) : M bool :=
  match v with
  | VObj l =>
      let* o := get_object l in
      if bool_decide (is_Some (o !! "hasOwnProperty")) then
        throw (TypeError "val.hasOwnProperty is not a function")
      else ret (bool_decide (is_Some (o !! p)))
  | VCorpus _ => ret (bool_decide (p ∈ instance_properties))
  | _ => stuck
  end.

(** ** The validators

    The [validate.io-*] packages are not part of the sources. *)

(** Modelled from the spec: [isString], "a string". *)
Definition isString (v : value) : bool :=
  match v with VStr _ => true | _ => false end.

(** Modelled from the spec: [isObject], "a mapping type (never a primitive
    or array)". *)
Definition isObject (v : value) : bool :=
  match v with VObj _ | VCorpus _ => true | _ => false end.

(** Modelled from the spec: [isArray], "a sequence". *)
Definition isArray (v : value) : bool :=
  match v with VArr _ => true | _ => false end.

(** The elements of an array. *)
Definition elements (v : value) : list value :=
  match v with VArr elts => elts | _ => [] end.

(** Modelled from the spec: [isStringArray], "a sequence of strings". *)
Definition isStringArray (v : value) : bool :=
  isArray v && forallb isString (elements v).

(** Modelled from the spec: [isObjectArray], "a sequence of mapping
    objects". *)
Definition isObjectArray (v : value) : bool :=
  isArray v && forallb isObject (elements v).

(** ** document.js *)

(** Modelled from the spec: the constructor of [document.js], which is not
    part of the sources.  "Document(text, attributes?): text must be a
    string; attributes, if omitted, defaults to an empty mapping"; it
    "fails with InvalidArgument if text is not a string".  The Corpus only
    ever calls it with one argument. *)
Definition Doc (text : value) : M value :=
  if isString text then
    let* this := alloc ∅ in
    set_prop (VObj this) "text" text ;;
    let* attributes := alloc ∅ in
    set_prop (VObj this) "attributes" (VObj attributes) ;;
    ret (VObj this)
  else throw (TypeError "InvalidArgument").

(** ** corpus.js: the private functions *)

Definition isDoc (val : value) : M bool :=
  if isObject val then
    let* t := hasOwnProperty val "text" in
    if t then hasOwnProperty val "attributes" else ret false
  else ret false.

Fixpoint isDocArray_loop (elts : list value) : M bool :=
  match elts with
  | [] => ret true
  | v :: rest =>
      let* b := isDoc v in
      if negb b then ret false else isDocArray_loop rest
  end.

Definition isDocArray (val : value) : M bool :=
  if negb (isArray val) then ret false
  else isDocArray_loop (elements val).

(** ** corpus.js: the instance *)

Definition new_instance : M loc :=
  fun s => (Normal (length (corpora s)), State (heap s) (corpora s ++ [None])).

(** [self.documents] *)
Definition get_documents (self : loc) : M (list value) :=
  fun s =>
    match corpora s !! self with
    | Some (Some docs) => (Normal docs, s)
    | _ => (Stuck, s)
    end.

(** [self.documents = docs] *)
Definition set_documents (self : loc) (docs : list value) : M unit :=
  fun s =>
    match corpora s !! self with
    | Some _ => (Normal tt, State (heap s) (<[self := Some docs]> (corpora s)))
    | None => (Stuck, s)
    end.

(** The getter [nDocs]. *)
Definition nDocs (self : loc) : M nat :=
  let* docs := get_documents self in ret (length docs).

(** [self.documents[ i ]] *)
Definition document_at (self : loc) (i : nat) : M value :=
  let* docs := get_documents self in ret (default VUndefined (docs !! i)).

(** [self.documents[ i ] = doc], for an index within the array. *)
Definition set_document_at (self : loc) (i : nat) (doc : value) : M unit :=
  let* docs := get_documents self in
  if (i <? length docs)%nat then set_documents self (<[i := doc]> (docs : list value))
  else stuck.

(** [self.documents.push( doc )] *)
Definition push (self : loc) (doc : value) : M unit :=
  let* docs := get_documents self in set_documents self (docs ++ [doc]).

(** [for ( i = 0; i < self.nDocs; i++ ) body]: the bound is read again
    before every iteration.  The fuel is one more than the number of
    documents at the start, which is what the loop needs when its body
    leaves the length of [self.documents] alone. *)
Fixpoint for_nDocs_from (fuel : nat) (self : loc) (i : nat)
    (body : nat -> M unit) : M unit :=
  match fuel with
  | 0 => stuck
  | S fuel' =>
      let* n := nDocs self in
      if (i <? n)%nat then body i ;; for_nDocs_from fuel' self (S i) body
      else ret tt
  end.

Definition for_nDocs (self : loc) (body : nat -> M unit) : M unit :=
  let* n := nDocs self in for_nDocs_from (S n) self 0 body.

(** A caller-supplied function [FUN( text, attributes, i )]: it reads its
    arguments and returns or throws; it does not write to the store. *)
Abbreviation callback := (value -> value -> nat -> completion value)
  (only parsing).

(** [ToBoolean], for [if ( bool )]. *)
Definition truthy (v : value) : bool :=
  match v with
  | VUndefined | VNull => false
  | VBool b => b
  | VNum z => negb (z =? 0)%Z
  | VStr s => negb (bool_decide (s = []))
  | VArr _ | VObj _ | VCorpus _ => true
  end.

(** ** Strings *)

(** The host's string functions the methods rely on and whose tables are
    not part of the sources: the case folding of the pattern engine under
    the flag [i], the case conversions of [String.prototype], and the two
    stemmers of [natural] (to the Corpus, functions from strings to
    strings). *)
Class Host := {
  Canonicalize : N -> N;
  toLowerCase : jsstring -> jsstring;
  toUpperCase : jsstring -> jsstring;
  LancasterStemmer_stem : jsstring -> jsstring;
  PorterStemmer_stem : jsstring -> jsstring
}.

(** The class [\s]: white space and line terminators. *)
Definition is_whitespace (c : N) : bool :=
  ((9 <=? c) && (c <=? 13) || (c =? 32) || (c =? 160) || (c =? 5760)
   || (8192 <=? c) && (c <=? 8202) || (c =? 8232) || (c =? 8233)
   || (c =? 8239) || (c =? 8287) || (c =? 12288) || (c =? 65279))%N.

(** The class [\w]: letters, digits and the underscore of ASCII. *)
Definition is_word_char (c : N) : bool :=
  ((48 <=? c) && (c <=? 57) || (65 <=? c) && (c <=? 90)
   || (97 <=? c) && (c <=? 122) || (c =? 95))%N.

(** The class [\d]. *)
Definition is_digit (c : N) : bool := ((48 <=? c) && (c <=? 57))%N.

Definition is_line_terminator (c : N) : bool :=
  ((c =? 10) || (c =? 13) || (c =? 8232) || (c =? 8233))%N.

(** The characters with a meaning of their own in a pattern. *)
Definition is_syntax_char (c : N) : bool :=
  existsb (N.eqb c) (str "^$\.*+?()[]{}|").

(** *** Regular expressions

    The fragment of the pattern language that the literals of corpus.js and
    words without quantifiers or groups need. *)
Inductive regex :=
| Empty
| Char (c : N)
| Dot
| Digit
| CharSet (cs : list N)
| WordBoundary
| Seq (r1 r2 : regex)
| Alt (r1 r2 : regex)
| Opt (r : regex).

Section matcher.
Context `{Host}.
Variable ignoreCase : bool.

Definition same_char (a b : N) : bool :=
  if ignoreCase then (Canonicalize a =? Canonicalize b)%N else (a =? b)%N.

(** [\b] holds between a word character and what is not one. *)
Definition is_boundary (prev next : option N) : bool :=
  xorb (from_option is_word_char false prev)
       (from_option is_word_char false next).

Definition one_char (p : N -> bool) (s : jsstring) (n : nat)
    (k : option N -> jsstring -> nat -> option nat) : option nat :=
  match s with
  | x :: s' => if p x then k (Some x) s' (S n) else None
  | [] => None
  end.

(** The backtracking matcher: [prev] is the code unit before the current
    position, [s] the input from it on, [n] the number of code units
    consumed so far; the result is the length of the match. *)
Fixpoint matches (r : regex) (prev : option N) (s : jsstring) (n : nat)
    (k : option N -> jsstring -> nat -> option nat) : option nat :=
  match r with
  | Empty => k prev s n
  | Char c => one_char (same_char c) s n k
  | Dot => one_char (fun x => negb (is_line_terminator x)) s n k
  | Digit => one_char is_digit s n k
  | CharSet cs => one_char (fun x => existsb (fun c => same_char c x) cs) s n k
  | WordBoundary => if is_boundary prev (head s) then k prev s n else None
  | Seq r1 r2 => matches r1 prev s n (fun p s' n' => matches r2 p s' n' k)
  | Alt r1 r2 =>
      match matches r1 prev s n k with
      | Some m => Some m
      | None => matches r2 prev s n k
      end
  | Opt r1 =>
      match matches r1 prev s n k with
      | Some m => Some m
      | None => k prev s n
      end
  end.

Definition match_at (r : regex) (prev : option N) (s : jsstring)
    : option nat :=
  matches r prev s 0 (fun _ _ n => Some n).

(** [s.replace( r, by )] for a pattern with the flag [g] and a
    replacement without [$]: every match, from left to right, is replaced;
    after an empty match the search moves on by one code unit.  [skip] is
    what is left of the current match. *)
Fixpoint replace_from (r : regex) (by_ : jsstring) (prev : option N)
    (s : jsstring) (skip : nat) {struct s} : jsstring :=
  match skip with
  | S k =>
      match s with
      | x :: s' => replace_from r by_ (Some x) s' k
      | [] => []
      end
  | 0 =>
      match match_at r prev s with
      | Some (S k) =>
          by_ ++ match s with
                 | x :: s' => replace_from r by_ (Some x) s' k
                 | [] => []
                 end
      | Some 0 =>
          by_ ++ match s with
                 | x :: s' => x :: replace_from r by_ (Some x) s' 0
                 | [] => []
                 end
      | None =>
          match s with
          | x :: s' => x :: replace_from r by_ (Some x) s' 0
          | [] => []
          end
      end
  end.

Definition replace_all (r : regex) (by_ : jsstring) (s : jsstring)
    : jsstring :=
  replace_from r by_ None s 0.
End matcher.

(** [text.replace( r, by )]: a method of strings only. *)
Definition String_replace `{Host} (ignoreCase : bool) (r : regex)
    (by_ : jsstring) (text : value) : completion value :=
  match text with
  | VStr s => Normal (VStr (replace_all ignoreCase r by_ s))
  | _ => Throw (TypeError "text.replace is not a function")
  end.

(** A method of [String.prototype] called on [text]. *)
Definition String_method (f : jsstring -> jsstring) (text : value)
    : completion value :=
  match text with
  | VStr s => Normal (VStr (f s))
  | _ => Throw (TypeError "text has no such method")
  end.

(** A string function of a package outside the sources: known on strings
    only. *)
Definition external (f : jsstring -> jsstring) (text : value)
    : completion value :=
  match text with
  | VStr s => Normal (VStr (f s))
  | _ => Stuck
  end.

(** *** [new RegExp( source )]

    The parser of the fragment: literal characters, [\b], an escaped syntax
    character, [.], [?] after a character, and [|].  [None] for a source
    outside the fragment. *)
Definition quantifiable (r : regex) : bool :=
  match r with Char _ | Dot => true | _ => false end.

Fixpoint parse_terms (s : jsstring) (cur : list regex)
    (alts : list (list regex)) : option (list (list regex)) :=
  match s with
  | [] => Some (reverse (reverse cur :: alts))
  | c :: s' =>
      if (c =? 92)%N then
        match s' with
        | e :: s'' =>
            if (e =? 98)%N then parse_terms s'' (WordBoundary :: cur) alts
            else if is_syntax_char e then parse_terms s'' (Char e :: cur) alts
            else None
        | [] => None
        end
      else if (c =? 46)%N then parse_terms s' (Dot :: cur) alts
      else if (c =? 124)%N then parse_terms s' [] (reverse cur :: alts)
      else if (c =? 63)%N then
        match cur with
        | a :: cur' =>
            if quantifiable a then parse_terms s' (Opt a :: cur') alts
            else None
        | [] => None
        end
      else if is_syntax_char c then None
      else parse_terms s' (Char c :: cur) alts
  end.

Definition seq_of (terms : list regex) : regex := foldr Seq Empty terms.

Fixpoint alt_of (a : regex) (rest : list regex) : regex :=
  match rest with
  | [] => a
  | b :: rest' => Alt a (alt_of b rest')
  end.

Definition RegExp (source : jsstring) : option regex :=
  match parse_terms source [] [] with
  | Some (a :: rest) => Some (alt_of (seq_of a) (seq_of <$> rest))
  | _ => None
  end.

(** *** underscore.string

    The package is not part of the sources. *)

Fixpoint trim_left (s : jsstring) : jsstring :=
  match s with
  | c :: s' => if is_whitespace c then trim_left s' else s
  | [] => []
  end.

Fixpoint trim_right (s : jsstring) : jsstring :=
  match s with
  | c :: s' =>
      match trim_right s' with
      | [] => if is_whitespace c then [] else [c]
      | t => c :: t
      end
  | [] => []
  end.

(** Modelled from the spec: [_.trim], "remove leading/trailing whitespace
    only". *)
Definition underscore_trim (s : jsstring) : jsstring :=
  trim_right (trim_left s).

(** Every run of white space becomes one space; [in_run] says that the
    code unit before was white space. *)
Fixpoint collapse (in_run : bool) (s : jsstring) : jsstring :=
  match s with
  | c :: s' =>
      if is_whitespace c then
        if in_run then collapse true s' else 32%N :: collapse true s'
      else c :: collapse false s'
  | [] => []
  end.

(** Modelled from the spec: [_.clean], "collapse runs of whitespace to
    single spaces and trim". *)
Definition underscore_clean (s : jsstring) : jsstring :=
  collapse false (underscore_trim s).

(** ** corpus.js: the methods of an instance

    Every method is a function of the instance [self].  [toString], which
    only reads the documents to print them, comes after the module, in
    the section of its own that gives it the [truncate] it calls. *)

Module corpus.
Section methods.
Context `{Host}.

Definition isUndefined (v : value) : bool :=
  match v with VUndefined => true | _ => false end.

(** [arr[ i ] = new Doc( docs[ i ] )] for every index, in order. *)
Fixpoint wrap (docs : list value) : M (list value) :=
  match docs with
  | [] => ret []
  | d :: rest =>
      let* doc := Doc d in
      let* arr := wrap rest in
      ret (doc :: arr)
  end.

Definition init (self : loc) (docs : value) : M unit :=
  if isUndefined docs then set_documents self []
  else if isString docs then
    let* doc := Doc docs in set_documents self [doc]
  else if isStringArray docs then
    let* arr := wrap (elements docs) in set_documents self arr
  else throw (TypeError "Constructor expects an array of documents or strings").

Definition addDoc (self : loc) (doc : value) : M value :=
  if isString doc then
    let* d := Doc doc in push self d ;; ret VUndefined
  else
    let* b := isDoc doc in
    if b then push self doc ;; ret VUndefined
    else throw (TypeError "Argument has to be a string or document.").

(** [for ( i = 0; i < len; i++ ) body] *)
Fixpoint for_upto (len : nat) (i : nat) (body : nat -> M unit) : M unit :=
  match len with
  | 0 => ret tt
  | S len' => body i ;; for_upto len' (S i) body
  end.

Definition setAttributes (self : loc) (arr : value) : M value :=
  if negb (isObjectArray arr) then
    throw (TypeError "Input argument has to be an object array.")
  else
    let len := length (elements arr) in
    let* n := nDocs self in
    if negb (len =? n)%nat then
      throw (Error "Length of object array has to equal the number of documents in the corpus.")
    else
      for_upto len 0 (fun i =>
        let* doc := document_at self i in
        set_prop doc "attributes" (default VUndefined (elements arr !! i))) ;;
      ret (VCorpus self).

Definition addDocs (self : loc) (docs : value) : M value :=
  if isStringArray docs then
    let* arr := wrap (elements docs) in
    let* documents := get_documents self in
    set_documents self (documents ++ arr) ;;
    ret VUndefined
  else
    let* b := isDocArray docs in
    if b then
      let* documents := get_documents self in
      set_documents self (documents ++ elements docs) ;;
      ret VUndefined
    else throw (TypeError "Parameter expects an array of strings or documents.").

Definition apply (self : loc) (FUN : callback) : M value :=
  for_nDocs self (fun i =>
    let* doc := document_at self i in
    let* text := get_prop doc "text" in
    let* attributes := get_prop doc "attributes" in
    let* r := lift (FUN text attributes i) in
    set_prop doc "text" r ;;
    set_document_at self i doc) ;;
  ret (VCorpus self).

(** [new Corpus( docs )] *)
Definition Corpus (docs : value) : M value :=
  let* this := new_instance in
  init this docs ;;
  ret (VCorpus this).

(** The instance behind [var ret = new Corpus()]. *)
Definition instance (v : value) : M loc :=
  match v with VCorpus c => ret c | _ => stuck end.

Definition map (self : loc) (FUN : callback) : M value :=
  let* ret_ := Corpus VUndefined in
  let* r := instance ret_ in
  for_nDocs self (fun i =>
    let* doc := document_at self i in
    let* text := get_prop doc "text" in
    let* attributes := get_prop doc "attributes" in
    let* t := lift (FUN text attributes i) in
    set_prop doc "text" t ;;
    addDoc r doc ;;
    ret tt) ;;
  ret ret_.

Definition filter (self : loc) (FUN : callback) : M value :=
  let* ret_ := Corpus VUndefined in
  let* r := instance ret_ in
  for_nDocs self (fun i =>
    let* doc := document_at self i in
    let* text := get_prop doc "text" in
    let* attributes := get_prop doc "attributes" in
    let* bool := lift (FUN text attributes i) in
    if truthy bool then addDoc r doc ;; ret tt else ret tt) ;;
  ret ret_.

Definition clean (self : loc) : M value :=
  apply self (fun text _ _ => external underscore_clean text) ;;
  ret (VCorpus self).

Definition trim (self : loc) : M value :=
  apply self (fun text _ _ => external underscore_trim text) ;;
  ret (VCorpus self).

Definition toLower (self : loc) : M value :=
  apply self (fun text _ _ => String_method toLowerCase text) ;;
  ret (VCorpus self).

Definition toUpper (self : loc) : M value :=
  apply self (fun text _ _ => String_method toUpperCase text) ;;
  ret (VCorpus self).

Definition is_Lancaster (type : value) : bool :=
  match type with
  | VStr s => bool_decide (s = str "Lancaster")
  | _ => false
  end.

Definition stem (self : loc) (type : value) : M value :=
  apply self (fun text _ _ =>
    if is_Lancaster type then external LancasterStemmer_stem text
    else external PorterStemmer_stem text) ;;
  ret (VCorpus self).

(** [words] is an array of strings. *)
Definition removeWords (self : loc) (words : list jsstring)
    (case_insensitive : value) : M value :=
  for_nDocs self (fun doc =>
    for_upto (length words) 0 (fun i =>
      let options := truthy case_insensitive in
      match RegExp (str "\b" ++ default [] (words !! i) ++ str "\b") with
      | Some myRegExp =>
          let* d := document_at self doc in
          let* text := get_prop d "text" in
          let* r := lift (String_replace options myRegExp [] text) in
          set_prop d "text" r
      | None => stuck
      end)) ;;
  clean self ;;
  ret (VCorpus self).

Definition removeInterpunctuation (self : loc) : M value :=
  apply self (fun text _ _ =>
    String_replace false (CharSet (str "!?.,;-")) (str " ") text) ;;
  ret (VCorpus self).

Definition removeNewlines (self : loc) : M value :=
  apply self (fun text _ _ =>
    String_replace false
      (Alt (Seq (Opt (Char 13)) (Char 10)) (Char 13)) (str " ") text) ;;
  ret (VCorpus self).

Definition removeDigits (self : loc) : M value :=
  apply self (fun text _ _ => String_replace false Digit [] text) ;;
  ret (VCorpus self).

Definition removeInvalidCharacters (self : loc) : M value :=
  apply self (fun text _ _ => String_replace false (Char 65533) [] text) ;;
  ret (VCorpus self).

End methods.
End corpus.

(** ** What a state holds *)

(** The [documents] array of an initialised instance. *)
Definition docs_of (s : state) (self : loc) : option (list value) :=
  mjoin (corpora s !! self).

(** The own property [p] of the object [v] refers to. *)
Definition prop_of (s : state) (v : value) (p : string) : option value :=
  match v with
  | VObj l => heap s !! l ≫= (fun o : object => o !! p)
  | _ => None
  end.

(** The object [v] refers to owns a [hasOwnProperty], which stands in the
    way of the method [isDoc] means to call. *)
Definition shadows (s : state) (v : value) : bool :=
  bool_decide (is_Some (prop_of s v "hasOwnProperty")).

(** The Document shape of [isDoc], what [isDoc] answers [true] on: an
    object of the store that owns a [text] and an [attributes] (and no
    [hasOwnProperty]). *)
Definition has_shape (s : state) (v : value) : bool :=
  bool_decide (is_Some (prop_of s v "text"))
  && bool_decide (is_Some (prop_of s v "attributes"))
  && negb (shadows s v).

(** Every element of every [documents] array has the Document shape. *)
Definition shaped (s : state) : bool :=
  forallb (fun c : option (list value) =>
             forallb (has_shape s) (default [] c)) (corpora s).

(** ** The built-in normalization operations *)

Inductive normalization :=
| Clean
| Trim
| ToLower
| ToUpper
| Stem (type : value)
| RemoveInterpunctuation
| RemoveNewlines
| RemoveDigits
| RemoveInvalidCharacters.

Definition normalize `{Host} (op : normalization) (self : loc) : M value :=
  match op with
  | Clean => corpus.clean self
  | Trim => corpus.trim self
  | ToLower => corpus.toLower self
  | ToUpper => corpus.toUpper self
  | Stem type => corpus.stem self type
  | RemoveInterpunctuation => corpus.removeInterpunctuation self
  | RemoveNewlines => corpus.removeNewlines self
  | RemoveDigits => corpus.removeDigits self
  | RemoveInvalidCharacters => corpus.removeInvalidCharacters self
  end.

(** ** Frames *)

(** From [s] to [s'] nothing but the property [w] of documents of the
    Corpus [self] was written: the [documents] arrays are the same, no
    object was created, every object keeps every property other than [w],
    and an object that is not a document of [self] is the same. *)
Definition only_written (w : string) (self : loc) (s s' : state) : Prop :=
  corpora s' = corpora s /\
  length (heap s') = length (heap s) /\
  forall l (o : object), heap s !! l = Some o ->
    exists o' : object, heap s' !! l = Some o'
      /\ (forall p, p <> w -> o' !! p = o !! p)
      /\ (o' = o \/ exists docs, docs_of s self = Some docs /\ VObj l ∈ docs).

Abbreviation only_text := (only_written "text").

(** From [s] to [s'] every document of [self] has the same [attributes]
    mapping, with the same entries. *)
Definition attributes_kept (self : loc) (s s' : state) : Prop :=
  forall docs d a, docs_of s self = Some docs -> d ∈ docs ->
    prop_of s d "attributes" = Some (VObj a) ->
    prop_of s' d "attributes" = Some (VObj a) /\ heap s' !! a = heap s !! a.

(** The same, for the mappings that are not themselves documents of
    [self]. *)
Definition attributes_kept_apart (self : loc) (s s' : state) : Prop :=
  forall docs d a, docs_of s self = Some docs -> d ∈ docs ->
    prop_of s d "attributes" = Some (VObj a) ->
    prop_of s' d "attributes" = Some (VObj a)
    /\ (VObj a ∉ docs -> heap s' !! a = heap s !! a).

(** A method that, whatever its completion, leaves the number of documents
    of [self] and their [attributes] alone and writes nothing but the
    [text] of documents of [self]. *)
Definition writes_text_only {A} (self : loc) (m : M A) : Prop :=
  forall s,
    docs_of (snd (m s)) self = docs_of s self
    /\ attributes_kept_apart self s (snd (m s))
    /\ only_text self s (snd (m s)).

(** ** Sample states *)

Definition initial : state := State [] [].

(** After [new Corpus( [ "a", "b" ] )]: the instance 0, the documents at 0
    and 2, their attributes at 1 and 3. *)
Definition two_documents : state :=
  snd (corpus.Corpus (VArr [VStr (str "a"); VStr (str "b")]) initial).

(** After [c.setAttributes( [ c.documents[ 1 ], {} ] )] on it, with the
    empty object at 3. *)
Definition document_as_attributes : state :=
  snd (corpus.setAttributes 0 (VArr [VObj 2; VObj 3]) two_documents).

(** ** What the callbacks see *)

(** The call [FUN( doc.text, doc.attributes, i )] in the state [s]. *)
Definition call_on (s : state) (FUN : callback) (i : nat) (doc : value)
    : completion value :=
  FUN (default VUndefined (prop_of s doc "text"))
      (default VUndefined (prop_of s doc "attributes")) i.

(** [FUN] returns on every document of [docs]. *)
Definition returns (s : state) (FUN : callback) (docs : list value) : Prop :=
  forall i d, docs !! i = Some d -> exists b, call_on s FUN i d = Normal b.

(** The documents of [docs] (the first of them at index [i]) on which
    [FUN] returns a truthy value, in their order, up to the first call of
    [FUN] that does not return. *)
Fixpoint select (s : state) (FUN : callback) (i : nat) (docs : list value)
    : list value :=
  match docs with
  | [] => []
  | d :: rest =>
      match call_on s FUN i d with
      | Normal b =>
          if truthy b then d :: select s FUN (S i) rest
          else select s FUN (S i) rest
      | _ => []
      end
  end.

(** A predicate that keeps the first document only. *)
Definition keep_first (text attributes : value) (i : nat) : completion value :=
  Normal (VBool (i =? 0)).

(** ** What the constructor builds *)

(** The object [new Doc( text )] makes, its attributes at [attributes]. *)
Definition Document (text : jsstring) (attributes : loc) : object :=
  <["attributes" := VObj attributes]> (<["text" := VStr text]> ∅).

(** The objects made for the strings [texts] from the address [h] on: for
    each string a Document, followed by its empty attributes. *)
Fixpoint documents_of (texts : list jsstring) (h : loc) : list object :=
  match texts with
  | [] => []
  | t :: rest => Document t (S h) :: ∅ :: documents_of rest (S (S h))
  end.

(** The references to these Documents. *)
Fixpoint created (texts : list jsstring) (h : loc) : list value :=
  match texts with
  | [] => []
  | _ :: rest => VObj h :: created rest (S (S h))
  end.

(** After [new Corpus( [ "abc" ] )]: the instance 0, the document at 0, its
    attributes at 1. *)
Definition one_document : state :=
  snd (corpus.Corpus (VArr [VStr (str "abc")]) initial).

(** A transform: an exclamation mark after the text. *)
Definition exclaim (text attributes : value) (i : nat) : completion value :=
  match text with
  | VStr t => Normal (VStr (t ++ str "!"))
  | _ => Throw (TypeError "text is not a string")
  end.

(** After [c.addDoc( c.documents[ 0 ] )] on it, and with two more objects,
    [{ k: 1 }] at 2 and [{ k: 2 }] at 3. *)
Definition same_document_twice : state :=
  snd (alloc {[ "k" := VNum 2 ]}
         (snd (alloc {[ "k" := VNum 1 ]}
                 (snd (corpus.addDoc 0 (VObj 0) one_document))))).

(** ** Whole words

    What [removeWords] is said to do, without patterns. *)

(** A word without a character that has a meaning in a pattern. *)
Definition literal (w : jsstring) : bool :=
  forallb (fun c => negb (is_syntax_char c)) w.

(** [s] starts with [w], up to case when [ignoreCase]. *)
Fixpoint starts_with `{Host} (ignoreCase : bool) (w s : jsstring) : bool :=
  match w, s with
  | [], _ => true
  | a :: w', b :: s' => same_char ignoreCase a b && starts_with ignoreCase w' s'
  | _ :: _, [] => false
  end.

(** [w] occurs at the head of [s] as a whole word: between two word
    boundaries; [prev] is the code unit before [s]. *)
Definition whole_word_at `{Host} (ignoreCase : bool) (w : jsstring)
    (prev : option N) (s : jsstring) : bool :=
  is_boundary prev (head s)
  && starts_with ignoreCase w s
  && is_boundary (from_option Some prev (last (take (length w) s)))
       (head (drop (length w) s)).

(** The whole-word occurrences of [w] removed from [s], from left to
    right; [skip] is what is left of the current occurrence. *)
Fixpoint remove_from `{Host} (ignoreCase : bool) (w : jsstring)
    (prev : option N) (s : jsstring) (skip : nat) {struct s} : jsstring :=
  match s with
  | [] => []
  | x :: s' =>
      match skip with
      | S k => remove_from ignoreCase w (Some x) s' k
      | 0 =>
          if whole_word_at ignoreCase w prev s then
            match length w with
            | 0 => x :: remove_from ignoreCase w (Some x) s' 0
            | S k => remove_from ignoreCase w (Some x) s' k
            end
          else x :: remove_from ignoreCase w (Some x) s' 0
      end
  end.

Definition remove_word `{Host} (ignoreCase : bool) (w : jsstring)
    (s : jsstring) : jsstring :=
  remove_from ignoreCase w None s 0.

(** The words of [words] removed one after the other. *)
Definition remove_words `{Host} (ignoreCase : bool) (words : list jsstring)
    (s : jsstring) : jsstring :=
  foldl (fun t w => remove_word ignoreCase w t) s words.

(** The pattern of a literal word between two [\b]. *)
Definition word_pattern (w : jsstring) : regex :=
  Seq WordBoundary (foldr Seq (Seq WordBoundary Empty) (Char <$> w)).


(** ** Texts *)

(** The [text] of [v] is a string. *)
Definition has_text (s : state) (v : value) : bool :=
  match prop_of s v "text" with Some (VStr _) => true | _ => false end.

(** The state [s] with [t] as the [text] of the object at [l]. *)
Definition with_text (s : state) (l : loc) (t : jsstring) : state :=
  match heap s !! l with
  | Some o => State (<[l := <["text" := VStr t]> (o : object)]> (heap s)) (corpora s)
  | None => s
  end.

Definition same_object (d d' : value) : bool :=
  match d, d' with
  | VObj l, VObj l' => l =? l'
  | _, _ => false
  end.

(** The number of indices of [docs] that hold the object [d]. *)
Definition visits (d : value) (docs : list value) : nat :=
  length (List.filter (same_object d) docs).

(** The strings [_.clean] makes: no white space but single spaces, none of
    them last; [after_space] says that the code unit before is a space. *)
Fixpoint tidy (after_space : bool) (u : jsstring) : bool :=
  match u with
  | [] => negb after_space
  | c :: u' =>
      if is_whitespace c then (c =? 32)%N && negb after_space && tidy true u'
      else tidy false u'
  end.

(** No white space first. *)
Definition no_lead (u : jsstring) : Prop :=
  match u with c :: _ => is_whitespace c = false | [] => True end.

(** After [new Corpus( [ "The quick fox jumps" ] )]. *)
Definition quick_fox : state :=
  snd (corpus.Corpus (VArr [VStr (str "The quick fox jumps")]) initial).

(** After [new Corpus( [ "ab?c" ] )]. *)
Definition question_mark : state :=
  snd (corpus.Corpus (VArr [VStr (str "ab?c")]) initial).

(** After [new Corpus( [ "  a   b " ] )]. *)
Definition spaced : state :=
  snd (corpus.Corpus (VArr [VStr (str "  a   b ")]) initial).

(** A host for the examples: the case conversions of ASCII, and stemmers
    that leave a text as it is. *)
Definition ascii_upper (c : N) : N :=
  if ((97 <=? c) && (c <=? 122))%N then (c - 32)%N else c.

Definition ascii_lower (c : N) : N :=
  if ((65 <=? c) && (c <=? 90))%N then (c + 32)%N else c.

Definition sample_host : Host := {|
  Canonicalize := ascii_upper;
  toLowerCase := List.map ascii_lower;
  toUpperCase := List.map ascii_upper;
  LancasterStemmer_stem := fun t => t;
  PorterStemmer_stem := fun t => t
|}.

(** ** The states a caller can reach *)

(** The [text] of [v] is a string and its [attributes] an object. *)
Definition typed_doc (s : state) (v : value) : bool :=
  match prop_of s v "text", prop_of s v "attributes" with
  | Some (VStr _), Some a => isObject a
  | _, _ => false
  end.


(** What a caller does: it makes a plain object, or calls the constructor
    or a method of an instance. *)
Inductive call :=
| NewObject (o : object)
| NewCorpus (docs : value)
| AddDoc (self : loc) (doc : value)
| AddDocs (self : loc) (docs : value)
| SetAttributes (self : loc) (arr : value)
| Apply (self : loc) (FUN : callback)
| Map (self : loc) (FUN : callback)
| Filter (self : loc) (FUN : callback)
| RemoveWords (self : loc) (words : list jsstring) (case_insensitive : value)
| Normalize (op : normalization) (self : loc).

Definition perform `{Host} (c : call) : M value :=
  match c with
  | NewObject o => let* l := alloc o in ret (VObj l)
  | NewCorpus docs => corpus.Corpus docs
  | AddDoc self doc => corpus.addDoc self doc
  | AddDocs self docs => corpus.addDocs self docs
  | SetAttributes self arr => corpus.setAttributes self arr
  | Apply self FUN => corpus.apply self FUN
  | Map self FUN => corpus.map self FUN
  | Filter self FUN => corpus.filter self FUN
  | RemoveWords self words case_insensitive =>
      corpus.removeWords self words case_insensitive
  | Normalize op self => normalize op self
  end.

(** The state after the calls [cs], whatever their completions. *)
Fixpoint run `{Host} (cs : list call) (s : state) : state :=
  match cs with
  | [] => s
  | c :: rest => run rest (snd (perform c s))
  end.




(** The invariant on documents: typed when [strict], shaped otherwise. *)
Definition doc_ok (strict : bool) (s : state) (v : value) : bool :=
  if strict then typed_doc s v else has_shape s v.

Definition docs_ok (strict : bool) (s : state) : Prop :=
  forall c docs d, corpora s !! c = Some (Some docs) -> d ∈ docs ->
    doc_ok strict s d = true.



(** ** The loop of [filter] *)

(** The state while the loop of [filter] runs from [s]: the new instance
    holds [acc]. *)
Definition during (s : state) (acc : list value) : state :=
  State (heap s) (corpora s ++ [Some acc]).

(** The body of the loop, for the new instance [new]. *)
Definition filter_step (self new : loc) (FUN : callback) (i : nat) : M unit :=
  let* doc := document_at self i in
  let* text := get_prop doc "text" in
  let* attributes := get_prop doc "attributes" in
  let* bool := lift (FUN text attributes i) in
  if truthy bool then corpus.addDoc new doc ;; ret tt
  else ret tt.

(** ** A program logic for the methods

    [hoare P m Q E]: from a state in [P], [m] ends normally in [Q], or
    otherwise in [E]. *)
Definition hoare {A} (P : state -> Prop) (m : M A)
    (Q : A -> state -> Prop) (E : state -> Prop) : Prop :=
  forall s, P s ->
    match m s with
    | (Normal a, s') => Q a s'
    | (_, s') => E s'
    end.


(** ** Values a method can look at *)

(** A value that does not refer to an object missing from the store. *)
Definition valid (s : state) (v : value) : bool :=
  match v with
  | VObj l => l <? length (heap s)
  | _ => true
  end.

(** ** The loops of [apply] and [map] *)

(** The body of the loop of [apply]. *)
Definition apply_step (self : loc) (FUN : callback) (i : nat) : M unit :=
  let* doc := document_at self i in
  let* text := get_prop doc "text" in
  let* attributes := get_prop doc "attributes" in
  let* r := lift (FUN text attributes i) in
  set_prop doc "text" r ;;
  set_document_at self i doc.

(** The body of the loop of [map], for the new instance [new]. *)
Definition map_step (self new : loc) (FUN : callback) (i : nat) : M unit :=
  let* doc := document_at self i in
  let* text := get_prop doc "text" in
  let* attributes := get_prop doc "attributes" in
  let* t := lift (FUN text attributes i) in
  set_prop doc "text" t ;;
  corpus.addDoc new doc ;;
  ret tt.

(** The state [s] with [x] as the [text] of the object [doc] refers to. *)
Definition write_text (s : state) (doc : value) (x : value) : state :=
  match doc with
  | VObj l =>
      match heap s !! l with
      | Some o =>
          State (<[l := <["text" := x]> (o : object)]> (heap s)) (corpora s)
      | None => s
      end
  | _ => s
  end.

(** ** What the patterns of the literals do to a text *)

(** [t] without the code units of the class [p]. *)
Definition without (p : N -> bool) (t : jsstring) : jsstring :=
  List.filter (fun c => negb (p c)) t.

(** [t] with a space for every code unit of the class [p]. *)
Definition blanked (p : N -> bool) (t : jsstring) : jsstring :=
  List.map (fun c => if p c then 32%N else c) t.

(** The class of [/[\!\?\.,;-]/]. *)
Definition is_interpunctuation (c : N) : bool :=
  existsb (fun x => (x =? c)%N) (str "!?.,;-").

(** [t] with one space for every line break: a carriage return and the
    line feed after it, a lone carriage return, or a lone line feed. *)
Fixpoint one_line (t : jsstring) : jsstring :=
  match t with
  | [] => []
  | c :: t' =>
      if (13 =? c)%N then
        32%N :: match t' with
                | c' :: t'' => if (10 =? c')%N then one_line t'' else one_line t'
                | [] => []
                end
      else if (10 =? c)%N then 32%N :: one_line t'
      else c :: one_line t'
  end.

(** The string function a built-in normalization calls on a text. *)
Definition text_function `{Host} (op : normalization) : jsstring -> jsstring :=
  match op with
  | Clean => underscore_clean
  | Trim => underscore_trim
  | ToLower => toLowerCase
  | ToUpper => toUpperCase
  | Stem type =>
      if corpus.is_Lancaster type then LancasterStemmer_stem
      else PorterStemmer_stem
  | RemoveInterpunctuation =>
      replace_all false (CharSet (str "!?.,;-")) (str " ")
  | RemoveNewlines =>
      replace_all false (Alt (Seq (Opt (Char 13)) (Char 10)) (Char 13)) (str " ")
  | RemoveDigits => replace_all false Digit []
  | RemoveInvalidCharacters => replace_all false (Char 65533) []
  end.

(** The normalizations whose callback calls a method of the text itself
    ([toLowerCase], [toUpperCase], [replace]); the others hand the text to
    a function of a package. *)
Definition calls_method (op : normalization) : bool :=
  match op with
  | Clean | Trim | Stem _ => false
  | _ => true
  end.

(** After [c.addDoc( { text: 7, attributes: null } )] on the Corpus of
    ["abc"], the object at 2. *)
Definition number_as_text : state :=
  snd (corpus.addDoc 0 (VObj 2)
         (snd (alloc (<["text" := VNum 7]> (<["attributes" := VNull]> ∅))
                 one_document))).

(** ** What no call takes away *)

(** From [s] to [s'] nothing was taken away: every object is still at its
    address and owns every property it owned, those other than [text] and
    [attributes] with the values they had; every instance is still there;
    and the [documents] of an initialised instance are those it had, each
    in its place, with what was added after them. *)
Definition grown (s s' : state) : Prop :=
  (forall l (o : object), heap s !! l = Some o ->
     exists o' : object, heap s' !! l = Some o'
       /\ (forall p, is_Some (o !! p) -> is_Some (o' !! p))
       /\ (forall p, p <> "text" -> p <> "attributes" -> o' !! p = o !! p))
  /\ length (corpora s) <= length (corpora s')
  /\ forall self docs, docs_of s self = Some docs ->
       exists more, docs_of s' self = Some (docs ++ more).

(** ** [toString] *)

(** ['─ '.repeat( 16 )] *)
Definition rule : jsstring := mjoin (replicate 16 [9472%N; 32%N]).

(** What [+] makes of the index [i]: its decimal digits. *)
Definition index_string (i : nat) : jsstring := str (pretty i).

(** The string a call has returned. *)
Definition as_string (v : value) : M jsstring :=
  match v with VStr t => ret t | _ => stuck end.

Section toString.
(** [_( text ).truncate( nchars )] of [underscore.string], which is not
    part of the sources: a function from a length and a string to a
    string. *)
Variable truncate : nat -> jsstring -> jsstring.

(** The loop of [toString], with [str_] for its local variable [str]; the
    bound is read before every iteration, as in [for_nDocs_from]. *)
Fixpoint toString_from (fuel : nat) (self : loc) (i : nat) (str_ : jsstring)
    : M jsstring :=
  match fuel with
  | 0 => stuck
  | S fuel' =>
      let* n := nDocs self in
      if (i <? n)%nat then
        let* doc := document_at self i in
        let str1 := str_ ++ (str "Document " ++ index_string i ++ [58%N; 10%N]) in
        let* text := get_prop doc "text" in
        let* t := lift (external (truncate 500) text) in
        let* t := as_string t in
        let str2 := str1 ++ (9%N :: t) in
        let str3 := str2 ++ (10%N :: rule ++ [10%N]) in
        toString_from fuel' self (S i) str3
      else ret str_
  end.

Definition toString (self : loc) : M value :=
  let* n := nDocs self in
  let* str_ := toString_from (S n) self 0 [] in
  ret (VStr str_).

(** The lines [toString] writes for the document [d] at the index [i]. *)
Definition entry (s : state) (i : nat) (d : value) : jsstring :=
  str "Document " ++ index_string i ++ [58%N; 10%N]
  ++ 9%N :: match prop_of s d "text" with
            | Some (VStr t) => truncate 500 t
            | _ => []
            end
  ++ 10%N :: rule ++ [10%N].

Fixpoint entries (s : state) (i : nat) (docs : list value) : jsstring :=
  match docs with
  | [] => []
  | d :: docs' => entry s i d ++ entries s (S i) docs'
  end.
End toString.

(** After a caller has made [{ hasOwnProperty: 1, text: "x", attributes:
    null }] beside the Corpus of ["abc"]: the object at 2. *)
Definition shadowing : state :=
  snd (alloc (<["hasOwnProperty" := VNum 1]>
                (<["text" := VStr (str "x")]> (<["attributes" := VNull]> ∅)))
         one_document).

(** ** The words of a text *)

(** The words of [t]: its longest runs of code units that are not white
    space, in order.  A code unit that is not white space is a word by
    itself when white space or nothing follows it, and else goes before
    the first word of what follows. *)
Fixpoint words_of (t : jsstring) : list jsstring :=
  match t with
  | [] => []
  | c :: t' =>
      if is_whitespace c then words_of t'
      else if from_option is_whitespace true (head t') then [c] :: words_of t'
      else match words_of t' with
           | w :: ws => (c :: w) :: ws
           | [] => [[c]]
           end
  end.

(** The words [ws] with one space between every two of them. *)
Definition unwords (ws : list jsstring) : jsstring :=
  match ws with
  | [] => []
  | w :: ws' => w ++ flat_map (fun x => 32%N :: x) ws'
  end.
(** ** Reasoning about the monad *)

Lemma state_eta (s : state) : State (heap s) (corpora s) = s.
Proof. by destruct s. Qed.

Lemma bind_normal {A B} (m : M A) (k : A -> M B) s a s' :
  m s = (Normal a, s') -> bind m k s = k a s'.
Proof. unfold bind. by intros ->. Qed.

Lemma bind_throw {A B} (m : M A) (k : A -> M B) s e s' :
  m s = (Throw e, s') -> bind m k s = (Throw e, s').
Proof. unfold bind. by intros ->. Qed.

Lemma docs_of_Some s self docs :
  docs_of s self = Some docs <-> corpora s !! self = Some (Some docs).
Proof.
  unfold docs_of. destruct (corpora s !! self) as [[d|]|]; simpl; naive_solver.
Qed.

Lemma get_documents_Some s self docs :
  docs_of s self = Some docs -> get_documents self s = (Normal docs, s).
Proof.
  intros Hd%docs_of_Some. unfold get_documents. by rewrite Hd.
Qed.

Lemma nDocs_Some s self docs :
  docs_of s self = Some docs -> nDocs self s = (Normal (length docs), s).
Proof.
  intros Hd. unfold nDocs. by rewrite (bind_normal _ _ _ _ _ (get_documents_Some _ _ _ Hd)).
Qed.

Lemma document_at_Some s self docs i :
  docs_of s self = Some docs ->
  document_at self i s = (Normal (default VUndefined (docs !! i)), s).
Proof.
  intros Hd. unfold document_at.
  by rewrite (bind_normal _ _ _ _ _ (get_documents_Some _ _ _ Hd)).
Qed.

Lemma set_document_at_same s self docs i doc :
  docs_of s self = Some docs -> docs !! i = Some doc ->
  set_document_at self i doc s = (Normal tt, s).
Proof.
  intros Hd Hi. unfold set_document_at.
  rewrite (bind_normal _ _ _ _ _ (get_documents_Some _ _ _ Hd)).
  apply lookup_lt_Some in Hi as Hlt.
  apply Nat.ltb_lt in Hlt. rewrite Hlt.
  apply docs_of_Some in Hd.
  unfold set_documents. rewrite Hd.
  rewrite (list_insert_id docs i doc Hi).
  rewrite (list_insert_id (corpora s) self (Some docs) Hd).
  by rewrite state_eta.
Qed.

(** A loop whose body leaves the state alone leaves the state alone. *)
Lemma for_nDocs_from_unchanged s self docs body fuel i :
  docs_of s self = Some docs ->
  (forall j, j < length docs -> body j s = (Normal tt, s)) ->
  length docs - i < fuel ->
  for_nDocs_from fuel self i body s = (Normal tt, s).
Proof.
  intros Hd Hbody. revert i.
  induction fuel as [|fuel IH]; intros i Hfuel; [lia|].
  simpl. rewrite (bind_normal _ _ _ _ _ (nDocs_Some _ _ _ Hd)).
  destruct (Nat.ltb_spec i (length docs)) as [Hlt|Hge]; [|done].
  rewrite (bind_normal _ _ _ _ _ (Hbody i Hlt)).
  apply IH. lia.
Qed.

Lemma for_nDocs_unchanged s self docs body :
  docs_of s self = Some docs ->
  (forall j, j < length docs -> body j s = (Normal tt, s)) ->
  for_nDocs self body s = (Normal tt, s).
Proof.
  intros Hd Hbody. unfold for_nDocs.
  rewrite (bind_normal _ _ _ _ _ (nDocs_Some _ _ _ Hd)).
  eapply for_nDocs_from_unchanged; eauto. lia.
Qed.

Lemma shaped_lookup s self docs i doc :
  shaped s = true -> docs_of s self = Some docs -> docs !! i = Some doc ->
  has_shape s doc = true.
Proof.
  unfold shaped. intros Hs Hd%docs_of_Some Hi.
  rewrite forallb_forall in Hs.
  specialize (Hs (Some docs)). simpl in Hs.
  rewrite forallb_forall in Hs.
  apply Hs.
  - apply list_elem_of_In. eapply list_elem_of_lookup_2; eauto.
  - apply list_elem_of_In. eapply list_elem_of_lookup_2; eauto.
Qed.

Lemma has_shape_inv s v :
  has_shape s v = true ->
  exists l o t a, v = VObj l /\ heap s !! l = Some o
                  /\ o !! "text" = Some t /\ o !! "attributes" = Some a.
Proof.
  unfold has_shape. intros [[Ht Ha]%andb_prop _]%andb_prop.
  apply bool_decide_eq_true in Ht as [t Ht].
  apply bool_decide_eq_true in Ha as [a Ha].
  destruct v; simpl in *; try done.
  destruct (heap s !! l) as [o|] eqn:Ho; simpl in *; [|done].
  by exists l, o, t, a.
Qed.

Lemma has_shape_own s l (o : object) :
  has_shape s (VObj l) = true -> heap s !! l = Some o ->
  o !! "hasOwnProperty" = None.
Proof.
  unfold has_shape, shadows. intros [_ Hown]%andb_prop Ho.
  apply negb_true_iff, bool_decide_eq_false in Hown.
  simpl in Hown. rewrite Ho in Hown. simpl in Hown.
  by apply eq_None_not_Some.
Qed.

(** Storing in a property the value it already has changes nothing. *)
Lemma set_prop_same s l o p x :
  heap s !! l = Some o -> o !! p = Some x ->
  set_prop (VObj l) p x s = (Normal tt, s).
Proof.
  intros Ho Hp. unfold set_prop, get_object, bind. rewrite Ho.
  unfold put_object. rewrite (insert_id o p x Hp).
  rewrite (list_insert_id (heap s) l o Ho). by rewrite state_eta.
Qed.

Lemma get_prop_obj s l o p :
  heap s !! l = Some o ->
  get_prop (VObj l) p s = (Normal (default VUndefined (o !! p)), s).
Proof. intros Ho. unfold get_prop, get_object, bind. by rewrite Ho. Qed.

Section properties.
Context `{Host}.

(** C7: for a Corpus (an initialised instance in a state whose documents
    all have the Document shape), [apply] with the identity function
    returns the Corpus and leaves the whole state as it was: the text of
    every document and the number of documents are unchanged. *)
Theorem C7_apply_identity (s : state) (self : loc) (docs : list value) :
  shaped s = true ->
  docs_of s self = Some docs ->
  corpus.apply self (fun text _ _ => Normal text) s = (Normal (VCorpus self), s).
Proof.
  intros Hs Hd. unfold corpus.apply.
  erewrite bind_normal; [reflexivity|].
  eapply for_nDocs_unchanged; [exact Hd|].
  intros j Hj.
  destruct (lookup_lt_is_Some_2 docs j Hj) as [doc Hdoc].
  rewrite (bind_normal _ _ _ _ _ (document_at_Some _ _ _ j Hd)).
  rewrite Hdoc. simpl.
  destruct (has_shape_inv _ _ (shaped_lookup _ _ _ _ _ Hs Hd Hdoc))
    as (l & o & t & a & -> & Ho & Ht & Ha).
  rewrite (bind_normal _ _ _ _ _ (get_prop_obj _ _ _ "text" Ho)).
  rewrite (bind_normal _ _ _ _ _ (get_prop_obj _ _ _ "attributes" Ho)).
  rewrite Ht. simpl. unfold lift at 1. unfold bind at 1.
  rewrite (bind_normal _ _ _ _ _ (set_prop_same _ _ _ _ _ Ho Ht)).
  eapply set_document_at_same; eauto.
Qed.

End properties.

(** ** A program logic for the methods *)

Lemma hoare_bind {A B} P (m : M A) (k : A -> M B) Q R E :
  hoare P m Q E -> (forall a, hoare (Q a) (k a) R E) ->
  hoare P (bind m k) R E.
Proof.
  intros Hm Hk s HP. unfold bind. specialize (Hm s HP).
  destruct (m s) as [[a|e|] s1]; try done. by apply Hk.
Qed.

Lemma hoare_ret {A} (P : state -> Prop) (a : A) (Q : A -> state -> Prop) E :
  (forall s, P s -> Q a s) -> hoare P (ret a) Q E.
Proof. intros HQ s HP. by apply HQ. Qed.

Lemma hoare_throw {A} (P : state -> Prop) e (Q : A -> state -> Prop)
    (E : state -> Prop) :
  (forall s, P s -> E s) -> hoare P (throw e) Q E.
Proof. intros HE s HP. by apply HE. Qed.

Lemma hoare_stuck {A} (P : state -> Prop) (Q : A -> state -> Prop)
    (E : state -> Prop) :
  (forall s, P s -> E s) -> hoare P stuck Q E.
Proof. intros HE s HP. by apply HE. Qed.

Lemma hoare_lift {A} (P : state -> Prop) (c : completion A)
    (E : state -> Prop) :
  (forall s, P s -> E s) ->
  hoare P (lift c) (fun a s => P s /\ c = Normal a) E.
Proof. intros HE s HP. unfold lift. destruct c; auto. Qed.

Lemma hoare_conseq {A} (P P' : state -> Prop) (m : M A)
    (Q Q' : A -> state -> Prop) (E E' : state -> Prop) :
  hoare P' m Q' E' ->
  (forall s, P s -> P' s) -> (forall a s, Q' a s -> Q a s) ->
  (forall s, E' s -> E s) ->
  hoare P m Q E.
Proof.
  intros Hm HP HQ HE s Hs. specialize (Hm s (HP s Hs)).
  destruct (m s) as [[a|e|] s1]; auto.
Qed.

Lemma hoare_post {A} (P : state -> Prop) (m : M A)
    (Q Q' : A -> state -> Prop) (E : state -> Prop) :
  hoare P m Q' E -> (forall a s, Q' a s -> Q a s) -> hoare P m Q E.
Proof. intros Hm HQ. eapply hoare_conseq; eauto. Qed.

(** The invariant is the leftmost conjunct of the precondition. *)
Ltac leftmost :=
  intros ? ?;
  repeat match goal with H : _ /\ _ |- _ => destruct H as [H _] end;
  assumption.

(** What the accessors give. *)
Lemma hoare_get_documents (P E : state -> Prop) self :
  (forall s, P s -> E s) ->
  hoare P (get_documents self)
    (fun docs s => P s /\ docs_of s self = Some docs) E.
Proof.
  intros HE s HP. unfold get_documents.
  destruct (corpora s !! self) as [[docs|]|] eqn:Hc; auto.
  split; [done|]. by apply docs_of_Some.
Qed.

Lemma hoare_nDocs (P E : state -> Prop) self :
  (forall s, P s -> E s) ->
  hoare P (nDocs self)
    (fun n s => P s /\ exists docs, docs_of s self = Some docs
                                    /\ n = length docs) E.
Proof.
  intros HE. unfold nDocs.
  eapply hoare_bind; [by apply hoare_get_documents|].
  intros docs. apply hoare_ret. intros s [HP Hd]. eauto.
Qed.

Lemma hoare_document_at (P E : state -> Prop) self i :
  (forall s, P s -> E s) ->
  hoare P (document_at self i)
    (fun doc s => P s /\ exists docs, docs_of s self = Some docs
                           /\ doc = default VUndefined (docs !! i)) E.
Proof.
  intros HE. unfold document_at.
  eapply hoare_bind; [by apply hoare_get_documents|].
  intros docs. apply hoare_ret. intros s [HP Hd]. eauto.
Qed.

Lemma hoare_get_object (P E : state -> Prop) l :
  (forall s, P s -> E s) ->
  hoare P (get_object l) (fun o s => P s /\ heap s !! l = Some o) E.
Proof.
  intros HE s HP. unfold get_object. destruct (heap s !! l) eqn:Ho; auto.
Qed.

Lemma hoare_get_prop (P E : state -> Prop) v p :
  (forall s, P s -> E s) ->
  hoare P (get_prop v p)
    (fun x s => P s /\ x = default VUndefined (prop_of s v p)) E.
Proof.
  intros HE. unfold get_prop.
  destruct v; try (by apply hoare_throw); try (by apply hoare_ret).
  eapply hoare_bind; [by apply hoare_get_object|].
  intros o. apply hoare_ret. intros s [HP Ho]. split; [done|].
  simpl. by rewrite Ho.
Qed.

Lemma hoare_hasOwnProperty (P E : state -> Prop) v p :
  (forall s, P s -> E s) ->
  hoare P (hasOwnProperty v p)
    (fun b s => P s /\ (b = true -> isObject v = true ->
                        v = VCorpus (match v with VCorpus c => c | _ => 0 end)
                        \/ is_Some (prop_of s v p))) E.
Proof.
  intros HE. unfold hasOwnProperty.
  destruct v; try (by apply hoare_stuck).
  - eapply hoare_bind; [by apply hoare_get_object|].
    intros o. destruct (bool_decide (is_Some (o !! "hasOwnProperty"))).
    { apply hoare_throw. intros s [HP _]. by apply HE. }
    apply hoare_ret. intros s [HP Ho]. split; [done|].
    intros Hb%bool_decide_eq_true _. right. simpl. by rewrite Ho.
  - apply hoare_ret. intros s HP. split; [done|]. intros _ _. by left.
Qed.

(** What the writes do. *)
Lemma hoare_set_prop (P E : state -> Prop) v p x :
  (forall s, P s -> E s) ->
  hoare P (set_prop v p x)
    (fun _ s' => exists s l (o : object), P s /\ v = VObj l
        /\ heap s !! l = Some o
        /\ s' = State (<[l := <[p := x]> o]> (heap s)) (corpora s)) E.
Proof.
  intros HE. unfold set_prop.
  destruct v; try (by apply hoare_throw); try (by apply hoare_stuck).
  intros s HP. unfold bind, get_object.
  destruct (heap s !! l) as [o|] eqn:Ho; simpl; [|by apply HE].
  by exists s, l, o.
Qed.

Lemma hoare_set_documents (P E : state -> Prop) self docs :
  (forall s, P s -> E s) ->
  hoare P (set_documents self docs)
    (fun _ s' => exists s, P s /\ self < length (corpora s)
        /\ s' = State (heap s) (<[self := Some docs]> (corpora s))) E.
Proof.
  intros HE s HP. unfold set_documents.
  destruct (corpora s !! self) eqn:Hc; [|by apply HE].
  exists s. split; [done|]. split; [|done]. by eapply lookup_lt_Some.
Qed.

Lemma hoare_set_document_at_same (P E : state -> Prop) self i doc :
  (forall s, P s -> E s) ->
  hoare (fun s => P s /\ exists docs, docs_of s self = Some docs
                         /\ doc = default VUndefined (docs !! i))
    (set_document_at self i doc) (fun _ s => P s) E.
Proof.
  intros HE s (HP & docs & Hd & ->).
  destruct (docs !! i) as [doc|] eqn:Hi; simpl.
  - by rewrite (set_document_at_same _ _ _ _ _ Hd Hi).
  - unfold set_document_at.
    rewrite (bind_normal _ _ _ _ _ (get_documents_Some _ _ _ Hd)).
    apply lookup_ge_None in Hi.
    destruct (Nat.ltb_spec i (length docs)); [lia|]. by apply HE.
Qed.

(** Loops that keep an invariant whatever their completion. *)
Lemma hoare_for_nDocs_from (I : state -> Prop) self body fuel i :
  (forall j, hoare I (body j) (fun _ => I) I) ->
  hoare I (for_nDocs_from fuel self i body) (fun _ => I) I.
Proof.
  intros Hbody. revert i. induction fuel as [|fuel IH]; intros i.
  - by apply hoare_stuck.
  - simpl. eapply hoare_bind; [by apply hoare_nDocs|].
    intros n. simpl. destruct (i <? n)%nat.
    + eapply hoare_bind.
      * eapply hoare_conseq; [apply (Hbody i)| |done|done].
        by intros s [HI _].
      * intros ?. apply IH.
    + apply hoare_ret. by intros s [HI _].
Qed.

Lemma hoare_for_nDocs (I : state -> Prop) self body :
  (forall j, hoare I (body j) (fun _ => I) I) ->
  hoare I (for_nDocs self body) (fun _ => I) I.
Proof.
  intros Hbody. unfold for_nDocs.
  eapply hoare_bind; [by apply hoare_nDocs|].
  intros n. eapply hoare_conseq; [by apply hoare_for_nDocs_from| |done|done].
  by intros s [HI _].
Qed.

Lemma hoare_for_upto (I : state -> Prop) body len i :
  (forall j, hoare I (body j) (fun _ => I) I) ->
  hoare I (corpus.for_upto len i body) (fun _ => I) I.
Proof.
  intros Hbody. revert i. induction len as [|len IH]; intros i; simpl.
  - by apply hoare_ret.
  - eapply hoare_bind; [apply Hbody|]. intros ?. apply IH.
Qed.

(** *** Only the text of documents is written *)

Lemma only_written_refl w self s : only_written w self s s.
Proof. repeat split; auto. intros l o Ho. exists o. auto. Qed.

Lemma only_written_set w self s0 s l (o : object) x docs i :
  only_written w self s0 s ->
  docs_of s self = Some docs -> docs !! i = Some (VObj l) ->
  heap s !! l = Some o ->
  only_written w self s0
    (State (<[l := <[w := x]> o]> (heap s)) (corpora s)).
Proof.
  intros (Hc & Hlen & Hobj) Hd Hi Ho. split; [done|]. split.
  { simpl. by rewrite length_insert. }
  intros l' o0 Ho0. simpl.
  destruct (Hobj l' o0 Ho0) as (o' & Ho' & Hp & Hor).
  destruct (decide (l' = l)) as [->|Hne].
  - exists (<[w := x]> o). split.
    + apply list_lookup_insert_eq. by eapply lookup_lt_Some.
    + split.
      * intros p Hp'. rewrite lookup_insert_ne; [|done].
        assert (o = o') as -> by congruence. by apply Hp.
      * right. exists docs. split.
        -- unfold docs_of in *. by rewrite <- Hc.
        -- eapply list_elem_of_lookup_2; eauto.
  - exists o'. split; [|done]. by rewrite list_lookup_insert_ne.
Qed.

Lemma apply_only_text self s0 (FUN : callback) :
  hoare (only_text self s0) (corpus.apply self FUN)
    (fun _ => only_text self s0) (only_text self s0).
Proof.
  unfold corpus.apply.
  eapply (hoare_bind _ _ _ (fun _ => only_text self s0));
    [|intros ?; by apply hoare_ret].
  apply hoare_for_nDocs. intros j.
  eapply hoare_bind; [by apply hoare_document_at|]. intros doc.
  eapply hoare_bind; [apply hoare_get_prop; leftmost|]. intros text.
  eapply hoare_bind; [apply hoare_get_prop; leftmost|]. intros attrs.
  eapply hoare_bind; [apply hoare_lift; leftmost|]. intros r.
  eapply hoare_bind; [apply hoare_set_prop; leftmost|]. intros ?.
  eapply hoare_conseq;
    [apply (hoare_set_document_at_same (only_text self s0)
              (only_text self s0) self j doc); done| |done|done].
  intros s' (s & l & o & HP & -> & Ho & ->).
  destruct HP as ((((HP & docs & Hd & Hdoc) & _) & _) & _).
  destruct (docs !! j) as [d|] eqn:Hj; simpl in Hdoc; [subst d|done].
  split.
  - eapply only_written_set; eauto.
  - exists docs. split; [done|]. by rewrite Hj.
Qed.

Lemma normalize_only_text `{Host} op self s0 :
  hoare (only_text self s0) (normalize op self)
    (fun _ => only_text self s0) (only_text self s0).
Proof.
  destruct op; simpl;
    (eapply hoare_bind; [apply apply_only_text|intros ?; by apply hoare_ret]).
Qed.

Lemma hoare_snd {A} (P : state -> Prop) (m : M A) (I : state -> Prop) s :
  hoare P m (fun _ => I) I -> P s -> I (snd (m s)).
Proof.
  intros Hm HP. specialize (Hm s HP). by destruct (m s) as [[a|e|] s1].
Qed.

Lemma only_text_kept self s s' :
  only_text self s s' ->
  docs_of s' self = docs_of s self /\ attributes_kept_apart self s s'.
Proof.
  intros (Hc & Hlen & Hobj). split.
  { unfold docs_of. by rewrite Hc. }
  intros docs d a Hd Hin Ha.
  destruct d; simpl in Ha; try done.
  destruct (heap s !! l) as [o|] eqn:Ho; simpl in Ha; [|done].
  destruct (Hobj l o Ho) as (o' & Ho' & Hp & _). split.
  - simpl. rewrite Ho'. simpl. by rewrite Hp.
  - intros Hnot. destruct (heap s !! a) as [oa|] eqn:Hoa.
    + destruct (Hobj a oa Hoa) as (oa' & Hoa' & _ & [->|(docs' & Hd' & Hin')]);
        [done|]. congruence.
    + apply lookup_ge_None in Hoa. apply lookup_ge_None. lia.
Qed.

Lemma hoare_writes_text_only {A} self (m : M A) :
  (forall s0, hoare (only_text self s0) m
                (fun _ => only_text self s0) (only_text self s0)) ->
  writes_text_only self m.
Proof.
  intros Hm s.
  pose proof (hoare_snd _ _ _ s (Hm s) (only_written_refl "text" self s)) as Hs.
  destruct (only_text_kept _ _ _ Hs). auto.
Qed.

Section frame_properties.
Context `{Host}.

(** C9, as amended: whatever the callback returns or throws, [apply] leaves
    the number of documents alone, leaves the [attributes] property of
    every document alone (the same mapping), leaves the entries of that
    mapping alone when the mapping is not itself a document of the Corpus,
    and writes nothing but the [text] of documents of the Corpus; so does
    every built-in normalization operation. *)
Theorem C9_apply_writes_text_only (self : loc) (FUN : callback)
    (op : normalization) :
  writes_text_only self (corpus.apply self FUN)
  /\ writes_text_only self (normalize op self).
Proof.
  split; apply hoare_writes_text_only; intros s0.
  - apply apply_only_text.
  - apply normalize_only_text.
Qed.

End frame_properties.

(** C9, as stated, fails when the [attributes] of a document is itself a
    document of the Corpus: [apply] rewrites the [text] entry of that
    mapping. *)
Lemma C9_attributes_entries_change :
  ~ attributes_kept 0 document_as_attributes
      (snd (corpus.apply 0 (fun _ _ _ => Normal (VStr (str "x")))
              document_as_attributes)).
Proof.
  intros Hk.
  destruct (Hk [VObj 0; VObj 2] (VObj 0) 2) as [_ Heq].
  - reflexivity.
  - apply list_elem_of_here.
  - reflexivity.
  - apply (f_equal (fun o : option object => o ≫= (fun o => o !! "text")))
      in Heq.
    vm_compute in Heq. discriminate.
Qed.

(** ** New instances and [addDoc] *)

Lemma insert_snoc {A} (l : list A) (x y : A) :
  <[length l := x]> (l ++ [y]) = l ++ [x].
Proof.
  rewrite <- (Nat.add_0_r (length l)) at 1. by rewrite insert_app_r.
Qed.

Lemma insert_middle {A} (l l2 : list A) (x y : A) :
  <[length l := x]> (l ++ y :: l2) = l ++ x :: l2.
Proof.
  rewrite <- (Nat.add_0_r (length l)) at 1. by rewrite insert_app_r.
Qed.

Lemma lookup_snoc {A} (l : list A) (y : A) : (l ++ [y]) !! length l = Some y.
Proof. by rewrite list_lookup_middle. Qed.

Lemma Corpus_undefined s :
  corpus.Corpus VUndefined s
  = (Normal (VCorpus (length (corpora s))),
     State (heap s) (corpora s ++ [Some []])).
Proof.
  unfold corpus.Corpus, new_instance, bind, corpus.init. simpl.
  unfold set_documents. simpl. rewrite lookup_snoc.
  by rewrite insert_snoc.
Qed.

Lemma isDoc_shaped s v :
  has_shape s v = true -> isDoc v s = (Normal true, s).
Proof.
  intros Hs. destruct (has_shape_inv _ _ Hs) as (l & o & t & a & -> & Ho & Ht & Ha).
  pose proof (has_shape_own _ _ _ Hs Ho) as Hown.
  unfold isDoc, hasOwnProperty, bind, get_object. simpl.
  rewrite Ho. simpl. rewrite Hown, Ht. simpl. rewrite Ho. simpl.
  by rewrite Hown, Ha.
Qed.

Lemma push_Some s self docs doc :
  docs_of s self = Some docs ->
  push self doc s
  = (Normal tt, State (heap s) (<[self := Some (docs ++ [doc])]> (corpora s))).
Proof.
  intros Hd. unfold push.
  rewrite (bind_normal _ _ _ _ _ (get_documents_Some _ _ _ Hd)).
  unfold set_documents. apply docs_of_Some in Hd. by rewrite Hd.
Qed.

Lemma has_shape_not_string s v : has_shape s v = true -> isString v = false.
Proof.
  intros Hs. by destruct (has_shape_inv _ _ Hs) as (l & o & t & a & -> & _).
Qed.

Lemma addDoc_shaped s self docs doc :
  has_shape s doc = true -> docs_of s self = Some docs ->
  corpus.addDoc self doc s
  = (Normal VUndefined,
     State (heap s) (<[self := Some (docs ++ [doc])]> (corpora s))).
Proof.
  intros Hs Hd. unfold corpus.addDoc.
  rewrite (has_shape_not_string _ _ Hs).
  rewrite (bind_normal _ _ _ _ _ (isDoc_shaped _ _ Hs)).
  by rewrite (bind_normal _ _ _ _ _ (push_Some _ _ _ _ Hd)).
Qed.

(** ** [filter] *)

Section filter_loop.
Variable s : state.
Variable self : loc.
Variable docs : list value.
Variable FUN : callback.
Hypothesis Hshaped : shaped s = true.
Hypothesis Hdocs : docs_of s self = Some docs.

Lemma self_lt : self < length (corpora s).
Proof. apply docs_of_Some in Hdocs. by eapply lookup_lt_Some. Qed.

Lemma during_docs acc : docs_of (during s acc) self = Some docs.
Proof.
  apply docs_of_Some. unfold during. simpl.
  rewrite lookup_app_l; [|apply self_lt]. by apply docs_of_Some.
Qed.

Lemma during_new acc : docs_of (during s acc) (length (corpora s)) = Some acc.
Proof. apply docs_of_Some. unfold during. simpl. apply lookup_snoc. Qed.

Lemma during_shape acc d : has_shape (during s acc) d = has_shape s d.
Proof. done. Qed.

Lemma filter_body i d acc :
  docs !! i = Some d ->
  filter_step self (length (corpora s)) FUN i (during s acc)
  = match call_on s FUN i d with
    | Normal b =>
        (Normal tt, during s (if truthy b then acc ++ [d] else acc))
    | Throw e => (Throw e, during s acc)
    | Stuck => (Stuck, during s acc)
    end.
Proof.
  intros Hi. unfold filter_step.
  rewrite (bind_normal _ _ _ _ _ (document_at_Some _ _ _ i (during_docs acc))).
  rewrite Hi. simpl.
  pose proof (shaped_lookup _ _ _ _ _ Hshaped Hdocs Hi) as Hs.
  destruct (has_shape_inv _ _ Hs) as (l & o & t & a & -> & Ho & Ht & Ha).
  rewrite (bind_normal _ _ _ _ _ (get_prop_obj (during s acc) _ _ "text" Ho)).
  rewrite (bind_normal _ _ _ _ _
             (get_prop_obj (during s acc) _ _ "attributes" Ho)).
  unfold call_on. simpl. rewrite Ho. simpl. rewrite Ht, Ha. simpl.
  unfold lift, bind at 1.
  destruct (FUN t a i) as [b|e|]; [|done|done].
  destruct (truthy b); [|done].
  assert (has_shape (during s acc) (VObj l) = true) as Hs' by exact Hs.
  rewrite (bind_normal _ _ _ _ _
             (addDoc_shaped (during s acc) _ _ _ Hs' (during_new acc))).
  unfold ret, during. simpl. by rewrite insert_snoc.
Qed.

Lemma filter_loop fuel i acc :
  i <= length docs -> length docs - i < fuel ->
  exists r,
    for_nDocs_from fuel self i (filter_step self (length (corpora s)) FUN)
      (during s acc)
    = (r, during s (acc ++ select s FUN i (drop i docs)))
    /\ (returns s FUN docs -> r = Normal tt).
Proof.
  revert i acc. induction fuel as [|fuel IH]; intros i acc Hi Hfuel; [lia|].
  simpl.
  rewrite (bind_normal _ _ _ _ _ (nDocs_Some _ _ _ (during_docs acc))).
  destruct (Nat.ltb_spec i (length docs)) as [Hlt|Hge].
  - destruct (lookup_lt_is_Some_2 docs i Hlt) as [d Hd].
    rewrite (drop_S _ _ _ Hd). simpl.
    unfold bind at 1. rewrite (filter_body i d acc Hd).
    destruct (call_on s FUN i d) as [b|e|] eqn:Hcall.
    + destruct (IH (S i) (if truthy b then acc ++ [d] else acc))
        as (r & Hr & Hret); [lia..|].
      exists r. split; [|done]. rewrite Hr.
      destruct (truthy b); [|done]. by rewrite <- app_assoc.
    + exists (Throw e). rewrite app_nil_r. split; [done|].
      intros Hret. destruct (Hret i d Hd) as [b Hb]. congruence.
    + exists Stuck. rewrite app_nil_r. split; [done|].
      intros Hret. destruct (Hret i d Hd) as [b Hb]. congruence.
  - exists (Normal tt). rewrite drop_ge; [|done]. simpl.
    by rewrite app_nil_r.
Qed.

Lemma filter_run :
  exists r,
    corpus.filter self FUN s
    = (r, State (heap s) (corpora s ++ [Some (select s FUN 0 docs)]))
    /\ (returns s FUN docs -> r = Normal (VCorpus (length (corpora s)))).
Proof.
  unfold corpus.filter.
  rewrite (bind_normal _ _ _ _ _ (Corpus_undefined s)).
  unfold corpus.instance at 1. unfold bind at 1, ret at 1.
  unfold for_nDocs.
  fold (during s []).
  destruct (filter_loop (S (length docs)) 0 []) as (r & Hr & Hret); [lia..|].
  unfold bind at 1.
  rewrite (bind_normal _ _ _ _ _ (nDocs_Some _ _ _ (during_docs []))).
  fold (filter_step self (length (corpora s)) FUN). rewrite Hr. simpl. rewrite drop_0.
  destruct r as [[]|e|].
  - eexists. split; [reflexivity|done].
  - eexists. split; [reflexivity|]. intros Hret'. by specialize (Hret Hret').
  - eexists. split; [reflexivity|]. intros Hret'. by specialize (Hret Hret').
Qed.

End filter_loop.

Lemma select_sublist s FUN i docs : select s FUN i docs `sublist_of` docs.
Proof.
  revert i. induction docs as [|d docs IH]; intros i; simpl; [done|].
  destruct (call_on s FUN i d) as [b|e|].
  - destruct (truthy b).
    + by apply sublist_skip.
    + by apply sublist_cons.
  - apply sublist_nil_l.
  - apply sublist_nil_l.
Qed.

Lemma select_elem_of s FUN docs i d :
  (forall j x, docs !! j = Some x -> exists b, call_on s FUN (i + j) x = Normal b) ->
  d ∈ select s FUN i docs <->
  exists j b, docs !! j = Some d /\ call_on s FUN (i + j) d = Normal b
              /\ truthy b = true.
Proof.
  revert i. induction docs as [|x docs IH]; intros i Hret; simpl.
  { split; [by intros ?%elem_of_nil|]. by intros (j & b & ? & _). }
  assert (forall j y, docs !! j = Some y ->
            exists b, call_on s FUN (S i + j) y = Normal b) as Hret'.
  { intros j y Hj. destruct (Hret (S j) y Hj) as [b Hb]. exists b.
    by rewrite <- Hb, Nat.add_succ_r. }
  destruct (Hret 0 x eq_refl) as [b0 Hb0]. rewrite Nat.add_0_r in Hb0.
  rewrite Hb0.
  assert (d ∈ select s FUN (S i) docs <->
          exists j b, (x :: docs) !! S j = Some d
                      /\ call_on s FUN (i + S j) d = Normal b
                      /\ truthy b = true) as Htail.
  { rewrite (IH (S i) Hret'). setoid_rewrite Nat.add_succ_r. done. }
  destruct (truthy b0) eqn:Hb.
  - rewrite elem_of_cons, Htail. split.
    + intros [->|(j & b & Hj)].
      * exists 0, b0. by rewrite Nat.add_0_r.
      * by exists (S j), b.
    + intros ([|j] & b & Hj & Hcall & Ht).
      * left. simpl in Hj. congruence.
      * right. by exists j, b.
  - rewrite Htail. split.
    + intros (j & b & Hj). by exists (S j), b.
    + intros ([|j] & b & Hj & Hcall & Ht).
      * simpl in Hj. rewrite Nat.add_0_r in Hcall. congruence.
      * by exists j, b.
Qed.

(** C6: on a Corpus, [filter] writes neither the objects of the store nor
    the instances there were (the receiver keeps its documents and their
    text); the instance it builds is new and holds the documents on which
    the predicate returned a truthy value, the same references in the
    order of the receiver; when the predicate returns on every document,
    [filter] returns that instance. *)
Theorem C6_filter (s : state) (self : loc) (docs : list value)
    (FUN : callback) :
  shaped s = true ->
  docs_of s self = Some docs ->
  let new := length (corpora s) in
  let s' := snd (corpus.filter self FUN s) in
  heap s' = heap s
  /\ (forall c, c < new -> corpora s' !! c = corpora s !! c)
  /\ docs_of s new = None
  /\ docs_of s' new = Some (select s FUN 0 docs)
  /\ select s FUN 0 docs `sublist_of` docs
  /\ (returns s FUN docs ->
      fst (corpus.filter self FUN s) = Normal (VCorpus new)
      /\ forall d, d ∈ select s FUN 0 docs <->
           exists i b, docs !! i = Some d /\ call_on s FUN i d = Normal b
                       /\ truthy b = true).
Proof.
  intros Hs Hd new s'.
  destruct (filter_run s self docs FUN Hs Hd) as (r & Hrun & Hret).
  subst s'. rewrite Hrun. simpl. repeat split.
  - intros c Hc. by rewrite lookup_app_l.
  - unfold docs_of. by rewrite (lookup_ge_None_2 (corpora s) new).
  - apply docs_of_Some. simpl. apply lookup_snoc.
  - apply select_sublist.
  - by apply Hret.
  - apply (select_elem_of s FUN docs 0 d). intros j x Hj. by apply H.
  - apply (select_elem_of s FUN docs 0 d). intros j x Hj. by apply H.
Qed.

Lemma C6_filter_witness :
  docs_of (snd (corpus.filter 0 keep_first two_documents)) 1
  = Some [VObj 0].
Proof.
  exact (proj1 (proj2 (proj2 (proj2
    (C6_filter two_documents 0 [VObj 0; VObj 2] keep_first
       eq_refl eq_refl))))).
Defined.

Lemma C7_apply_identity_witness :
  corpus.apply 0 (fun text _ _ => Normal text) two_documents
  = (Normal (VCorpus 0), two_documents).
Proof.
  exact (C7_apply_identity two_documents 0 [VObj 0; VObj 2] eq_refl eq_refl).
Defined.

(** ** The constructor *)

Lemma set_prop_run s l (o : object) p x :
  heap s !! l = Some o ->
  set_prop (VObj l) p x s
  = (Normal tt, State (<[l := <[p := x]> o]> (heap s)) (corpora s)).
Proof. intros Ho. unfold set_prop, bind, get_object. by rewrite Ho. Qed.

Lemma Doc_string s t :
  Doc (VStr t) s
  = (Normal (VObj (length (heap s))),
     State (heap s ++ [Document t (S (length (heap s))); ∅]) (corpora s)).
Proof.
  unfold Doc. simpl.
  erewrite bind_normal; [|reflexivity].
  erewrite bind_normal; [|apply set_prop_run; simpl; apply lookup_snoc].
  erewrite bind_normal; [|reflexivity].
  erewrite bind_normal.
  2:{ apply set_prop_run. simpl. rewrite insert_snoc.
      rewrite <- app_assoc. simpl. by apply list_lookup_middle. }
  unfold ret. simpl. rewrite insert_snoc.
  rewrite length_app. simpl.
  rewrite <- app_assoc. simpl.
  rewrite insert_middle. unfold Document.
  by rewrite Nat.add_1_r.
Qed.

Lemma wrap_strings texts s :
  corpus.wrap (VStr <$> texts) s
  = (Normal (created texts (length (heap s))),
     State (heap s ++ documents_of texts (length (heap s))) (corpora s)).
Proof.
  revert s. induction texts as [|t texts IH]; intros s; simpl.
  { unfold ret. by rewrite app_nil_r, state_eta. }
  rewrite (bind_normal _ _ _ _ _ (Doc_string s t)).
  rewrite (bind_normal _ _ _ _ _ (IH _)). unfold ret. simpl.
  rewrite length_app. simpl.
  rewrite <- app_assoc. simpl.
  by rewrite Nat.add_succ_r, Nat.add_succ_r, Nat.add_0_r.
Qed.

Lemma documents_of_lookup texts h i t :
  texts !! i = Some t ->
  created texts h !! i = Some (VObj (h + 2 * i))
  /\ documents_of texts h !! (2 * i) = Some (Document t (S (h + 2 * i)))
  /\ documents_of texts h !! (S (2 * i)) = Some ∅.
Proof.
  revert h i. induction texts as [|t' texts IH]; intros h i Hi; [done|].
  destruct i as [|i]; simpl in *.
  - injection Hi as ->. by rewrite Nat.add_0_r.
  - destruct (IH (S (S h)) i Hi) as (Hc & Hd & He).
    replace (h + S (i + S (i + 0))) with (S (S h) + 2 * i) by lia.
    replace (i + S (i + 0)) with (S (2 * i)) by lia.
    simpl. done.
Qed.

Lemma created_length texts h : length (created texts h) = length texts.
Proof. revert h. induction texts; intros h; simpl; auto. Qed.

Lemma isStringArray_strings texts : isStringArray (VArr (VStr <$> texts)) = true.
Proof. unfold isStringArray. simpl. by induction texts. Qed.

(** C5: [new Corpus( docs )] makes a new instance that is empty when
    [docs] is omitted, holds one Document wrapping [docs] when [docs] is a
    string, and holds one Document per element, in order, when [docs] is
    an array of strings; for any other argument it throws a [TypeError],
    and the instance it had allocated is never initialised nor returned.
    The objects and the instances that were there are not written. *)
Theorem C5_constructor (s : state) :
  let this := length (corpora s) in
  let h := length (heap s) in
  corpus.Corpus VUndefined s
    = (Normal (VCorpus this), State (heap s) (corpora s ++ [Some []]))
  /\ (forall t,
        corpus.Corpus (VStr t) s
        = (Normal (VCorpus this),
           State (heap s ++ [Document t (S h); ∅])
                 (corpora s ++ [Some [VObj h]])))
  /\ (forall texts,
        corpus.Corpus (VArr (VStr <$> texts)) s
        = (Normal (VCorpus this),
           State (heap s ++ documents_of texts h)
                 (corpora s ++ [Some (created texts h)]))
        /\ length (created texts h) = length texts
        /\ forall i t, texts !! i = Some t ->
             exists l a,
               created texts h !! i = Some (VObj l)
               /\ (heap s ++ documents_of texts h) !! l = Some (Document t a)
               /\ (heap s ++ documents_of texts h) !! a = Some ∅)
  /\ (forall docs,
        corpus.isUndefined docs = false -> isString docs = false ->
        isStringArray docs = false ->
        corpus.Corpus docs s
        = (Throw (TypeError "Constructor expects an array of documents or strings"),
           State (heap s) (corpora s ++ [None]))).
Proof.
  intros this h. split; [apply Corpus_undefined|]. split; [|split].
  - intros t. unfold corpus.Corpus.
    erewrite bind_normal; [|reflexivity].
    erewrite bind_normal; [reflexivity|].
    unfold corpus.init. simpl.
    erewrite bind_normal; [|apply Doc_string].
    unfold set_documents. simpl. rewrite lookup_snoc.
    by rewrite insert_snoc.
  - intros texts. split; [|split].
    + unfold corpus.Corpus.
      erewrite bind_normal; [|reflexivity].
      erewrite bind_normal; [reflexivity|].
      unfold corpus.init. rewrite isStringArray_strings.
      change (corpus.isUndefined (VArr (VStr <$> texts))) with false.
      change (isString (VArr (VStr <$> texts))) with false.
      cbv iota.
      change (elements (VArr (VStr <$> texts))) with (VStr <$> texts).
      erewrite bind_normal; [|apply wrap_strings].
      unfold set_documents. cbn [heap corpora].
      rewrite lookup_snoc. by rewrite insert_snoc.
    + apply created_length.
    + intros i t Hi.
      destruct (documents_of_lookup texts h i t Hi) as (Hc & Hd & He).
      exists (h + 2 * i), (S (h + 2 * i)). split; [done|]. split.
      * rewrite lookup_app_r; [|unfold h; lia].
        replace (h + 2 * i - length (heap s)) with (2 * i) by (unfold h; lia).
        done.
      * rewrite lookup_app_r; [|unfold h; lia].
        replace (S (h + 2 * i) - length (heap s)) with (S (2 * i))
          by (unfold h; lia).
        done.
  - intros docs Hu Hstr Harr.
    unfold corpus.Corpus, new_instance, bind, corpus.init.
    by rewrite Hu, Hstr, Harr.
Qed.

Lemma C5_constructor_witness :
  corpus.Corpus (VNum 5) initial
  = (Throw (TypeError "Constructor expects an array of documents or strings"),
     State [] [None]).
Proof.
  exact (proj2 (proj2 (proj2 (C5_constructor initial))) (VNum 5)
           eq_refl eq_refl eq_refl).
Defined.

(** ** Loops that run to their end *)

Lemma for_upto_run (I : nat -> state -> Prop) body len i s :
  I i s ->
  (forall j s1, i <= j < i + len -> I j s1 ->
     exists s2, body j s1 = (Normal tt, s2) /\ I (S j) s2) ->
  exists s', corpus.for_upto len i body s = (Normal tt, s') /\ I (i + len) s'.
Proof.
  revert i s. induction len as [|len IH]; intros i s HI Hbody; simpl.
  - exists s. by rewrite Nat.add_0_r.
  - destruct (Hbody i s) as (s2 & Hrun & HI2); [lia|done|].
    rewrite (bind_normal _ _ _ _ _ Hrun).
    destruct (IH (S i) s2 HI2) as (s' & Hrun' & HI').
    { intros j s1 Hj. apply Hbody. lia. }
    exists s'. split; [done|]. by rewrite Nat.add_succ_r.
Qed.

Lemma for_nDocs_from_run (I : nat -> state -> Prop) self body n fuel i s :
  I i s -> i <= n -> n - i < fuel ->
  (forall j s1, j <= n -> I j s1 ->
     exists docs, docs_of s1 self = Some docs /\ length docs = n) ->
  (forall j s1, j < n -> I j s1 ->
     exists s2, body j s1 = (Normal tt, s2) /\ I (S j) s2) ->
  exists s', for_nDocs_from fuel self i body s = (Normal tt, s') /\ I n s'.
Proof.
  intros HI Hi Hfuel Hn Hbody. revert i s HI Hi Hfuel.
  induction fuel as [|fuel IH]; intros i s HI Hi Hfuel; [lia|].
  simpl. destruct (Hn i s Hi HI) as (docs & Hd & Hlen).
  rewrite (bind_normal _ _ _ _ _ (nDocs_Some _ _ _ Hd)). rewrite Hlen.
  destruct (Nat.ltb_spec i n) as [Hlt|Hge].
  - destruct (Hbody i s Hlt HI) as (s2 & Hrun & HI2).
    rewrite (bind_normal _ _ _ _ _ Hrun).
    apply IH; [done|lia..].
  - assert (i = n) as -> by lia. by exists s.
Qed.

Lemma for_nDocs_run (I : nat -> state -> Prop) self body n s :
  I 0 s ->
  (forall j s1, j <= n -> I j s1 ->
     exists docs, docs_of s1 self = Some docs /\ length docs = n) ->
  (forall j s1, j < n -> I j s1 ->
     exists s2, body j s1 = (Normal tt, s2) /\ I (S j) s2) ->
  exists s', for_nDocs self body s = (Normal tt, s') /\ I n s'.
Proof.
  intros HI Hn Hbody. unfold for_nDocs.
  destruct (Hn 0 s (Nat.le_0_l n) HI) as (docs & Hd & Hlen).
  rewrite (bind_normal _ _ _ _ _ (nDocs_Some _ _ _ Hd)). rewrite Hlen.
  eapply for_nDocs_from_run; eauto; lia.
Qed.

(** ** [setAttributes] *)

Lemma only_written_docs w self s s' docs :
  only_written w self s s' -> docs_of s self = Some docs ->
  docs_of s' self = Some docs.
Proof. intros (Hc & _) Hd. unfold docs_of in *. by rewrite Hc. Qed.

(** C3, as amended: [setAttributes] throws a [TypeError] when its argument
    is not an array of objects and an [Error] when the length of the array
    is not the number of documents, and in both cases leaves the state as
    it was; otherwise it returns the Corpus, writes nothing but the
    [attributes] of its documents, and leaves in the [attributes] of the
    document at index [i] the element [i] of the array, for every index
    [i] whose document does not occur again at a later index (for every
    index when the documents are distinct objects). *)
Theorem C3_setAttributes (s : state) (self : loc) (docs : list value)
    (arr : value) :
  shaped s = true ->
  docs_of s self = Some docs ->
  let r := corpus.setAttributes self arr s in
  (isObjectArray arr = false ->
   r = (Throw (TypeError "Input argument has to be an object array."), s))
  /\ (isObjectArray arr = true ->
      length (elements arr) <> length docs ->
      r = (Throw (Error "Length of object array has to equal the number of documents in the corpus."), s))
  /\ (isObjectArray arr = true ->
      length (elements arr) = length docs ->
      fst r = Normal (VCorpus self)
      /\ only_written "attributes" self s (snd r)
      /\ forall i d a,
           docs !! i = Some d -> elements arr !! i = Some a ->
           (forall j, i < j -> docs !! j <> Some d) ->
           prop_of (snd r) d "attributes" = Some a).
Proof.
  intros Hs Hd r. subst r. unfold corpus.setAttributes.
  split; [by intros ->|].
  split.
  - intros -> Hlen. simpl.
    rewrite (bind_normal _ _ _ _ _ (nDocs_Some _ _ _ Hd)).
    by destruct (Nat.eqb_spec (length (elements arr)) (length docs)).
  - intros -> Hlen. simpl.
    rewrite (bind_normal _ _ _ _ _ (nDocs_Some _ _ _ Hd)).
    rewrite Hlen, Nat.eqb_refl. simpl.
    set (I := fun (k : nat) (s' : state) =>
      only_written "attributes" self s s'
      /\ forall i d a, i < k ->
           docs !! i = Some d -> elements arr !! i = Some a ->
           (forall j, i < j < k -> docs !! j <> Some d) ->
           prop_of s' d "attributes" = Some a).
    destruct (for_upto_run I
      (fun i => let* doc := document_at self i in
                set_prop doc "attributes"
                  (default VUndefined (elements arr !! i)))
      (length docs) 0 s) as (s' & Hrun & Hfr & Hattr).
    { split; [apply only_written_refl|]. intros; lia. }
    { intros j s1 Hj [Hfr Hattr]. simpl in Hj.
      pose proof (only_written_docs _ _ _ _ _ Hfr Hd) as Hd1.
      destruct (lookup_lt_is_Some_2 docs j) as [d Hdj]; [lia|].
      destruct (has_shape_inv _ _ (shaped_lookup _ _ _ _ _ Hs Hd Hdj))
        as (l & o & t & a & -> & Ho & _).
      destruct Hfr as (Hc & Hl & Hobj).
      destruct (Hobj l o Ho) as (o' & Ho' & _).
      eexists. split.
      - rewrite (bind_normal _ _ _ _ _ (document_at_Some _ _ _ j Hd1)).
        rewrite Hdj. simpl. by apply set_prop_run.
      - split.
        + eapply only_written_set; eauto. by repeat split.
        + intros i d0 a0 Hi Hdi Hai Hlater.
          destruct (decide (i = j)) as [->|Hne].
          * assert (d0 = VObj l) as -> by congruence.
            simpl. rewrite list_lookup_insert_eq; [|by eapply lookup_lt_Some].
            simpl. rewrite lookup_insert_eq. by rewrite Hai.
          * assert (prop_of s1 d0 "attributes" = Some a0) as Hprev.
            { apply (Hattr i); [lia|done|done|]. intros j' Hj'.
              apply Hlater. lia. }
            destruct d0; try done. simpl.
            rewrite list_lookup_insert_ne; [done|].
            intros <-. apply (Hlater j); [lia|done]. }
    rewrite (bind_normal _ _ _ _ _ Hrun).
    simpl. split; [done|]. split; [done|].
    intros i d a Hi Ha Hlater. apply (Hattr i); try done.
    + simpl. by eapply lookup_lt_Some.
    + intros j Hj. apply Hlater. lia.
Qed.

Lemma C3_setAttributes_witness :
  prop_of (snd (corpus.setAttributes 0 (VArr [VObj 3; VObj 1]) two_documents))
    (VObj 0) "attributes" = Some (VObj 3).
Proof.
  refine (proj2 (proj2 (proj2 (proj2
    (C3_setAttributes two_documents 0 [VObj 0; VObj 2]
       (VArr [VObj 3; VObj 1]) eq_refl eq_refl)) eq_refl eq_refl))
    0 (VObj 0) (VObj 3) eq_refl eq_refl _).
  intros [|[|[|j]]] Hj; (lia || discriminate).
Defined.

(** C3, as stated, fails on a Corpus that holds the same Document at two
    indices: [setAttributes( [ { k: 1 }, { k: 2 } ] )] succeeds and
    [documents[ 0 ].attributes] is the second element, not the first. *)
Lemma C3_last_index_wins :
  let r := corpus.setAttributes 0 (VArr [VObj 2; VObj 3]) same_document_twice in
  fst r = Normal (VCorpus 0)
  /\ docs_of (snd r) 0 = Some [VObj 0; VObj 0]
  /\ prop_of (snd r) (VObj 0) "attributes" = Some (VObj 3)
  /\ prop_of (snd r) (VObj 0) "attributes" <> Some (VObj 2).
Proof. vm_compute. repeat split. discriminate. Qed.

(** C1: at [new Corpus( [ "abc" ] ).map( f )] with [f] appending an
    exclamation mark, [map] returns a new instance, and the text of the
    document of the receiver, ["abc"] before the call, is ["abc!"] after
    it: the new instance holds the very document of the receiver. *)
Lemma C1_map_rewrites_receiver :
  let r := corpus.map 0 exclaim one_document in
  docs_of one_document 0 = Some [VObj 0]
  /\ prop_of one_document (VObj 0) "text" = Some (VStr (str "abc"))
  /\ fst r = Normal (VCorpus 1)
  /\ docs_of (snd r) 0 = Some [VObj 0]
  /\ prop_of (snd r) (VObj 0) "text" = Some (VStr (str "abc!"))
  /\ docs_of (snd r) 1 = Some [VObj 0].
Proof. vm_compute. repeat split. Qed.

Lemma hoare_true {A} (m : M A) :
  hoare (fun _ => True) m (fun _ _ => True) (fun _ => True).
Proof. intros s _. by destruct (m s) as [[a|e|] s']. Qed.

Lemma hoare_fst {A} (m : M A) (Q : A -> Prop) s :
  hoare (fun _ => True) m (fun a _ => Q a) (fun _ => True) ->
  match fst (m s) with Normal a => Q a | _ => True end.
Proof. intros Hm. specialize (Hm s I). by destruct (m s) as [[a|e|] s']. Qed.

(** C2: whatever they are given, [addDoc] and [addDocs] return [undefined]
    when they return; they never return the Corpus. *)
Theorem C2_addDoc_returns_undefined (self : loc) (v : value) (s : state) :
  match fst (corpus.addDoc self v s) with
  | Normal r => r = VUndefined
  | _ => True
  end
  /\ match fst (corpus.addDocs self v s) with
     | Normal r => r = VUndefined
     | _ => True
     end.
Proof.
  split.
  - apply (hoare_fst _ (fun r => r = VUndefined)).
    unfold corpus.addDoc. destruct (isString v).
    + eapply hoare_bind; [apply hoare_true|]. intros d.
      eapply hoare_bind; [apply hoare_true|]. intros ?. by apply hoare_ret.
    + eapply hoare_bind; [apply hoare_true|]. intros [].
      * eapply hoare_bind; [apply hoare_true|]. intros ?. by apply hoare_ret.
      * by apply hoare_throw.
  - apply (hoare_fst _ (fun r => r = VUndefined)).
    unfold corpus.addDocs. destruct (isStringArray v).
    + eapply hoare_bind; [apply hoare_true|]. intros d.
      eapply hoare_bind; [apply hoare_true|]. intros ?.
      eapply hoare_bind; [apply hoare_true|]. intros ?. by apply hoare_ret.
    + eapply hoare_bind; [apply hoare_true|]. intros [].
      * eapply hoare_bind; [apply hoare_true|]. intros ?.
        eapply hoare_bind; [apply hoare_true|]. intros ?. by apply hoare_ret.
      * by apply hoare_throw.
Qed.

(** ** Patterns of literal words *)

Lemma literal_char c :
  is_syntax_char c = false ->
  (c =? 92)%N = false /\ (c =? 46)%N = false /\ (c =? 124)%N = false
  /\ (c =? 63)%N = false.
Proof.
  intros Hc. repeat split.
  all: match goal with |- (?x =? ?n)%N = false =>
         destruct (N.eqb_spec x n) as [->|]; [discriminate Hc|done] end.
Qed.

Lemma parse_terms_literal w rest cur alts :
  literal w = true ->
  parse_terms (w ++ rest) cur alts
  = parse_terms rest (reverse (Char <$> w) ++ cur) alts.
Proof.
  revert cur. induction w as [|c w IH]; intros cur Hw; [done|].
  simpl in Hw. apply andb_prop in Hw as [Hc%negb_true_iff Hw].
  destruct (literal_char c Hc) as (H1 & H2 & H3 & H4).
  simpl. rewrite H1, H2, H3, H4, Hc.
  rewrite (IH _ Hw). rewrite reverse_cons. by rewrite <- app_assoc.
Qed.

Lemma RegExp_literal w :
  literal w = true ->
  RegExp (str "\b" ++ w ++ str "\b") = Some (word_pattern w).
Proof.
  intros Hw. unfold RegExp.
  change (str "\b" ++ w ++ str "\b") with (92%N :: 98%N :: w ++ [92%N; 98%N]).
  cbn [parse_terms N.eqb Pos.eqb].
  rewrite (parse_terms_literal w _ _ _ Hw). simpl.
  rewrite reverse_cons, reverse_app, reverse_involutive. simpl.
  unfold word_pattern, seq_of. simpl. f_equal. f_equal.
  by rewrite foldr_app.
Qed.

Section word_patterns.
Context `{Host}.

Lemma matches_chars ic w R prev s n k :
  matches ic (foldr Seq R (Char <$> w)) prev s n k
  = if starts_with ic w s then
      matches ic R (from_option Some prev (last (take (length w) s)))
        (drop (length w) s) (n + length w) k
    else None.
Proof.
  revert prev s n. induction w as [|a w IH]; intros prev s n; simpl.
  { by rewrite Nat.add_0_r. }
  destruct s as [|b s]; [done|]. simpl.
  destruct (same_char ic a b); [|done]. simpl.
  rewrite IH. rewrite last_cons.
  replace (S n + length w) with (n + S (length w)) by lia.
  by destruct (last (take (length w) s)).
Qed.

Lemma match_at_word ic w prev s :
  match_at ic (word_pattern w) prev s
  = if whole_word_at ic w prev s then Some (length w) else None.
Proof.
  unfold match_at, word_pattern, whole_word_at. simpl.
  destruct (is_boundary prev (head s)); [|done]. simpl.
  rewrite matches_chars.
  destruct (starts_with ic w s); [|done]. simpl.
  by destruct (is_boundary _ _).
Qed.

(** Replacing the matches of the pattern of a literal word by nothing
    removes the whole-word occurrences of the word. *)
Lemma replace_from_word ic w prev s skip :
  replace_from ic (word_pattern w) [] prev s skip
  = remove_from ic w prev s skip.
Proof.
  revert prev skip. induction s as [|x s IH]; intros prev skip.
  - destruct skip; simpl; [|done].
    by destruct (match_at ic (word_pattern w) prev []) as [[|k]|].
  - destruct skip as [|k]; [|apply IH].
    cbn [replace_from remove_from]. rewrite match_at_word.
    destruct (whole_word_at ic w prev (x :: s)).
    + destruct (length w); simpl; by rewrite IH.
    + by rewrite IH.
Qed.

Lemma replace_all_word ic w s :
  replace_all ic (word_pattern w) [] s = remove_word ic w s.
Proof. apply replace_from_word. Qed.

End word_patterns.

(** ** [_.clean] is idempotent *)

Lemma trim_right_cons c t :
  trim_right (c :: t)
  = match trim_right t with
    | [] => if is_whitespace c then [] else [c]
    | _ :: _ => c :: trim_right t
    end.
Proof. simpl. by destruct (trim_right t). Qed.

Lemma trim_right_idem x : trim_right (trim_right x) = trim_right x.
Proof.
  induction x as [|c x IH]; [done|].
  rewrite trim_right_cons. destruct (trim_right x) as [|d t] eqn:Ht.
  - destruct (is_whitespace c) eqn:Hc; [done|]. simpl. by rewrite Hc.
  - rewrite trim_right_cons, IH. done.
Qed.

Lemma trim_right_fix c t :
  trim_right (c :: t) = c :: t ->
  trim_right t = t /\ (t = [] -> is_whitespace c = false).
Proof.
  rewrite trim_right_cons. destruct (trim_right t) as [|d t'] eqn:Ht.
  - destruct (is_whitespace c); [done|]. intros [= <-]. done.
  - intros [= <-]. done.
Qed.

Lemma collapse_tidy t :
  trim_right t = t ->
  tidy false (collapse false t) = true
  /\ tidy false (collapse true t) = true
  /\ (t <> [] -> tidy true (collapse true t) = true).
Proof.
  induction t as [|c t IH]; intros Ht; [done|].
  destruct (trim_right_fix c t Ht) as [Ht' Hc].
  destruct (IH Ht') as (IH1 & IH2 & IH3). simpl.
  destruct (is_whitespace c) eqn:Hws.
  - assert (t <> []) as Hne by (intros ->; by specialize (Hc eq_refl)).
    simpl. rewrite (IH3 Hne). auto.
  - simpl. rewrite Hws. auto.
Qed.

Lemma tidy_collapse b u : tidy b u = true -> collapse b u = u.
Proof.
  revert b. induction u as [|c u IH]; intros b; [done|]. simpl.
  destruct (is_whitespace c).
  - intros [[Hc Hb%negb_true_iff]%andb_prop Hu]%andb_prop. subst b.
    apply N.eqb_eq in Hc as ->. by rewrite (IH true Hu).
  - intros Hu. by rewrite (IH false Hu).
Qed.

Lemma tidy_trim_right b u : tidy b u = true -> trim_right u = u.
Proof.
  revert b. induction u as [|c u IH]; intros b; [done|].
  rewrite trim_right_cons. simpl. destruct (is_whitespace c).
  - intros [_ Hu]%andb_prop. rewrite (IH true Hu). by destruct u.
  - intros Hu. rewrite (IH false Hu). by destruct u.
Qed.

Lemma trim_left_no_lead s : no_lead (trim_left s).
Proof.
  induction s as [|c s IH]; [done|]. simpl.
  by destruct (is_whitespace c) eqn:Hc.
Qed.

Lemma trim_right_no_lead s : no_lead s -> no_lead (trim_right s).
Proof.
  destruct s as [|c s]; [done|]. rewrite trim_right_cons. simpl.
  intros Hc. destruct (trim_right s); [rewrite Hc|]; exact Hc.
Qed.

Lemma collapse_no_lead s : no_lead s -> no_lead (collapse false s).
Proof.
  destruct s as [|c s]; [done|]. simpl. intros Hc. rewrite Hc. exact Hc.
Qed.

Lemma no_lead_trim_left u : no_lead u -> trim_left u = u.
Proof. destruct u as [|c u]; [done|]. simpl. intros Hc. by rewrite Hc. Qed.

Lemma underscore_clean_idem s :
  underscore_clean (underscore_clean s) = underscore_clean s.
Proof.
  unfold underscore_clean at 1. unfold underscore_trim.
  assert (no_lead (underscore_clean s)) as Hlead.
  { apply collapse_no_lead, trim_right_no_lead, trim_left_no_lead. }
  assert (tidy false (underscore_clean s) = true) as Htidy.
  { apply collapse_tidy, trim_right_idem. }
  rewrite (no_lead_trim_left _ Hlead).
  rewrite (tidy_trim_right _ _ Htidy).
  by apply tidy_collapse.
Qed.

(** ** The words [_.clean] keeps *)

Lemma words_of_blank t : forallb is_whitespace t = true -> words_of t = [].
Proof.
  induction t as [|c t IH]; [done|]. cbn [forallb words_of].
  intros [Hc Ht]%andb_prop. rewrite Hc. by apply IH.
Qed.

Lemma words_of_nil t : words_of t = [] -> forallb is_whitespace t = true.
Proof.
  induction t as [|c t IH]; [done|]. cbn [forallb words_of].
  destruct (is_whitespace c); [by simpl|].
  destruct (from_option is_whitespace true (head t)); [done|].
  by destruct (words_of t).
Qed.

Lemma trim_right_blank t : forallb is_whitespace t = true -> trim_right t = [].
Proof.
  induction t as [|c t IH]; [done|]. cbn [forallb].
  intros [Hc Ht]%andb_prop. rewrite trim_right_cons, (IH Ht). by rewrite Hc.
Qed.

Lemma trim_right_nil t : trim_right t = [] -> forallb is_whitespace t = true.
Proof.
  induction t as [|c t IH]; [done|]. rewrite trim_right_cons. cbn [forallb].
  destruct (trim_right t) as [|d u]; [|done].
  destruct (is_whitespace c); [|done]. intros _. by apply IH.
Qed.

Lemma words_of_trim_left t : words_of (trim_left t) = words_of t.
Proof.
  induction t as [|c t IH]; [done|]. cbn [trim_left].
  destruct (is_whitespace c) eqn:Hc; [|done].
  cbn [words_of]. by rewrite Hc.
Qed.

Lemma collapse_cons b c u :
  collapse b (c :: u)
  = if is_whitespace c then
      if b then collapse true u else 32%N :: collapse true u
    else c :: collapse false u.
Proof. done. Qed.

(** What is left of [x] without its white space at the end and with its
    runs of white space collapsed: its words with single spaces, after
    one space when [x] starts with a run that counts. *)
Lemma collapse_words x : forall b,
  collapse b (trim_right x)
  = match words_of x with
    | [] => []
    | ws =>
        (if from_option is_whitespace false (head x) && negb b
         then [32%N] else []) ++ unwords ws
    end.
Proof.
  induction x as [|c x IH]; intros b; [done|].
  rewrite trim_right_cons. cbn [words_of head from_option].
  destruct (is_whitespace c) eqn:Hc.
  - destruct (trim_right x) as [|d u] eqn:Hu.
    + by rewrite (words_of_blank x (trim_right_nil x Hu)).
    + assert (words_of x <> []) as Hw.
      { intros Hw. apply words_of_nil, trim_right_blank in Hw. congruence. }
      rewrite collapse_cons, Hc, (IH true).
      destruct (words_of x) as [|w ws]; [done|].
      rewrite andb_false_r. by destruct b.
  - assert (match trim_right x with
            | [] => [c]
            | _ :: _ => c :: trim_right x
            end = c :: trim_right x) as -> by (by destruct (trim_right x)).
    rewrite collapse_cons, Hc, (IH false). cbn [andb].
    destruct x as [|c' x'].
    + done.
    + cbn [head from_option].
      remember (words_of (c' :: x')) as W eqn:HW.
      destruct (is_whitespace c') eqn:Hc'.
      * destruct W as [|w ws]; [done|]. done.
      * destruct W as [|w ws]; [|done].
        symmetry in HW. apply words_of_nil in HW. cbn [forallb] in HW.
        by rewrite Hc' in HW.
Qed.

(** [_.clean], as modelled, leaves the words of the text with one space
    between every two of them. *)
Lemma underscore_clean_words t : underscore_clean t = unwords (words_of t).
Proof.
  unfold underscore_clean, underscore_trim.
  rewrite collapse_words, words_of_trim_left.
  pose proof (trim_left_no_lead t) as Hlead.
  destruct (words_of t) as [|w ws]; [done|].
  destruct (trim_left t) as [|c u]; [done|].
  cbn [head from_option]. simpl in Hlead. by rewrite Hlead.
Qed.

(** ** Loops that rewrite the text of every document *)

Lemma with_text_run s l (o : object) t :
  heap s !! l = Some o ->
  set_prop (VObj l) "text" (VStr t) s = (Normal tt, with_text s l t).
Proof.
  intros Ho. rewrite (set_prop_run _ _ _ _ _ Ho). unfold with_text.
  by rewrite Ho.
Qed.

Lemma with_text_same s l (o : object) t :
  heap s !! l = Some o -> o !! "text" = Some (VStr t) -> with_text s l t = s.
Proof.
  intros Ho Ht. unfold with_text. rewrite Ho.
  rewrite (insert_id o "text" _ Ht).
  rewrite (list_insert_id (heap s) l o Ho). apply state_eta.
Qed.

Lemma with_text_twice s l t t' :
  with_text (with_text s l t) l t' = with_text s l t'.
Proof.
  unfold with_text. destruct (heap s !! l) as [o|] eqn:Ho; simpl.
  - rewrite list_lookup_insert_eq; [|by eapply lookup_lt_Some]. simpl.
    by rewrite list_insert_insert_eq, insert_insert_eq.
  - by rewrite Ho.
Qed.

Lemma with_text_docs s l t self :
  docs_of (with_text s l t) self = docs_of s self.
Proof. unfold with_text. by destruct (heap s !! l). Qed.

Lemma with_text_lookup s l (o : object) t :
  heap s !! l = Some o ->
  heap (with_text s l t) !! l = Some (<["text" := VStr t]> o).
Proof.
  intros Ho. unfold with_text. rewrite Ho. simpl.
  apply list_lookup_insert_eq. by eapply lookup_lt_Some.
Qed.

Lemma with_text_lookup_ne s l l' t :
  l <> l' -> heap (with_text s l t) !! l' = heap s !! l'.
Proof.
  intros Hne. unfold with_text. destruct (heap s !! l); [|done]. simpl.
  by apply list_lookup_insert_ne.
Qed.

Lemma has_text_inv s d :
  has_text s d = true ->
  exists l (o : object) t,
    d = VObj l /\ heap s !! l = Some o /\ o !! "text" = Some (VStr t).
Proof.
  unfold has_text. destruct d; simpl; try done.
  destruct (heap s !! l) as [o|] eqn:Ho; simpl; [|done].
  destruct (o !! "text") as [[]|] eqn:Ht; try done.
  intros _. by exists l, o, s0.
Qed.

Lemma prop_of_text_inv s d t :
  prop_of s d "text" = Some (VStr t) ->
  exists l (o : object),
    d = VObj l /\ heap s !! l = Some o /\ o !! "text" = Some (VStr t).
Proof.
  destruct d; simpl; try done.
  destruct (heap s !! l) as [o|] eqn:Ho; simpl; [|done].
  intros Ht. by exists l, o.
Qed.

Lemma visits_snoc d docs x :
  visits d (docs ++ [x])
  = visits d docs + (if same_object d x then 1 else 0).
Proof.
  unfold visits. rewrite List.filter_app, length_app. simpl.
  by destruct (same_object d x).
Qed.

Lemma same_object_true l l' : same_object (VObj l) (VObj l') = true <-> l = l'.
Proof. simpl. apply Nat.eqb_eq. Qed.

Lemma visits_pos d docs t s :
  d ∈ docs -> prop_of s d "text" = Some (VStr t) -> 0 < visits d docs.
Proof.
  intros Hin Ht. destruct (prop_of_text_inv _ _ _ Ht) as (l & o & -> & _).
  unfold visits. induction docs as [|x docs IH]; [by apply elem_of_nil in Hin|].
  apply elem_of_cons in Hin as [<-|Hin].
  - simpl. rewrite Nat.eqb_refl. simpl. lia.
  - specialize (IH Hin). cbn [List.filter].
    destruct (same_object (VObj l) x); simpl; lia.
Qed.

Section text_loop.
Variable f : jsstring -> jsstring.
Variable self : loc.
Variable docs : list value.
Variable body : nat -> M unit.
Variable s : state.
Hypothesis Hdocs : docs_of s self = Some docs.
Hypothesis Htexts : forallb (has_text s) docs = true.
Hypothesis Hbody :
  forall j l s1 (o : object) t,
    docs !! j = Some (VObj l) -> docs_of s1 self = Some docs ->
    heap s1 !! l = Some o -> o !! "text" = Some (VStr t) ->
    body j s1 = (Normal tt, with_text s1 l (f t)).

Lemma text_loop :
  exists s',
    for_nDocs self body s = (Normal tt, s')
    /\ only_text self s s'
    /\ forall d t, d ∈ docs -> prop_of s d "text" = Some (VStr t) ->
         prop_of s' d "text" = Some (VStr (Nat.iter (visits d docs) f t)).
Proof.
  set (I := fun (k : nat) (s1 : state) =>
    only_text self s s1
    /\ forall d t, d ∈ docs -> prop_of s d "text" = Some (VStr t) ->
         prop_of s1 d "text"
         = Some (VStr (Nat.iter (visits d (take k docs)) f t))).
  destruct (for_nDocs_run I self body (length docs) s)
    as (s' & Hrun & Hfr & Htext).
  - split; [apply only_written_refl|]. intros d t _ Ht. by rewrite take_0.
  - intros j s1 _ [Hfr _]. exists docs. split; [|done].
    by eapply only_written_docs.
  - intros j s1 Hj [Hfr Htext].
    pose proof (only_written_docs _ _ _ _ _ Hfr Hdocs) as Hd1.
    destruct (lookup_lt_is_Some_2 docs j Hj) as [dj Hdj].
    assert (has_text s dj = true) as Hdj_text.
    { rewrite forallb_forall in Htexts. apply Htexts.
      apply list_elem_of_In. by eapply list_elem_of_lookup_2. }
    destruct (has_text_inv _ _ Hdj_text) as (l & o0 & t0 & -> & Ho0 & Ht0).
    assert (prop_of s (VObj l) "text" = Some (VStr t0)) as Hp0.
    { simpl. rewrite Ho0. done. }
    pose proof (Htext (VObj l) t0 (list_elem_of_lookup_2 _ _ _ Hdj) Hp0) as Hp1.
    destruct (prop_of_text_inv _ _ _ Hp1) as (l1 & o1 & [= <-] & Ho1 & Ht1).
    exists (with_text s1 l (f (Nat.iter (visits (VObj l) (take j docs)) f t0))).
    split; [by eapply Hbody|]. split.
    + unfold with_text. rewrite Ho1. eapply only_written_set; eauto.
    + intros d t Hin Ht. rewrite (take_S_r _ _ _ Hdj), visits_snoc.
      specialize (Htext d t Hin Ht).
      destruct (prop_of_text_inv _ _ _ Ht) as (l' & o' & -> & Ho' & Ht').
      destruct (decide (l' = l)) as [->|Hne].
      * assert (t = t0) as -> by congruence.
        simpl. rewrite Nat.eqb_refl.
        rewrite (with_text_lookup _ _ _ _ Ho1). simpl.
        rewrite lookup_insert_eq. by rewrite Nat.add_1_r.
      * simpl. rewrite with_text_lookup_ne; [|done].
        destruct (Nat.eqb_spec l' l); [done|].
        rewrite Nat.add_0_r. exact Htext.
  - exists s'. split; [done|]. split; [done|].
    intros d t Hin Ht. rewrite (Htext d t Hin Ht). by rewrite take_ge.
Qed.

End text_loop.

Lemma apply_text (f : jsstring -> jsstring) (prim : value -> completion value)
    self docs s :
  (forall t, prim (VStr t) = Normal (VStr (f t))) ->
  docs_of s self = Some docs ->
  forallb (has_text s) docs = true ->
  exists s',
    corpus.apply self (fun text _ _ => prim text) s = (Normal (VCorpus self), s')
    /\ only_text self s s'
    /\ forall d t, d ∈ docs -> prop_of s d "text" = Some (VStr t) ->
         prop_of s' d "text" = Some (VStr (Nat.iter (visits d docs) f t)).
Proof.
  intros Hprim Hd Ht. unfold corpus.apply.
  edestruct (text_loop f self docs) as (s' & Hrun & Hrest); [exact Hd|exact Ht| |].
  2:{ exists s'. split; [|exact Hrest].
      by rewrite (bind_normal _ _ _ _ _ Hrun). }
  intros j l s1 o t Hj Hd1 Ho Hto. simpl.
  rewrite (bind_normal _ _ _ _ _ (document_at_Some _ _ _ j Hd1)).
  rewrite Hj. simpl.
  rewrite (bind_normal _ _ _ _ _ (get_prop_obj _ _ _ "text" Ho)).
  rewrite (bind_normal _ _ _ _ _ (get_prop_obj _ _ _ "attributes" Ho)).
  rewrite Hto. simpl. rewrite Hprim. unfold lift at 1, bind at 1.
  erewrite bind_normal; [|exact (with_text_run _ _ _ (f t) Ho)].
  eapply set_document_at_same; [|exact Hj].
  by rewrite with_text_docs.
Qed.

Lemma iter_idempotent {A} (f : A -> A) n x :
  (forall y, f (f y) = f y) -> 0 < n -> Nat.iter n f x = f x.
Proof.
  intros Hf Hn. destruct n as [|n]; [lia|]. clear Hn.
  induction n as [|n IH]; [done|]. simpl in *. by rewrite IH.
Qed.

Lemma only_written_trans w self s s1 s2 :
  only_written w self s s1 -> only_written w self s1 s2 ->
  only_written w self s s2.
Proof.
  intros (Hc1 & Hl1 & Ho1) (Hc2 & Hl2 & Ho2).
  split; [congruence|]. split; [congruence|].
  intros l o Ho. destruct (Ho1 l o Ho) as (o1 & Hs1 & Hp1 & Hor1).
  destruct (Ho2 l o1 Hs1) as (o2 & Hs2 & Hp2 & Hor2).
  exists o2. split; [done|]. split.
  - intros p Hp. rewrite Hp2, Hp1; done.
  - destruct Hor2 as [->|(docs & Hd & Hin)]; [done|].
    right. exists docs. split; [|done]. unfold docs_of in *. by rewrite <- Hc1.
Qed.

Section removeWords.
Context `{Host}.

Lemma remove_words_snoc ic words w t :
  remove_words ic (words ++ [w]) t = remove_word ic w (remove_words ic words t).
Proof. unfold remove_words. by rewrite foldl_app. Qed.

(** The loop over the words, on one document. *)
Lemma removeWords_words case_insensitive words self docs doc l s1
    (o : object) t :
  forallb literal words = true ->
  docs !! doc = Some (VObj l) -> docs_of s1 self = Some docs ->
  heap s1 !! l = Some o -> o !! "text" = Some (VStr t) ->
  corpus.for_upto (length words) 0 (fun i =>
    let options := truthy case_insensitive in
    match RegExp (str "\b" ++ default [] (words !! i) ++ str "\b") with
    | Some myRegExp =>
        let* d := document_at self doc in
        let* text := get_prop d "text" in
        let* r := lift (String_replace options myRegExp [] text) in
        set_prop d "text" r
    | None => stuck
    end) s1
  = (Normal tt,
     with_text s1 l (remove_words (truthy case_insensitive) words t)).
Proof.
  intros Hlit Hdoc Hd Ho Ht.
  set (I := fun (k : nat) (s2 : state) =>
    s2 = with_text s1 l
           (remove_words (truthy case_insensitive) (take k words) t)).
  edestruct (for_upto_run I) as (s' & Hrun & ->).
  3:{ rewrite Hrun. simpl. by rewrite take_ge. }
  - unfold I. rewrite take_0. simpl. symmetry. by eapply with_text_same.
  - intros k s2 Hk ->. simpl in Hk.
    destruct (lookup_lt_is_Some_2 words k) as [w Hw]; [lia|].
    rewrite Hw. change (default [] (Some w)) with w.
    assert (literal w = true) as Hlw.
    { rewrite forallb_forall in Hlit. apply Hlit.
      apply list_elem_of_In. by eapply list_elem_of_lookup_2. }
    rewrite (RegExp_literal w Hlw).
    eexists. split.
    + erewrite bind_normal;
        [|apply document_at_Some; by rewrite with_text_docs].
      rewrite Hdoc. simpl.
      erewrite bind_normal;
        [|apply get_prop_obj; by apply with_text_lookup].
      rewrite lookup_insert_eq. simpl.
      unfold lift at 1, bind at 1.
      eapply with_text_run. eapply with_text_lookup. exact Ho.
    + unfold I. rewrite with_text_twice.
      rewrite (take_S_r _ _ _ Hw), remove_words_snoc.
      by rewrite replace_all_word.
Qed.

Lemma removeWords_run case_insensitive words self docs s :
  docs_of s self = Some docs ->
  forallb (has_text s) docs = true ->
  forallb literal words = true ->
  exists s',
    corpus.removeWords self words case_insensitive s = (Normal (VCorpus self), s')
    /\ only_text self s s'
    /\ forall d t, d ∈ docs -> prop_of s d "text" = Some (VStr t) ->
         prop_of s' d "text"
         = Some (VStr (underscore_clean
                         (Nat.iter (visits d docs)
                            (remove_words (truthy case_insensitive) words) t))).
Proof.
  intros Hd Ht Hlit. unfold corpus.removeWords.
  edestruct (text_loop (remove_words (truthy case_insensitive) words)
               self docs) as (s1 & Hrun1 & Hfr1 & Htext1);
    [exact Hd|exact Ht| |].
  { intros j l s1 o t Hj Hd1 Ho Hto.
    by eapply removeWords_words. }
  rewrite (bind_normal _ _ _ _ _ Hrun1).
  pose proof (only_written_docs _ _ _ _ _ Hfr1 Hd) as Hd1.
  assert (forallb (has_text s1) docs = true) as Ht1.
  { rewrite forallb_forall. intros d Hin%list_elem_of_In.
    rewrite forallb_forall in Ht.
    pose proof (Ht d (proj1 (list_elem_of_In _ _) Hin)) as Hdt.
    destruct (has_text_inv _ _ Hdt) as (l & o & t & -> & Ho & Hto).
    unfold has_text. erewrite Htext1; [done|done|].
    simpl. by rewrite Ho. }
  destruct (apply_text underscore_clean (external underscore_clean)
              self docs s1) as (s2 & Hrun2 & Hfr2 & Htext2);
    [done|done|done|].
  unfold corpus.clean.
  rewrite (bind_normal _ _ _ _ _ (bind_normal _ _ _ _ _ Hrun2)).
  exists s2. split; [done|]. split; [by eapply only_written_trans|].
  intros d t Hin Hdt.
  rewrite (Htext2 d _ Hin (Htext1 d t Hin Hdt)).
  rewrite iter_idempotent; [done|apply underscore_clean_idem|].
  by eapply visits_pos.
Qed.

End removeWords.

Section removeWords_properties.
Context `{Host}.

(** C8, as amended: on the Corpus of the single document ["The quick fox
    jumps"], [removeWords( [ "quick" ], false )] followed by [clean()]
    leaves the text ["The fox jumps"]; and for words without a character
    that has a meaning in a pattern, on a Corpus whose texts are strings,
    [removeWords] returns the Corpus, writes nothing but the text of its
    documents, and leaves in every document its text with the whole-word
    occurrences of each listed word removed in turn (up to case exactly
    when the second argument is truthy; once per index at which the Corpus
    holds the document) and then cleaned of its extra white space. *)
Theorem C8_removeWords :
  (let r := corpus.removeWords 0 [str "quick"] (VBool false) quick_fox in
   let r' := corpus.clean 0 (snd r) in
   fst r = Normal (VCorpus 0)
   /\ fst r' = Normal (VCorpus 0)
   /\ docs_of (snd r') 0 = Some [VObj 0]
   /\ prop_of (snd r') (VObj 0) "text" = Some (VStr (str "The fox jumps")))
  /\ forall (s : state) (self : loc) (docs : list value)
       (words : list jsstring) (case_insensitive : value),
       docs_of s self = Some docs ->
       forallb (has_text s) docs = true ->
       forallb literal words = true ->
       let r := corpus.removeWords self words case_insensitive s in
       let removed := remove_words (truthy case_insensitive) words in
       fst r = Normal (VCorpus self)
       /\ only_text self s (snd r)
       /\ forall d t, d ∈ docs -> prop_of s d "text" = Some (VStr t) ->
            prop_of (snd r) d "text"
            = Some (VStr (underscore_clean
                            (Nat.iter (visits d docs) removed t)))
            /\ (visits d docs = 1 ->
                prop_of (snd r) d "text"
                = Some (VStr (underscore_clean (removed t)))).
Proof.
  split.
  - vm_compute. repeat split.
  - intros s self docs words ci Hd Ht Hlit r removed.
    destruct (removeWords_run ci words self docs s Hd Ht Hlit)
      as (s' & Hrun & Hfr & Htext).
    subst r. rewrite Hrun. simpl. split; [done|]. split; [done|].
    intros d t Hin Hdt. split; [by apply Htext|].
    intros Hone. rewrite (Htext d t Hin Hdt). by rewrite Hone.
Qed.

(** C10: on a Corpus whose texts are strings, [removeWords] with no word
    does what [clean] does: it returns the Corpus, writes nothing but the
    text of its documents, and leaves of every text its words (the runs
    of code units that are not white space), in their order, with one
    space between every two of them: every run of white space between
    words has become one space, and the white space before the first
    word and after the last is gone.  It is not the identity: it changes
    the state whenever a text is not already of that form. *)
Theorem C10_removeWords_no_words (s : state) (self : loc)
    (docs : list value) (case_insensitive : value) :
  docs_of s self = Some docs ->
  forallb (has_text s) docs = true ->
  let r := corpus.removeWords self [] case_insensitive s in
  r = corpus.clean self s
  /\ fst r = Normal (VCorpus self)
  /\ only_text self s (snd r)
  /\ (forall d t, d ∈ docs -> prop_of s d "text" = Some (VStr t) ->
        prop_of (snd r) d "text" = Some (VStr (unwords (words_of t))))
  /\ (forall d t, d ∈ docs -> prop_of s d "text" = Some (VStr t) ->
        unwords (words_of t) <> t -> snd r <> s).
Proof.
  intros Hd Ht r.
  assert (r = corpus.clean self s) as Hclean.
  { subst r. unfold corpus.removeWords.
    erewrite bind_normal.
    2:{ eapply for_nDocs_unchanged; [exact Hd|]. by intros j _. }
    unfold corpus.clean.
    destruct (apply_text underscore_clean (external underscore_clean)
                self docs s) as (s2 & Hrun2 & _); [done|done|done|].
    by rewrite !(bind_normal _ _ _ _ _ (bind_normal _ _ _ _ _ Hrun2)),
               !(bind_normal _ _ _ _ _ Hrun2). }
  split; [done|].
  destruct (removeWords_run case_insensitive [] self docs s Hd Ht eq_refl)
    as (s' & Hrun & Hfr & Htext).
  assert (forall d t, d ∈ docs -> prop_of s d "text" = Some (VStr t) ->
            prop_of s' d "text" = Some (VStr (unwords (words_of t))))
    as Hwords.
  { intros d t Hin Hdt. rewrite (Htext d t Hin Hdt).
    rewrite <- underscore_clean_words. f_equal. f_equal. f_equal.
    generalize (visits d docs). intros n. by induction n. }
  subst r. rewrite Hrun. simpl. split; [done|]. split; [done|]. split.
  - exact Hwords.
  - intros d t Hin Hdt Hne Heq. subst s'.
    rewrite (Hwords d t Hin Hdt) in Hdt. by injection Hdt.
Qed.

End removeWords_properties.

Lemma C8_removeWords_witness :
  fst (@corpus.removeWords sample_host 0 [str "quick"] (VBool false) quick_fox)
  = Normal (VCorpus 0).
Proof.
  exact (proj1 (proj2 (@C8_removeWords sample_host) quick_fox 0 [VObj 0]
                  [str "quick"] (VBool false) eq_refl eq_refl eq_refl)).
Defined.

(** C8, as stated, fails for a word with a character that has a meaning in
    a pattern: the text ["ab?c"] holds a whole-word occurrence of the word
    ["ab?c"], and [removeWords( [ "ab?c" ], false )] leaves it there. *)
Lemma C8_question_mark_kept :
  let r := @corpus.removeWords sample_host 0 [str "ab?c"] (VBool false)
             question_mark in
  prop_of question_mark (VObj 0) "text" = Some (VStr (str "ab?c"))
  /\ @whole_word_at sample_host false (str "ab?c") None (str "ab?c") = true
  /\ fst r = Normal (VCorpus 0)
  /\ prop_of (snd r) (VObj 0) "text" = Some (VStr (str "ab?c"))
  /\ prop_of (snd r) (VObj 0) "text"
     <> Some (VStr (underscore_clean
                      (@remove_word sample_host false (str "ab?c") (str "ab?c")))).
Proof. vm_compute. repeat split. discriminate. Qed.

Lemma C10_removeWords_no_words_witness :
  prop_of (snd (@corpus.removeWords sample_host 0 [] (VBool false) spaced))
    (VObj 0) "text"
  = Some (VStr (str "a b"))
  /\ snd (@corpus.removeWords sample_host 0 [] (VBool false) spaced) <> spaced.
Proof.
  pose proof (@C10_removeWords_no_words sample_host spaced 0 [VObj 0]
                (VBool false) eq_refl eq_refl)
    as (_ & _ & _ & Hwords & Hchanged).
  split.
  - exact (Hwords (VObj 0) (str "  a   b ") (list_elem_of_here _ _) eq_refl).
  - apply (Hchanged (VObj 0) (str "  a   b ") (list_elem_of_here _ _) eq_refl).
    discriminate.
Defined.

(** ** The invariants of the reachable states *)

Lemma has_shape_props s v :
  has_shape s v = true <->
  (exists t a, prop_of s v "text" = Some t
               /\ prop_of s v "attributes" = Some a)
  /\ prop_of s v "hasOwnProperty" = None.
Proof.
  unfold has_shape, shadows.
  rewrite !andb_true_iff, negb_true_iff, !bool_decide_eq_true,
          bool_decide_eq_false, <- eq_None_not_Some.
  unfold is_Some. split.
  - intros [[[t Ht] [a Ha]] Hown]. split; [|done]. by exists t, a.
  - intros [(t & a & Ht & Ha) Hown]. split; [|done]. split; by eexists.
Qed.

Lemma typed_doc_props s v :
  typed_doc s v = true <->
  exists t a, prop_of s v "text" = Some (VStr t)
              /\ prop_of s v "attributes" = Some a /\ isObject a = true.
Proof.
  unfold typed_doc. split.
  - destruct (prop_of s v "text") as [[]|]; try done.
    destruct (prop_of s v "attributes") as [a|]; [|done]. eauto.
  - intros (t & a & -> & -> & Ha). done.
Qed.

(** A document stays in order when its properties stay, or are written
    with values of the right kinds. *)
Lemma doc_ok_keep strict s s' v :
  (forall p x, prop_of s v p = Some x ->
     prop_of s' v p = Some x
     \/ (p = "text" /\ exists x', prop_of s' v p = Some x'
                        /\ (strict = true -> isString x' = true))
     \/ (p = "attributes" /\ exists x', prop_of s' v p = Some x'
                        /\ (strict = true -> isObject x' = true))) ->
  (is_Some (prop_of s v "text") -> prop_of s v "hasOwnProperty" = None ->
   prop_of s' v "hasOwnProperty" = None) ->
  doc_ok strict s v = true -> doc_ok strict s' v = true.
Proof.
  intros Hkeep Hown. destruct strict; simpl.
  - rewrite !typed_doc_props. intros (t & a & Ht & Ha & Hobj).
    destruct (Hkeep _ _ Ht) as [Ht'|[(_ & x' & Ht' & Hx')|(? & _)]]; [| |done];
    destruct (Hkeep _ _ Ha) as [Ha'|[(? & _)|(_ & y' & Ha' & Hy')]];
      try done.
    + eauto.
    + exists t, y'. auto.
    + destruct x'; try (by specialize (Hx' eq_refl)). eauto.
    + destruct x'; try (by specialize (Hx' eq_refl)). exists s0, y'. auto.
  - rewrite !has_shape_props. intros [(t & a & Ht & Ha) Hno].
    split; [|apply Hown; [by eexists|done]].
    destruct (Hkeep _ _ Ht) as [Ht'|[(_ & x' & Ht' & _)|(? & _)]]; [| |done];
    destruct (Hkeep _ _ Ha) as [Ha'|[(? & _)|(_ & y' & Ha' & _)]];
      try done; eauto.
Qed.


Lemma doc_ok_write strict s l (o : object) w x c v :
  heap s !! l = Some o ->
  (w = "text" /\ (strict = true -> isString x = true))
  \/ (w = "attributes" /\ (strict = true -> isObject x = true)) ->
  doc_ok strict s v = true ->
  doc_ok strict (State (<[l := <[w := x]> o]> (heap s)) c) v = true.
Proof.
  intros Ho Hw. apply doc_ok_keep.
  - intros p y Hp.
    destruct v as [| | | | | |l'|]; simpl in *; try done.
    destruct (decide (l' = l)) as [->|Hne].
    + rewrite Ho in Hp. simpl in Hp.
      rewrite list_lookup_insert_eq; [|by eapply lookup_lt_Some]. simpl.
      destruct (decide (p = w)) as [->|Hpw].
      * rewrite lookup_insert_eq. right.
        destruct Hw as [[-> Hx]|[-> Hx]]; [left|right]; eauto.
      * left. by rewrite lookup_insert_ne.
    + left. by rewrite list_lookup_insert_ne.
  - intros _ Hno.
    destruct v as [| | | | | |l'|]; simpl in *; try done.
    destruct (decide (l' = l)) as [->|Hne].
    + rewrite Ho in Hno. simpl in Hno.
      rewrite list_lookup_insert_eq; [|by eapply lookup_lt_Some]. simpl.
      rewrite lookup_insert_ne; [done|]. destruct Hw as [[-> _]|[-> _]]; done.
    + by rewrite list_lookup_insert_ne.
Qed.

Lemma docs_ok_heap strict s s' :
  corpora s' = corpora s ->
  (forall v, doc_ok strict s v = true -> doc_ok strict s' v = true) ->
  docs_ok strict s -> docs_ok strict s'.
Proof.
  intros Hc Hv Hok c docs d Hdocs Hin. rewrite Hc in Hdocs.
  apply Hv. by eapply Hok.
Qed.


Lemma docs_ok_docs strict s self docs d :
  docs_ok strict s -> docs_of s self = Some docs -> d ∈ docs ->
  doc_ok strict s d = true.
Proof. intros Hok Hd%docs_of_Some Hin. by eapply Hok. Qed.


Section invariants.
Variable strict : bool.








End invariants.


Lemma hoare_pre {A} (P P' : state -> Prop) (m : M A)
    (Q : A -> state -> Prop) (E : state -> Prop) :
  hoare P' m Q E -> (forall s, P s -> P' s) -> hoare P m Q E.
Proof. intros Hm HP. eapply hoare_conseq; eauto. Qed.


Lemma hoare_isDoc (P E : state -> Prop) v :
  (forall s, P s -> E s) ->
  hoare P (isDoc v)
    (fun b s => P s /\ (b = true -> has_shape s v = true)) E.
Proof.
  intros HE s HP. destruct v; try (by split).
  unfold isDoc, hasOwnProperty, bind, get_object. simpl.
  destruct (heap s !! l) as [o|] eqn:Ho; simpl; [|by apply HE].
  destruct (bool_decide (is_Some (o !! "hasOwnProperty"))) eqn:Hown; simpl;
    [by apply HE|].
  destruct (bool_decide (is_Some (o !! "text"))) eqn:Ht; simpl.
  - rewrite Ho. simpl. rewrite Hown. simpl. split; [done|]. intros Ha.
    unfold has_shape, shadows. simpl. rewrite Ho. simpl.
    by rewrite Ht, Ha, Hown.
  - by split.
Qed.

Lemma hoare_isDocArray_loop elts (P E : state -> Prop) :
  (forall s, P s -> E s) ->
  hoare P (isDocArray_loop elts)
    (fun b s => P s /\ (b = true ->
                        forall d, d ∈ elts -> has_shape s d = true)) E.
Proof.
  revert P. induction elts as [|v elts IH]; intros P HE; simpl.
  - apply hoare_ret. split; [done|]. by intros _ d ?%elem_of_nil.
  - eapply hoare_bind; [by apply hoare_isDoc|]. intros [|]; simpl.
    + eapply hoare_conseq.
      * apply (IH (fun s => P s /\ (true = true -> has_shape s v = true))).
        intros s [HP _]. by apply HE.
      * intros s Hs. exact Hs.
      * intros b s [[HP Hv] Helts]. split; [done|].
        intros Hb d [->|Hin]%elem_of_cons; auto.
      * done.
    + apply hoare_ret. intros s [HP _]. by split.
Qed.

Lemma hoare_isDocArray (P E : state -> Prop) val :
  (forall s, P s -> E s) ->
  hoare P (isDocArray val)
    (fun b s => P s /\ (b = true ->
                        forall d, d ∈ elements val -> has_shape s d = true)) E.
Proof.
  intros HE. unfold isDocArray. destruct (isArray val); simpl.
  - by apply hoare_isDocArray_loop.
  - apply hoare_ret. by split.
Qed.

Section invariants_of_methods.
Variable strict : bool.











End invariants_of_methods.

Section invariants_of_calls.
Context `{Host}.
Variable strict : bool.








End invariants_of_calls.



Section reachable_states.
Context `{Host}.


End reachable_states.



(** ** [addDoc] and [addDocs], case by case *)

Lemma isDoc_run s v :
  valid s v = true -> shadows s v = false ->
  isDoc v s = (Normal (has_shape s v), s).
Proof.
  intros Hv Hown. destruct v; try reflexivity.
  simpl in Hv. apply Nat.ltb_lt in Hv.
  destruct (lookup_lt_is_Some_2 _ _ Hv) as [o Ho].
  unfold shadows in Hown. simpl in Hown. rewrite Ho in Hown. simpl in Hown.
  unfold isDoc, hasOwnProperty, bind, get_object, has_shape, shadows. simpl.
  rewrite Ho. simpl. rewrite Hown. simpl.
  destruct (bool_decide (is_Some (o !! "text"))); simpl; [|done].
  rewrite Ho. simpl. rewrite Hown. simpl. by rewrite andb_true_r.
Qed.

Lemma isDoc_shadows s v :
  shadows s v = true ->
  isDoc v s
  = (Throw (TypeError "val.hasOwnProperty is not a function"), s).
Proof.
  unfold shadows. intros Hown%bool_decide_eq_true.
  destruct v; simpl in Hown; try (by destruct Hown).
  destruct (heap s !! l) as [o|] eqn:Ho; simpl in Hown; [|by destruct Hown].
  unfold isDoc, hasOwnProperty, bind, get_object. simpl. rewrite Ho. simpl.
  by rewrite (bool_decide_eq_true_2 _ Hown).
Qed.

Lemma has_shape_shadows s v : has_shape s v = true -> shadows s v = false.
Proof. unfold has_shape. intros [_ Hown]%andb_prop. by apply negb_true_iff. Qed.

Lemma shadows_not_string s v : shadows s v = true -> isString v = false.
Proof. unfold shadows. by destruct v. Qed.

Lemma isDocArray_loop_run s elts :
  forallb (valid s) elts = true ->
  forallb (fun v => negb (shadows s v)) elts = true ->
  isDocArray_loop elts s = (Normal (forallb (has_shape s) elts), s).
Proof.
  induction elts as [|v elts IH]; [done|]. simpl.
  intros [Hv Helts]%andb_prop [Hown Howns]%andb_prop.
  apply negb_true_iff in Hown.
  rewrite (bind_normal _ _ _ _ _ (isDoc_run _ _ Hv Hown)).
  destruct (has_shape s v); simpl; [by apply IH|done].
Qed.

Lemma isDocArray_run s docs :
  forallb (valid s) (elements docs) = true ->
  forallb (fun v => negb (shadows s v)) (elements docs) = true ->
  isDocArray docs s
  = (Normal (isArray docs && forallb (has_shape s) (elements docs)), s).
Proof.
  intros Hv Hown. unfold isDocArray. destruct (isArray docs); simpl; [|done].
  by apply isDocArray_loop_run.
Qed.

(** The loop of [isDocArray] looks at the elements in order and stops at
    the first that is no document. *)
Lemma isDocArray_loop_stops s pre v post :
  forallb (has_shape s) pre = true -> shadows s v = true ->
  isDocArray_loop (pre ++ v :: post) s
  = (Throw (TypeError "val.hasOwnProperty is not a function"), s).
Proof.
  intros Hpre Hown. induction pre as [|d pre IH]; simpl.
  - by rewrite (bind_throw _ _ _ _ _ (isDoc_shadows _ _ Hown)).
  - simpl in Hpre. apply andb_prop in Hpre as [Hd Hpre].
    rewrite (bind_normal _ _ _ _ _ (isDoc_shaped _ _ Hd)). simpl.
    by apply IH.
Qed.

Lemma has_shape_valid s v : has_shape s v = true -> valid s v = true.
Proof.
  intros Hs. destruct (has_shape_inv _ _ Hs) as (l & o & t & a & -> & Ho & _).
  simpl. apply Nat.ltb_lt. by eapply lookup_lt_Some.
Qed.

Lemma shaped_not_strings s elts :
  forallb (has_shape s) elts = true -> elts <> [] ->
  isStringArray (VArr elts) = false.
Proof.
  destruct elts as [|v elts]; [done|]. simpl.
  intros [Hv _]%andb_prop _. unfold isStringArray. simpl.
  by rewrite (has_shape_not_string _ _ Hv).
Qed.

Lemma addDoc_string s self docs t :
  docs_of s self = Some docs ->
  corpus.addDoc self (VStr t) s
  = (Normal VUndefined,
     State (heap s ++ [Document t (S (length (heap s))); ∅])
           (<[self := Some (docs ++ [VObj (length (heap s))])]> (corpora s))).
Proof.
  intros Hd. unfold corpus.addDoc. simpl.
  rewrite (bind_normal _ _ _ _ _ (Doc_string s t)).
  by rewrite (bind_normal _ _ _ _ _
                (push_Some (State (heap s ++ [Document t (S (length (heap s))); ∅])
                              (corpora s)) self docs (VObj (length (heap s))) Hd)).
Qed.

Lemma addDocs_strings s self docs texts :
  docs_of s self = Some docs ->
  corpus.addDocs self (VArr (VStr <$> texts)) s
  = (Normal VUndefined,
     State (heap s ++ documents_of texts (length (heap s)))
           (<[self := Some (docs ++ created texts (length (heap s)))]>
              (corpora s))).
Proof.
  intros Hd. unfold corpus.addDocs. rewrite isStringArray_strings.
  change (elements (VArr (VStr <$> texts))) with (VStr <$> texts).
  rewrite (bind_normal _ _ _ _ _ (wrap_strings texts s)).
  erewrite bind_normal; [|by apply get_documents_Some].
  unfold set_documents, bind. cbn [heap corpora].
  apply docs_of_Some in Hd. by rewrite Hd.
Qed.

(** X1: on an initialised instance, [addDoc] given a string makes a new
    Document of it (with empty attributes) and appends it; given an object
    that [isDoc] takes for a Document (it owns a [text] and an
    [attributes], and no [hasOwnProperty] of its own) it appends that very
    object and makes nothing; given an object that owns a
    [hasOwnProperty], which [isDoc] then calls, it throws the [TypeError]
    of calling what is no function; given anything else it throws its own
    [TypeError]; in both cases of a throw it leaves the state as it was.
    In the first two cases the number of documents grows by one and the
    documents there were stay in place. *)
Theorem X1_addDoc_cases (s : state) (self : loc) (docs : list value) :
  docs_of s self = Some docs ->
  let h := length (heap s) in
  (forall t,
     corpus.addDoc self (VStr t) s
     = (Normal VUndefined,
        State (heap s ++ [Document t (S h); ∅])
              (<[self := Some (docs ++ [VObj h])]> (corpora s))))
  /\ (forall doc,
        has_shape s doc = true ->
        corpus.addDoc self doc s
        = (Normal VUndefined,
           State (heap s) (<[self := Some (docs ++ [doc])]> (corpora s))))
  /\ (forall doc,
        shadows s doc = true ->
        corpus.addDoc self doc s
        = (Throw (TypeError "val.hasOwnProperty is not a function"), s))
  /\ (forall doc,
        isString doc = false -> has_shape s doc = false ->
        shadows s doc = false -> valid s doc = true ->
        corpus.addDoc self doc s
        = (Throw (TypeError "Argument has to be a string or document."), s)).
Proof.
  intros Hd h. split; [|split; [|split]].
  - intros t. by apply addDoc_string.
  - intros doc Hs. by apply addDoc_shaped.
  - intros doc Hown. unfold corpus.addDoc.
    rewrite (shadows_not_string _ _ Hown).
    by rewrite (bind_throw _ _ _ _ _ (isDoc_shadows _ _ Hown)).
  - intros doc Hstr Hs Hown Hv. unfold corpus.addDoc. rewrite Hstr.
    rewrite (bind_normal _ _ _ _ _ (isDoc_run _ _ Hv Hown)). by rewrite Hs.
Qed.

Lemma X1_addDoc_cases_witness :
  corpus.addDoc 0 (VNum 5) one_document
  = (Throw (TypeError "Argument has to be a string or document."),
     one_document)
  /\ corpus.addDoc 0 (VObj 2) shadowing
     = (Throw (TypeError "val.hasOwnProperty is not a function"), shadowing).
Proof.
  split.
  - exact (proj2 (proj2 (proj2 (X1_addDoc_cases one_document 0 [VObj 0]
                                  eq_refl)))
             (VNum 5) eq_refl eq_refl eq_refl eq_refl).
  - exact (proj1 (proj2 (proj2 (X1_addDoc_cases shadowing 0 [VObj 0]
                                  eq_refl)))
             (VObj 2) eq_refl).
Defined.

(** X2: on an initialised instance, [addDocs] given an array of strings
    makes one Document per string and appends them in order; given an
    array of objects that [isDoc] takes for Documents it appends these
    very objects, in order, and makes nothing.  Given anything else it
    throws and adds nothing: its own [TypeError] when the argument is no
    array or has an element that is no Document (strings mixed with
    Documents too), none of the elements owning a [hasOwnProperty]; and
    the [TypeError] of calling what is no function when the first
    element that is no Document owns a [hasOwnProperty], which [isDoc]
    calls. *)
Theorem X2_addDocs_cases (s : state) (self : loc) (docs : list value) :
  docs_of s self = Some docs ->
  let h := length (heap s) in
  (forall texts,
     corpus.addDocs self (VArr (VStr <$> texts)) s
     = (Normal VUndefined,
        State (heap s ++ documents_of texts h)
              (<[self := Some (docs ++ created texts h)]> (corpora s)))
     /\ length (docs ++ created texts h) = length docs + length texts)
  /\ (forall elts,
        forallb (has_shape s) elts = true ->
        corpus.addDocs self (VArr elts) s
        = (Normal VUndefined,
           State (heap s) (<[self := Some (docs ++ elts)]> (corpora s))))
  /\ (forall arg,
        isStringArray arg = false ->
        isArray arg && forallb (has_shape s) (elements arg) = false ->
        forallb (valid s) (elements arg) = true ->
        forallb (fun v => negb (shadows s v)) (elements arg) = true ->
        corpus.addDocs self arg s
        = (Throw (TypeError "Parameter expects an array of strings or documents."), s))
  /\ (forall pre v post,
        forallb (has_shape s) pre = true ->
        shadows s v = true ->
        corpus.addDocs self (VArr (pre ++ v :: post)) s
        = (Throw (TypeError "val.hasOwnProperty is not a function"), s)).
Proof.
  intros Hd h. split; [|split; [|split]].
  - intros texts. split.
    + by apply addDocs_strings.
    + by rewrite length_app, created_length.
  - intros elts Hs. unfold corpus.addDocs.
    destruct elts as [|v elts].
    + simpl. unfold bind at 1, ret at 1.
      rewrite (bind_normal _ _ _ _ _ (get_documents_Some _ _ _ Hd)).
      unfold set_documents, bind. apply docs_of_Some in Hd. by rewrite Hd.
    + rewrite (shaped_not_strings s (v :: elts) Hs); [|done].
      assert (forallb (valid s) (elements (VArr (v :: elts))) = true) as Hv.
      { change (elements (VArr (v :: elts))) with (v :: elts).
        rewrite forallb_forall in Hs. apply forallb_forall.
        intros x Hx. apply has_shape_valid. by apply Hs. }
      assert (forallb (fun v => negb (shadows s v))
                (elements (VArr (v :: elts))) = true) as Hown.
      { change (elements (VArr (v :: elts))) with (v :: elts).
        rewrite forallb_forall in Hs. apply forallb_forall.
        intros x Hx. apply negb_true_iff, has_shape_shadows. by apply Hs. }
      rewrite (bind_normal _ _ _ _ _
                 (isDocArray_run s (VArr (v :: elts)) Hv Hown)).
      change (elements (VArr (v :: elts))) with (v :: elts).
      rewrite Hs. simpl.
      rewrite (bind_normal _ _ _ _ _ (get_documents_Some _ _ _ Hd)).
      unfold set_documents, bind. apply docs_of_Some in Hd. by rewrite Hd.
  - intros arg Hstr Hno Hv Hown. unfold corpus.addDocs. rewrite Hstr.
    rewrite (bind_normal _ _ _ _ _ (isDocArray_run s arg Hv Hown)).
    by rewrite Hno.
  - intros pre v post Hpre Hown. unfold corpus.addDocs.
    assert (isStringArray (VArr (pre ++ v :: post)) = false) as ->.
    { unfold isStringArray. simpl. apply not_true_is_false.
      rewrite forallb_forall. intros Hall.
      specialize (Hall v). rewrite (shadows_not_string _ _ Hown) in Hall.
      apply not_false_iff_true in Hall; [done|].
      apply in_or_app. right. by left. }
    apply bind_throw. unfold isDocArray. simpl.
    by apply isDocArray_loop_stops.
Qed.

Lemma X2_addDocs_cases_witness :
  corpus.addDocs 0 (VArr [VStr (str "a"); VObj 0]) one_document
  = (Throw (TypeError "Parameter expects an array of strings or documents."),
     one_document)
  /\ corpus.addDocs 0 (VArr [VObj 0; VObj 2]) shadowing
     = (Throw (TypeError "val.hasOwnProperty is not a function"), shadowing).
Proof.
  split.
  - exact (proj1 (proj2 (proj2 (X2_addDocs_cases one_document 0 [VObj 0]
                                  eq_refl)))
             (VArr [VStr (str "a"); VObj 0]) eq_refl eq_refl eq_refl eq_refl).
  - exact (proj2 (proj2 (proj2 (X2_addDocs_cases shadowing 0 [VObj 0]
                                  eq_refl)))
             [VObj 0] (VObj 2) [] eq_refl eq_refl).
Defined.

(** ** How the constructor, [addDoc] and [addDocs] compose *)

Lemma Corpus_string s t :
  corpus.Corpus (VStr t) s
  = (Normal (VCorpus (length (corpora s))),
     State (heap s ++ [Document t (S (length (heap s))); ∅])
           (corpora s ++ [Some [VObj (length (heap s))]])).
Proof.
  unfold corpus.Corpus.
  erewrite bind_normal; [|reflexivity].
  erewrite bind_normal; [reflexivity|].
  unfold corpus.init. simpl.
  erewrite bind_normal; [|apply Doc_string].
  unfold set_documents. simpl. rewrite lookup_snoc.
  by rewrite insert_snoc.
Qed.

Lemma Corpus_strings s texts :
  corpus.Corpus (VArr (VStr <$> texts)) s
  = (Normal (VCorpus (length (corpora s))),
     State (heap s ++ documents_of texts (length (heap s)))
           (corpora s ++ [Some (created texts (length (heap s)))])).
Proof.
  unfold corpus.Corpus.
  erewrite bind_normal; [|reflexivity].
  erewrite bind_normal; [reflexivity|].
  unfold corpus.init. rewrite isStringArray_strings.
  change (corpus.isUndefined (VArr (VStr <$> texts))) with false.
  change (isString (VArr (VStr <$> texts))) with false.
  cbv iota.
  change (elements (VArr (VStr <$> texts))) with (VStr <$> texts).
  erewrite bind_normal; [|apply wrap_strings].
  unfold set_documents. cbn [heap corpora].
  rewrite lookup_snoc. by rewrite insert_snoc.
Qed.

Lemma documents_of_app xs ys h :
  documents_of (xs ++ ys) h
  = documents_of xs h ++ documents_of ys (h + 2 * length xs).
Proof.
  revert h. induction xs as [|x xs IH]; intros h.
  - simpl. by rewrite Nat.add_0_r.
  - replace (h + 2 * length (x :: xs)) with (S (S h) + 2 * length xs)
      by (simpl; lia).
    simpl. by rewrite IH.
Qed.

Lemma created_app xs ys h :
  created (xs ++ ys) h = created xs h ++ created ys (h + 2 * length xs).
Proof.
  revert h. induction xs as [|x xs IH]; intros h.
  - simpl. by rewrite Nat.add_0_r.
  - replace (h + 2 * length (x :: xs)) with (S (S h) + 2 * length xs)
      by (simpl; lia).
    simpl. by rewrite IH.
Qed.

Lemma documents_of_length texts h :
  length (documents_of texts h) = 2 * length texts.
Proof.
  revert h. induction texts as [|t texts IH]; intros h; simpl; [done|].
  rewrite IH. lia.
Qed.

(** X3: a Corpus made of one string is the Corpus made of the array of
    that string; a Corpus made of an array of strings that is not empty is
    the Corpus made empty to which the strings are then added with
    [addDocs]: the same instance is returned and the same state is
    reached. *)
Theorem X3_constructor_composes (s : state) :
  (forall t, corpus.Corpus (VStr t) s = corpus.Corpus (VArr [VStr t]) s)
  /\ (forall texts,
        texts <> [] ->
        corpus.Corpus (VArr (VStr <$> texts)) s
        = (let* c := corpus.Corpus VUndefined in
           let* self := corpus.instance c in
           corpus.addDocs self (VArr (VStr <$> texts)) ;;
           ret c) s).
Proof.
  split.
  - intros t. rewrite Corpus_string.
    change (VArr [VStr t]) with (VArr (VStr <$> [t])).
    by rewrite Corpus_strings.
  - intros texts _. rewrite Corpus_strings.
    rewrite (bind_normal _ _ _ _ _ (Corpus_undefined s)). simpl.
    unfold bind at 1, ret at 1.
    erewrite bind_normal.
    2:{ apply (addDocs_strings _ _ []). apply docs_of_Some. simpl.
        apply lookup_snoc. }
    unfold ret. simpl. by rewrite insert_snoc.
Qed.

Lemma X3_constructor_composes_witness :
  corpus.Corpus (VArr (VStr <$> [str "a"; str "b"])) initial
  = (let* c := corpus.Corpus VUndefined in
     let* self := corpus.instance c in
     corpus.addDocs self (VArr (VStr <$> [str "a"; str "b"])) ;;
     ret c) initial.
Proof.
  apply (proj2 (X3_constructor_composes initial) [str "a"; str "b"]).
  discriminate.
Defined.

(** X4: adding one string with [addDoc] is adding the array of that string
    with [addDocs]; and on an initialised instance, adding the strings of
    two arrays put end to end is adding the first array and then the
    second. *)
Theorem X4_adding_composes (s : state) (self : loc) (docs : list value) :
  docs_of s self = Some docs ->
  (forall t,
     corpus.addDoc self (VStr t) s
     = corpus.addDocs self (VArr [VStr t]) s)
  /\ (forall xs ys,
        corpus.addDocs self (VArr (VStr <$> xs ++ ys)) s
        = (corpus.addDocs self (VArr (VStr <$> xs)) ;;
           corpus.addDocs self (VArr (VStr <$> ys))) s).
Proof.
  intros Hd. split.
  - intros t. rewrite (addDoc_string _ _ _ _ Hd).
    change (VArr [VStr t]) with (VArr (VStr <$> [t])).
    by rewrite (addDocs_strings _ _ _ [t] Hd).
  - intros xs ys. rewrite (addDocs_strings _ _ _ (xs ++ ys) Hd).
    rewrite (bind_normal _ _ _ _ _ (addDocs_strings _ _ _ xs Hd)).
    erewrite addDocs_strings.
    2:{ apply docs_of_Some. simpl. apply list_lookup_insert_eq.
        apply docs_of_Some in Hd. by eapply lookup_lt_Some. }
    simpl. rewrite list_insert_insert_eq.
    rewrite length_app, documents_of_length.
    by rewrite documents_of_app, created_app, !app_assoc.
Qed.

Lemma X4_adding_composes_witness :
  corpus.addDoc 0 (VStr (str "d")) one_document
  = corpus.addDocs 0 (VArr [VStr (str "d")]) one_document.
Proof.
  exact (proj1 (X4_adding_composes one_document 0 [VObj 0] eq_refl) (str "d")).
Defined.

(** ** [map] beside [apply] *)

Lemma write_text_shape s doc x v :
  has_shape s v = true -> has_shape (write_text s doc x) v = true.
Proof.
  unfold write_text. destruct doc; try done.
  destruct (heap s !! l) as [o|] eqn:Ho; [|done].
  apply (doc_ok_write false s l o "text" x (corpora s) v Ho).
  left. by split.
Qed.

Lemma write_text_docs_ok s doc x :
  docs_ok false s -> docs_ok false (write_text s doc x).
Proof.
  intros Hok. apply (docs_ok_heap false s); [|by apply write_text_shape|done].
  unfold write_text. destruct doc; try done. by destruct (heap s !! l).
Qed.

Lemma write_text_corpora s doc x : corpora (write_text s doc x) = corpora s.
Proof.
  unfold write_text. destruct doc; try done. by destruct (heap s !! l).
Qed.

Lemma call_on_during s acc FUN i d :
  call_on (during s acc) FUN i d = call_on s FUN i d.
Proof. done. Qed.

Lemma docs_ok_lookup s self docs i d :
  docs_ok false s -> docs_of s self = Some docs -> docs !! i = Some d ->
  has_shape s d = true.
Proof.
  intros Hok Hd Hi. eapply (docs_ok_docs false); [done..|].
  by eapply list_elem_of_lookup_2.
Qed.

(** One turn of the loop of [apply]. *)
Lemma apply_step_run s self docs FUN i d :
  docs_ok false s -> docs_of s self = Some docs -> docs !! i = Some d ->
  apply_step self FUN i s
  = match call_on s FUN i d with
    | Normal r => (Normal tt, write_text s d r)
    | Throw e => (Throw e, s)
    | Stuck => (Stuck, s)
    end.
Proof.
  intros Hok Hd Hi. unfold apply_step.
  rewrite (bind_normal _ _ _ _ _ (document_at_Some _ _ _ i Hd)).
  rewrite Hi. simpl.
  destruct (has_shape_inv _ _ (docs_ok_lookup _ _ _ _ _ Hok Hd Hi))
    as (l & o & t & a & -> & Ho & Ht & Ha).
  rewrite (bind_normal _ _ _ _ _ (get_prop_obj _ _ _ "text" Ho)).
  rewrite (bind_normal _ _ _ _ _ (get_prop_obj _ _ _ "attributes" Ho)).
  unfold call_on. simpl. rewrite Ho. simpl. rewrite Ht, Ha. simpl.
  unfold lift at 1, bind at 1.
  destruct (FUN t a i) as [r|e|]; [|done|done].
  erewrite bind_normal; [|exact (set_prop_run _ _ _ "text" r Ho)].
  eapply set_document_at_same; [|exact Hi]. exact Hd.
Qed.

(** One turn of the loop of [map], the new instance holding [acc]. *)
Lemma map_step_run s self new docs FUN i d acc :
  new = length (corpora s) ->
  docs_ok false s -> docs_of s self = Some docs -> docs !! i = Some d ->
  map_step self new FUN i (during s acc)
  = match call_on s FUN i d with
    | Normal r => (Normal tt, during (write_text s d r) (acc ++ [d]))
    | Throw e => (Throw e, during s acc)
    | Stuck => (Stuck, during s acc)
    end.
Proof.
  intros -> Hok Hd Hi. unfold map_step.
  assert (docs_of (during s acc) self = Some docs) as Hd'.
  { apply docs_of_Some. unfold during. simpl.
    apply docs_of_Some in Hd. by apply lookup_app_l_Some. }
  rewrite (bind_normal _ _ _ _ _ (document_at_Some _ _ _ i Hd')).
  rewrite Hi. simpl.
  pose proof (docs_ok_lookup _ _ _ _ _ Hok Hd Hi) as Hs.
  destruct (has_shape_inv _ _ Hs) as (l & o & t & a & -> & Ho & Ht & Ha).
  rewrite (bind_normal _ _ _ _ _ (get_prop_obj (during s acc) _ _ "text" Ho)).
  rewrite (bind_normal _ _ _ _ _
             (get_prop_obj (during s acc) _ _ "attributes" Ho)).
  unfold call_on. simpl. rewrite Ho. simpl. rewrite Ht, Ha. simpl.
  unfold lift at 1, bind at 1.
  destruct (FUN t a i) as [r|e|]; [|done|done].
  erewrite bind_normal;
    [|exact (set_prop_run (during s acc) _ _ "text" r Ho)].
  erewrite bind_normal.
  2:{ apply (addDoc_shaped _ _ acc).
      - apply (write_text_shape s (VObj l) r (VObj l)) in Hs.
        unfold write_text in Hs. rewrite Ho in Hs. exact Hs.
      - apply docs_of_Some. simpl. apply lookup_snoc. }
  unfold ret, during. simpl. by rewrite insert_snoc.
Qed.

Section map_beside_apply.
Variable s : state.
Variable self : loc.
Variable docs : list value.
Variable FUN : callback.
Hypothesis Hself : docs_of s self = Some docs.

(** The two loops side by side: the store ends the same, with the same
    completion. *)
Lemma map_loop fuel i s1 acc :
  docs_ok false s1 -> corpora s1 = corpora s ->
  exists r s2 acc',
    for_nDocs_from fuel self i (apply_step self FUN) s1 = (r, s2)
    /\ for_nDocs_from fuel self i
         (map_step self (length (corpora s)) FUN) (during s1 acc)
       = (r, during s2 acc')
    /\ docs_ok false s2 /\ corpora s2 = corpora s
    /\ (r = Normal tt -> acc' = acc ++ drop i docs)
    /\ (match r with
        | Normal _ => True
        | Throw e =>
            exists text attributes j, j < length docs
              /\ FUN text attributes j = Throw e
        | Stuck =>
            fuel <= length docs - i
            \/ exists text attributes j, FUN text attributes j = Stuck
        end).
Proof.
  revert i s1 acc. induction fuel as [|fuel IH]; intros i s1 acc Hok Hc.
  { exists Stuck, s1, acc. simpl. repeat split; try done. left. lia. }
  assert (docs_of s1 self = Some docs) as Hd1.
  { unfold docs_of in *. by rewrite Hc. }
  assert (docs_of (during s1 acc) self = Some docs) as Hd1'.
  { apply docs_of_Some. unfold during. simpl.
    apply docs_of_Some in Hd1. by apply lookup_app_l_Some. }
  simpl.
  rewrite (bind_normal _ _ _ _ _ (nDocs_Some _ _ _ Hd1)).
  rewrite (bind_normal _ _ _ _ _ (nDocs_Some _ _ _ Hd1')).
  destruct (Nat.ltb_spec i (length docs)) as [Hlt|Hge].
  - destruct (lookup_lt_is_Some_2 docs i Hlt) as [d Hd].
    unfold bind at 1. rewrite (apply_step_run _ _ _ _ _ _ Hok Hd1 Hd).
    unfold bind at 1.
    rewrite (map_step_run s1 self (length (corpora s)) _ _ _ _ acc
               (eq_sym (f_equal length Hc)) Hok Hd1 Hd).
    destruct (call_on s1 FUN i d) as [x|e|] eqn:Hcall.
    + destruct (IH (S i) (write_text s1 d x) (acc ++ [d]))
        as (r & s2 & acc' & Ha & Hm & Hok2 & Hc2 & Hacc & Hr).
      { by apply write_text_docs_ok. }
      { by rewrite write_text_corpora. }
      exists r, s2, acc'. rewrite Ha, Hm.
      repeat split; try done.
      * intros Hn. rewrite (Hacc Hn), (drop_S _ _ _ Hd).
        by rewrite <- app_assoc.
      * destruct r as [|e|]; [done|done|].
        destruct Hr as [Hr|Hr]; [left; lia|by right].
    + exists (Throw e), s1, acc. repeat split; try done.
      unfold call_on in Hcall. eauto.
    + exists Stuck, s1, acc. repeat split; try done.
      right. unfold call_on in Hcall. eauto.
  - exists (Normal tt), s1, acc. repeat split; try done.
    intros _. rewrite drop_ge; [|lia]. by rewrite app_nil_r.
Qed.

Lemma map_beside_apply :
  shaped s = true ->
  exists r s2 acc,
    corpus.apply self FUN s
    = (match r with
       | Normal _ => Normal (VCorpus self)
       | Throw e => Throw e
       | Stuck => Stuck
       end, s2)
    /\ corpus.map self FUN s
       = (match r with
          | Normal _ => Normal (VCorpus (length (corpora s)))
          | Throw e => Throw e
          | Stuck => Stuck
          end, during s2 acc)
    /\ corpora s2 = corpora s
    /\ (r = Normal tt -> acc = docs)
    /\ (match r with
        | Normal _ => True
        | Throw e =>
            exists text attributes j, j < length docs
              /\ FUN text attributes j = Throw e
        | Stuck => exists text attributes j, FUN text attributes j = Stuck
        end).
Proof.
  intros Hs.
  assert (docs_ok false s) as Hok.
  { intros c ds d Hc Hin. simpl.
    apply list_elem_of_lookup_1 in Hin as [i Hi].
    eapply shaped_lookup; [exact Hs| |exact Hi]. by apply docs_of_Some. }
  destruct (map_loop (S (length docs)) 0 s []) as
    (r & s2 & acc & Ha & Hm & _ & Hc2 & Hacc & Hr); [done|done|].
  exists r, s2, acc.
  assert (docs_of (during s []) self = Some docs) as Hd'.
  { apply docs_of_Some. unfold during. simpl.
    apply docs_of_Some in Hself. by apply lookup_app_l_Some. }
  split; [|split; [|split; [done|split]]].
  - unfold corpus.apply. fold (apply_step self FUN). unfold for_nDocs.
    unfold bind at 1.
    rewrite (bind_normal _ _ _ _ _ (nDocs_Some _ _ _ Hself)). rewrite Ha.
    by destruct r as [[]|e|].
  - unfold corpus.map.
    rewrite (bind_normal _ _ _ _ _ (Corpus_undefined s)).
    unfold corpus.instance at 1. unfold bind at 1, ret at 1.
    fold (map_step self (length (corpora s)) FUN). fold (during s []).
    unfold for_nDocs. unfold bind at 1.
    rewrite (bind_normal _ _ _ _ _ (nDocs_Some _ _ _ Hd')). rewrite Hm.
    by destruct r as [[]|e|].
  - intros Hn. rewrite (Hacc Hn). by rewrite drop_0.
  - destruct r as [|e|]; [done|done|].
    destruct Hr as [Hr|Hr]; [simpl in Hr; lia|done].
Qed.

End map_beside_apply.

(** X5: on a Corpus, [map] leaves the objects of the store exactly as
    [apply] with the same callback leaves them, and writes none of the
    instances there were; when [apply] returns, [map] returns a new
    instance that holds the documents of the receiver themselves, in
    their order; when [apply] throws, [map] throws the same error. *)
Theorem X5_map_writes_like_apply (s : state) (self : loc)
    (docs : list value) (FUN : callback) :
  shaped s = true ->
  docs_of s self = Some docs ->
  let a := corpus.apply self FUN s in
  let m := corpus.map self FUN s in
  let new := length (corpora s) in
  heap (snd m) = heap (snd a)
  /\ (forall c, c < new -> corpora (snd m) !! c = corpora s !! c)
  /\ (forall r, fst a = Normal r ->
        fst m = Normal (VCorpus new) /\ docs_of (snd m) new = Some docs)
  /\ (forall e, fst a = Throw e -> fst m = Throw e).
Proof.
  intros Hs Hd a m new.
  destruct (map_beside_apply s self docs FUN Hd Hs)
    as (r & s2 & acc & Ha & Hm & Hc & Hacc & _).
  subst a m. rewrite Ha, Hm. unfold during. simpl.
  split; [done|]. split; [|split].
  - intros c Hc'. rewrite Hc. by apply lookup_app_l.
  - intros x Hx. destruct r as [[]|e|]; try done. split; [done|].
    apply docs_of_Some. rewrite Hc, (Hacc eq_refl). apply lookup_snoc.
  - intros e He. destruct r as [[]|e'|]; try done.
Qed.

Lemma X5_map_writes_like_apply_witness :
  heap (snd (corpus.map 0 exclaim two_documents))
  = heap (snd (corpus.apply 0 exclaim two_documents)).
Proof.
  exact (proj1 (X5_map_writes_like_apply two_documents 0 [VObj 0; VObj 2]
                  exclaim eq_refl eq_refl)).
Defined.

(** X6: on a Corpus, [apply] raises no error of its own: it returns the
    Corpus, or it throws what the callback threw on one of the documents
    (and what the callback is not defined on is all it is not defined
    on). *)
Theorem X6_apply_completion (s : state) (self : loc) (docs : list value)
    (FUN : callback) :
  shaped s = true ->
  docs_of s self = Some docs ->
  match fst (corpus.apply self FUN s) with
  | Normal r => r = VCorpus self
  | Throw e =>
      exists text attributes i,
        i < length docs /\ FUN text attributes i = Throw e
  | Stuck => exists text attributes i, FUN text attributes i = Stuck
  end.
Proof.
  intros Hs Hd.
  destruct (map_beside_apply s self docs FUN Hd Hs)
    as (r & s2 & acc & Ha & _ & _ & _ & Hr).
  rewrite Ha. simpl. by destruct r as [[]|e|].
Qed.

Lemma X6_apply_completion_witness :
  fst (corpus.apply 0 exclaim two_documents) = Normal (VCorpus 0).
Proof.
  pose proof (X6_apply_completion two_documents 0 [VObj 0; VObj 2] exclaim
                eq_refl eq_refl) as Hrun.
  destruct (fst (corpus.apply 0 exclaim two_documents)) eqn:Hfst.
  - by rewrite Hrun.
  - vm_compute in Hfst. discriminate Hfst.
  - vm_compute in Hfst. discriminate Hfst.
Defined.

(** X7: on a Corpus without documents the callback is never called:
    whatever it is, [apply] returns the Corpus and leaves the state as it
    was, and [map] and [filter] return a new Corpus without documents. *)
Theorem X7_nothing_to_visit (s : state) (self : loc) (FUN : callback) :
  docs_of s self = Some [] ->
  let new := length (corpora s) in
  corpus.apply self FUN s = (Normal (VCorpus self), s)
  /\ corpus.map self FUN s
     = (Normal (VCorpus new), State (heap s) (corpora s ++ [Some []]))
  /\ corpus.filter self FUN s
     = (Normal (VCorpus new), State (heap s) (corpora s ++ [Some []])).
Proof.
  intros Hd new.
  assert (docs_of (State (heap s) (corpora s ++ [Some []])) self = Some [])
    as Hd'.
  { apply docs_of_Some. simpl. apply docs_of_Some in Hd.
    by apply lookup_app_l_Some. }
  split; [|split].
  - unfold corpus.apply. erewrite bind_normal; [reflexivity|].
    eapply for_nDocs_unchanged; [exact Hd|]. simpl. intros; lia.
  - unfold corpus.map.
    rewrite (bind_normal _ _ _ _ _ (Corpus_undefined s)).
    unfold corpus.instance at 1. unfold bind at 1, ret at 1.
    erewrite bind_normal; [reflexivity|].
    eapply for_nDocs_unchanged; [exact Hd'|]. simpl. intros; lia.
  - unfold corpus.filter.
    rewrite (bind_normal _ _ _ _ _ (Corpus_undefined s)).
    unfold corpus.instance at 1. unfold bind at 1, ret at 1.
    erewrite bind_normal; [reflexivity|].
    eapply for_nDocs_unchanged; [exact Hd'|]. simpl. intros; lia.
Qed.

Lemma X7_nothing_to_visit_witness :
  corpus.apply 0 exclaim (State [] [Some []])
  = (Normal (VCorpus 0), State [] [Some []]).
Proof.
  exact (proj1 (X7_nothing_to_visit (State [] [Some []]) 0 exclaim eq_refl)).
Defined.

Lemma select_all s FUN i docs :
  (forall j d, docs !! j = Some d ->
     exists b, call_on s FUN (i + j) d = Normal b /\ truthy b = true) ->
  select s FUN i docs = docs.
Proof.
  revert i. induction docs as [|d docs IH]; intros i Hall; [done|]. simpl.
  destruct (Hall 0 d eq_refl) as (b & Hb & Ht).
  rewrite Nat.add_0_r in Hb. rewrite Hb, Ht. f_equal. apply IH.
  intros j x Hj. destruct (Hall (S j) x Hj) as (b' & Hb' & Ht').
  exists b'. by rewrite <- Hb', Nat.add_succ_r.
Qed.

Lemma select_none s FUN i docs :
  (forall j d, docs !! j = Some d ->
     exists b, call_on s FUN (i + j) d = Normal b /\ truthy b = false) ->
  select s FUN i docs = [].
Proof.
  revert i. induction docs as [|d docs IH]; intros i Hall; [done|]. simpl.
  destruct (Hall 0 d eq_refl) as (b & Hb & Ht).
  rewrite Nat.add_0_r in Hb. rewrite Hb, Ht. apply IH.
  intros j x Hj. destruct (Hall (S j) x Hj) as (b' & Hb' & Ht').
  exists b'. by rewrite <- Hb', Nat.add_succ_r.
Qed.

(** X8: on a Corpus, the Corpus [filter] builds never has more documents
    than the receiver; it has the documents of the receiver, all of them,
    when the predicate returns a truthy value on every one, and none when
    the predicate returns a falsy value on every one. *)
Theorem X8_filter_bounds (s : state) (self : loc) (docs : list value)
    (FUN : callback) :
  shaped s = true ->
  docs_of s self = Some docs ->
  let new := length (corpora s) in
  let s' := snd (corpus.filter self FUN s) in
  (exists kept, docs_of s' new = Some kept /\ length kept <= length docs)
  /\ ((forall i d, docs !! i = Some d ->
         exists b, call_on s FUN i d = Normal b /\ truthy b = true) ->
      docs_of s' new = Some docs)
  /\ ((forall i d, docs !! i = Some d ->
         exists b, call_on s FUN i d = Normal b /\ truthy b = false) ->
      docs_of s' new = Some []).
Proof.
  intros Hs Hd new s'.
  destruct (filter_run s self docs FUN Hs Hd) as (r & Hrun & _).
  subst s'. rewrite Hrun. simpl.
  assert (docs_of (State (heap s) (corpora s ++ [Some (select s FUN 0 docs)]))
            new = Some (select s FUN 0 docs)) as Hnew.
  { apply docs_of_Some. simpl. apply lookup_snoc. }
  split; [|split].
  - exists (select s FUN 0 docs). split; [done|].
    apply sublist_length, select_sublist.
  - intros Hall. rewrite Hnew. f_equal. by apply select_all.
  - intros Hnone. rewrite Hnew. f_equal. by apply select_none.
Qed.

Lemma X8_filter_bounds_witness :
  exists kept,
    docs_of (snd (corpus.filter 0 keep_first two_documents)) 1 = Some kept
    /\ length kept <= 2.
Proof.
  exact (proj1 (X8_filter_bounds two_documents 0 [VObj 0; VObj 2] keep_first
                  eq_refl eq_refl)).
Defined.

(** ** The patterns of the literals *)

Section literals.
Context `{Host}.

(** A pattern that matches one code unit of a class replaces every code
    unit of the class. *)
Lemma replace_class r p by_ :
  (forall prev s n k, matches false r prev s n k = one_char p s n k) ->
  forall s prev,
    replace_from false r by_ prev s 0
    = flat_map (fun c => if p c then by_ else [c]) s.
Proof.
  intros Hr. induction s as [|x s IH]; intros prev.
  - simpl. unfold match_at. by rewrite Hr.
  - cbn [replace_from flat_map]. unfold match_at. rewrite Hr.
    cbn [one_char]. destruct (p x).
    + by rewrite IH.
    + by rewrite IH.
Qed.

Lemma flat_map_without (p : N -> bool) (s : jsstring) :
  flat_map (fun c => if p c then [] else [c]) s = without p s.
Proof.
  unfold without. induction s as [|x s IH]; [done|]. simpl.
  destruct (p x); simpl; by rewrite IH.
Qed.

Lemma flat_map_blanked (p : N -> bool) (s : jsstring) :
  flat_map (fun c => if p c then str " " else [c]) s = blanked p s.
Proof.
  unfold blanked. induction s as [|x s IH]; [done|]. simpl.
  destruct (p x); simpl; by rewrite IH.
Qed.

Lemma removeDigits_text t : replace_all false Digit [] t = without is_digit t.
Proof.
  unfold replace_all. rewrite (replace_class Digit is_digit); [|done].
  apply flat_map_without.
Qed.

Lemma removeInvalidCharacters_text t :
  replace_all false (Char 65533) [] t = without (N.eqb 65533) t.
Proof.
  unfold replace_all. rewrite (replace_class (Char 65533) (N.eqb 65533)); [|done].
  apply flat_map_without.
Qed.

Lemma removeInterpunctuation_text t :
  replace_all false (CharSet (str "!?.,;-")) (str " ") t
  = blanked is_interpunctuation t.
Proof.
  unfold replace_all.
  rewrite (replace_class (CharSet (str "!?.,;-")) is_interpunctuation); [|done].
  apply flat_map_blanked.
Qed.

Lemma removeNewlines_bounded n : forall t prev,
  length t <= n ->
  replace_from false (Alt (Seq (Opt (Char 13)) (Char 10)) (Char 13)) [32%N]
    prev t 0 = one_line t.
Proof.
  induction n as [|n IH]; intros t prev Hn.
  - destruct t; [done|simpl in Hn; lia].
  - destruct t as [|c t]; [done|]. simpl in Hn.
    cbn [replace_from one_line]. unfold match_at.
    cbn [matches one_char same_char].
    destruct (N.eqb_spec 13 c) as [<-|H13].
    + destruct t as [|c' t].
      * done.
      * cbn [one_char same_char]. simpl in Hn.
        destruct (N.eqb_spec 10 c') as [<-|H10].
        -- cbn [app replace_from]. f_equal. apply IH. lia.
        -- change (13 =? 13)%N with true. change (10 =? 13)%N with false.
           cbn [app]. f_equal.
           rewrite IH by (simpl; lia). cbn [one_line].
           destruct (N.eqb_spec 13 c') as [<-|H13']; [done|].
           by destruct (N.eqb_spec 10 c').
    + destruct (N.eqb_spec 10 c) as [<-|H10].
      * cbn [app]. f_equal. apply IH. lia.
      * f_equal. apply IH. lia.
Qed.

Lemma removeNewlines_text t :
  replace_all false (Alt (Seq (Opt (Char 13)) (Char 10)) (Char 13)) (str " ") t
  = one_line t.
Proof.
  unfold replace_all. change (str " ") with [32%N].
  by apply (removeNewlines_bounded (length t)).
Qed.

End literals.

Lemma without_idem p t : without p (without p t) = without p t.
Proof.
  unfold without. induction t as [|c t IH]; [done|]. simpl.
  destruct (p c) eqn:Hp; simpl; [done|]. by rewrite Hp, IH.
Qed.

Lemma blanked_idem p t : p 32%N = false -> blanked p (blanked p t) = blanked p t.
Proof.
  intros H32. unfold blanked. induction t as [|c t IH]; [done|]. simpl.
  rewrite IH. f_equal. destruct (p c) eqn:Hp; [by rewrite H32|by rewrite Hp].
Qed.

Lemma one_line_bounded n : forall t,
  length t <= n ->
  Forall (fun c => c <> 10%N /\ c <> 13%N) (one_line t).
Proof.
  induction n as [|n IH]; intros t Hn.
  - destruct t; [constructor|simpl in Hn; lia].
  - destruct t as [|c t]; [constructor|]. simpl in Hn. cbn [one_line].
    destruct (N.eqb_spec 13 c) as [<-|H13].
    + constructor; [done|]. destruct t as [|c' t]; [constructor|].
      simpl in Hn. destruct (10 =? c')%N; apply IH; simpl; lia.
    + destruct (N.eqb_spec 10 c) as [<-|H10].
      * constructor; [done|]. apply IH. lia.
      * constructor; [done|]. apply IH. lia.
Qed.

Lemma one_line_unbroken t :
  Forall (fun c => c <> 10%N /\ c <> 13%N) t -> one_line t = t.
Proof.
  induction 1 as [|c t [H10 H13] _ IH]; [done|]. cbn [one_line].
  destruct (N.eqb_spec 13 c); [congruence|].
  destruct (N.eqb_spec 10 c); [congruence|].
  by rewrite IH.
Qed.

Lemma one_line_idem t : one_line (one_line t) = one_line t.
Proof. apply one_line_unbroken, (one_line_bounded (length t)). lia. Qed.

(** [apply] with an idempotent replacement, on string texts. *)
Lemma replace_texts `{Host} r by_ (f : jsstring -> jsstring) self docs s :
  (forall t, replace_all false r by_ t = f t) ->
  (forall t, f (f t) = f t) ->
  docs_of s self = Some docs ->
  forallb (has_text s) docs = true ->
  exists s',
    (corpus.apply self (fun text _ _ => String_replace false r by_ text) ;;
     ret (VCorpus self)) s = (Normal (VCorpus self), s')
    /\ only_text self s s'
    /\ forall d t, d ∈ docs -> prop_of s d "text" = Some (VStr t) ->
         prop_of s' d "text" = Some (VStr (f t)).
Proof.
  intros Hf Hidem Hd Ht.
  destruct (apply_text f (String_replace false r by_) self docs s)
    as (s' & Hrun & Hframe & Htext); [|done|done|].
  { intros t. simpl. by rewrite Hf. }
  exists s'. split; [by rewrite (bind_normal _ _ _ _ _ Hrun)|]. split; [done|].
  intros d t Hin Hdt. rewrite (Htext d t Hin Hdt). do 2 f_equal.
  apply iter_idempotent; [done|]. by eapply visits_pos.
Qed.

(** ** The built-in normalizations *)

(** X9: on a Corpus whose texts are strings, [removeDigits] returns the
    Corpus, writes nothing but the [text] of its documents, and leaves in
    every document its text without the characters [0] to [9], in their
    order, also in a document the Corpus holds more than once. *)
Theorem X9_removeDigits `{Host} (s : state) (self : loc)
    (docs : list value) :
  docs_of s self = Some docs ->
  forallb (has_text s) docs = true ->
  let r := corpus.removeDigits self s in
  fst r = Normal (VCorpus self)
  /\ only_text self s (snd r)
  /\ forall d t, d ∈ docs -> prop_of s d "text" = Some (VStr t) ->
       prop_of (snd r) d "text" = Some (VStr (without is_digit t)).
Proof.
  intros Hd Ht r. subst r. unfold corpus.removeDigits.
  destruct (replace_texts Digit [] (without is_digit) self docs s)
    as (s' & -> & Hrest);
    [apply removeDigits_text|apply without_idem|done|done|done].
Qed.

Lemma X9_removeDigits_witness :
  prop_of (snd (@corpus.removeDigits sample_host 0 two_documents)) (VObj 2)
    "text"
  = Some (VStr (without is_digit (str "b"))).
Proof.
  exact (proj2 (proj2 (@X9_removeDigits sample_host two_documents 0
                         [VObj 0; VObj 2] eq_refl eq_refl))
           (VObj 2) (str "b") (list_elem_of_further _ _ _ (list_elem_of_here _ _))
           eq_refl).
Defined.

(** X10: on a Corpus whose texts are strings, [removeInvalidCharacters]
    returns the Corpus, writes nothing but the [text] of its documents,
    and leaves in every document its text without the replacement
    character U+FFFD, in order. *)
Theorem X10_removeInvalidCharacters `{Host} (s : state) (self : loc)
    (docs : list value) :
  docs_of s self = Some docs ->
  forallb (has_text s) docs = true ->
  let r := corpus.removeInvalidCharacters self s in
  fst r = Normal (VCorpus self)
  /\ only_text self s (snd r)
  /\ forall d t, d ∈ docs -> prop_of s d "text" = Some (VStr t) ->
       prop_of (snd r) d "text" = Some (VStr (without (N.eqb 65533) t)).
Proof.
  intros Hd Ht r. subst r. unfold corpus.removeInvalidCharacters.
  destruct (replace_texts (Char 65533) [] (without (N.eqb 65533)) self docs s)
    as (s' & -> & Hrest);
    [apply removeInvalidCharacters_text|apply without_idem|done|done|done].
Qed.

Lemma X10_removeInvalidCharacters_witness :
  prop_of (snd (@corpus.removeInvalidCharacters sample_host 0 two_documents))
    (VObj 0) "text"
  = Some (VStr (without (N.eqb 65533) (str "a"))).
Proof.
  exact (proj2 (proj2 (@X10_removeInvalidCharacters sample_host two_documents 0
                         [VObj 0; VObj 2] eq_refl eq_refl))
           (VObj 0) (str "a") (list_elem_of_here _ _) eq_refl).
Defined.

(** X11: on a Corpus whose texts are strings, [removeInterpunctuation]
    returns the Corpus, writes nothing but the [text] of its documents,
    and leaves in every document its text with one space in the place of
    every [!], [?], [.], [,], [;] and [-]: the text keeps its length and
    every other character. *)
Theorem X11_removeInterpunctuation `{Host} (s : state) (self : loc)
    (docs : list value) :
  docs_of s self = Some docs ->
  forallb (has_text s) docs = true ->
  let r := corpus.removeInterpunctuation self s in
  fst r = Normal (VCorpus self)
  /\ only_text self s (snd r)
  /\ forall d t, d ∈ docs -> prop_of s d "text" = Some (VStr t) ->
       prop_of (snd r) d "text" = Some (VStr (blanked is_interpunctuation t))
       /\ length (blanked is_interpunctuation t) = length t.
Proof.
  intros Hd Ht r. subst r. unfold corpus.removeInterpunctuation.
  destruct (replace_texts (CharSet (str "!?.,;-")) (str " ")
              (blanked is_interpunctuation) self docs s)
    as (s' & -> & Hfr & Htext);
    [apply removeInterpunctuation_text|intros t; by apply blanked_idem
    |done|done|].
  split; [done|]. split; [done|]. intros d t Hin Hdt.
  split; [by apply Htext|]. unfold blanked. by rewrite length_map.
Qed.

Lemma X11_removeInterpunctuation_witness :
  prop_of (snd (@corpus.removeInterpunctuation sample_host 0 question_mark))
    (VObj 0) "text"
  = Some (VStr (blanked is_interpunctuation (str "ab?c"))).
Proof.
  exact (proj1 (proj2 (proj2 (@X11_removeInterpunctuation sample_host
                                question_mark 0 [VObj 0] eq_refl eq_refl))
                  (VObj 0) (str "ab?c") (list_elem_of_here _ _) eq_refl)).
Defined.

(** X12: on a Corpus whose texts are strings, [removeNewlines] returns the
    Corpus, writes nothing but the [text] of its documents, and leaves in
    every document its text with one space for every line break (a
    carriage return with the line feed after it, a lone carriage return,
    a lone line feed): no line feed and no carriage return is left. *)
Theorem X12_removeNewlines `{Host} (s : state) (self : loc)
    (docs : list value) :
  docs_of s self = Some docs ->
  forallb (has_text s) docs = true ->
  let r := corpus.removeNewlines self s in
  fst r = Normal (VCorpus self)
  /\ only_text self s (snd r)
  /\ forall d t, d ∈ docs -> prop_of s d "text" = Some (VStr t) ->
       prop_of (snd r) d "text" = Some (VStr (one_line t))
       /\ Forall (fun c => c <> 10%N /\ c <> 13%N) (one_line t).
Proof.
  intros Hd Ht r. subst r. unfold corpus.removeNewlines.
  destruct (replace_texts (Alt (Seq (Opt (Char 13)) (Char 10)) (Char 13))
              (str " ") one_line self docs s)
    as (s' & -> & Hfr & Htext);
    [apply removeNewlines_text|apply one_line_idem|done|done|].
  split; [done|]. split; [done|]. intros d t Hin Hdt.
  split; [by apply Htext|]. apply (one_line_bounded (length t)). lia.
Qed.

Lemma X12_removeNewlines_witness :
  prop_of (snd (@corpus.removeNewlines sample_host 0 one_document)) (VObj 0)
    "text"
  = Some (VStr (one_line (str "abc"))).
Proof.
  exact (proj1 (proj2 (proj2 (@X12_removeNewlines sample_host one_document 0
                                [VObj 0] eq_refl eq_refl))
                  (VObj 0) (str "abc") (list_elem_of_here _ _) eq_refl)).
Defined.

Lemma normalize_apply `{Host} op self :
  exists prim,
    normalize op self
    = (corpus.apply self (fun text _ _ => prim text) ;; ret (VCorpus self))
    /\ forall t, prim (VStr t) = Normal (VStr (text_function op t)).
Proof.
  destruct op; try (eexists; split; [reflexivity|]; intros t; reflexivity).
  exists (fun text =>
    if corpus.is_Lancaster type then external LancasterStemmer_stem text
    else external PorterStemmer_stem text).
  split; [reflexivity|]. intros t. simpl. by destruct (corpus.is_Lancaster type).
Qed.

(** X13: on a Corpus whose texts are strings, every built-in normalization
    ([clean], [trim], [toLower], [toUpper], [stem] and the four
    [remove...]) returns the Corpus and writes nothing but the [text] of
    its documents; it calls its string function once for every index, so
    that a document the Corpus holds [k] times is left with the function
    applied [k] times over to its text. *)
Theorem X13_normalize_texts `{Host} (op : normalization) (s : state)
    (self : loc) (docs : list value) :
  docs_of s self = Some docs ->
  forallb (has_text s) docs = true ->
  let r := normalize op self s in
  fst r = Normal (VCorpus self)
  /\ only_text self s (snd r)
  /\ forall d t, d ∈ docs -> prop_of s d "text" = Some (VStr t) ->
       prop_of (snd r) d "text"
       = Some (VStr (Nat.iter (visits d docs) (text_function op) t)).
Proof.
  intros Hd Ht r. subst r.
  destruct (normalize_apply op self) as (prim & -> & Hprim).
  destruct (apply_text (text_function op) prim self docs s Hprim Hd Ht)
    as (s' & Hrun & Hrest).
  by rewrite (bind_normal _ _ _ _ _ Hrun).
Qed.

Lemma X13_normalize_texts_witness :
  prop_of (snd (@normalize sample_host ToUpper 0 same_document_twice))
    (VObj 0) "text"
  = Some (VStr (Nat.iter 2 (@text_function sample_host ToUpper) (str "abc"))).
Proof.
  exact (proj2 (proj2 (@X13_normalize_texts sample_host ToUpper
                         same_document_twice 0 [VObj 0; VObj 0]
                         eq_refl eq_refl))
           (VObj 0) (str "abc") (list_elem_of_here _ _) eq_refl).
Defined.

(** ** A text that is not a string *)

(** The loop stops at the first index whose body throws. *)
Lemma for_nDocs_from_stops (I : nat -> state -> Prop) self body n m fuel i s
    (R : error -> state -> Prop) :
  I i s -> i <= m -> m < n -> n - i < fuel ->
  (forall j s1, j <= m -> I j s1 ->
     exists docs, docs_of s1 self = Some docs /\ length docs = n) ->
  (forall j s1, j < m -> I j s1 ->
     exists s2, body j s1 = (Normal tt, s2) /\ I (S j) s2) ->
  (forall s1, I m s1 -> exists e s2, body m s1 = (Throw e, s2) /\ R e s2) ->
  exists e s', for_nDocs_from fuel self i body s = (Throw e, s') /\ R e s'.
Proof.
  intros HI Hi Hm Hfuel Hn Hbody Hstop. revert i s HI Hi Hfuel.
  induction fuel as [|fuel IH]; intros i s HI Hi Hfuel; [lia|].
  simpl. destruct (Hn i s Hi HI) as (docs & Hd & Hlen).
  rewrite (bind_normal _ _ _ _ _ (nDocs_Some _ _ _ Hd)). rewrite Hlen.
  destruct (Nat.ltb_spec i n) as [Hlt|Hge]; [|lia].
  destruct (decide (i = m)) as [->|Hne].
  - destruct (Hstop s HI) as (e & s2 & Hrun & HR). exists e, s2.
    split; [|done]. by apply bind_throw.
  - destruct (Hbody i s) as (s2 & Hrun & HI2); [lia|done|].
    rewrite (bind_normal _ _ _ _ _ Hrun). apply IH; [done|lia..].
Qed.

Lemma apply_step_text (f : jsstring -> jsstring)
    (prim : value -> completion value) self docs j l s1 (o : object) t :
  (forall t, prim (VStr t) = Normal (VStr (f t))) ->
  docs !! j = Some (VObj l) -> docs_of s1 self = Some docs ->
  heap s1 !! l = Some o -> o !! "text" = Some (VStr t) ->
  apply_step self (fun text _ _ => prim text) j s1
  = (Normal tt, with_text s1 l (f t)).
Proof.
  intros Hprim Hj Hd1 Ho Hto. unfold apply_step.
  rewrite (bind_normal _ _ _ _ _ (document_at_Some _ _ _ j Hd1)).
  rewrite Hj. simpl.
  rewrite (bind_normal _ _ _ _ _ (get_prop_obj _ _ _ "text" Ho)).
  rewrite (bind_normal _ _ _ _ _ (get_prop_obj _ _ _ "attributes" Ho)).
  rewrite Hto. simpl. rewrite Hprim. unfold lift at 1, bind at 1.
  erewrite bind_normal; [|exact (with_text_run _ _ _ (f t) Ho)].
  eapply set_document_at_same; [|exact Hj].
  by rewrite with_text_docs.
Qed.

Lemma apply_step_throws (prim : value -> completion value) self docs j l s1
    (o : object) e :
  docs !! j = Some (VObj l) -> docs_of s1 self = Some docs ->
  heap s1 !! l = Some o -> prim (default VUndefined (o !! "text")) = Throw e ->
  apply_step self (fun text _ _ => prim text) j s1 = (Throw e, s1).
Proof.
  intros Hj Hd1 Ho He. unfold apply_step.
  rewrite (bind_normal _ _ _ _ _ (document_at_Some _ _ _ j Hd1)).
  rewrite Hj. simpl.
  rewrite (bind_normal _ _ _ _ _ (get_prop_obj _ _ _ "text" Ho)).
  rewrite (bind_normal _ _ _ _ _ (get_prop_obj _ _ _ "attributes" Ho)).
  apply bind_throw. unfold lift. by rewrite He.
Qed.

Section first_text_that_is_no_string.
Variable f : jsstring -> jsstring.
Variable prim : value -> completion value.
Variable self : loc.
Variables pre post : list value.
Variable l : loc.
Variable o : object.
Variable e : error.
Variable s : state.
Hypothesis Hprim : forall t, prim (VStr t) = Normal (VStr (f t)).
Hypothesis Hdocs : docs_of s self = Some (pre ++ VObj l :: post).
Hypothesis Htexts : forallb (has_text s) pre = true.
Hypothesis Hl : heap s !! l = Some o.
Hypothesis Hthrows : prim (default VUndefined (o !! "text")) = Throw e.

Lemma no_string_not_before : VObj l ∉ pre.
Proof.
  intros Hin. rewrite forallb_forall in Htexts.
  pose proof (Htexts _ (proj1 (list_elem_of_In _ _) Hin)) as Ht.
  destruct (has_text_inv _ _ Ht) as (l' & o' & t & [= <-] & Ho' & Hto').
  rewrite Hl in Ho'. injection Ho' as <-. rewrite Hto' in Hthrows.
  simpl in Hthrows. by rewrite Hprim in Hthrows.
Qed.

Lemma apply_stops :
  exists s',
    corpus.apply self (fun text _ _ => prim text) s = (Throw e, s')
    /\ only_text self s s'
    /\ (forall l', VObj l' ∉ pre -> heap s' !! l' = heap s !! l')
    /\ forall d t, d ∈ pre -> prop_of s d "text" = Some (VStr t) ->
         prop_of s' d "text" = Some (VStr (Nat.iter (visits d pre) f t)).
Proof.
  set (docs := pre ++ VObj l :: post) in *.
  set (I := fun (k : nat) (s1 : state) =>
    only_text self s s1
    /\ (forall l', VObj l' ∉ take k pre -> heap s1 !! l' = heap s !! l')
    /\ forall d t, d ∈ pre -> prop_of s d "text" = Some (VStr t) ->
         prop_of s1 d "text"
         = Some (VStr (Nat.iter (visits d (take k pre)) f t))).
  assert (length pre < length docs) as Hlen.
  { unfold docs. rewrite length_app. simpl. lia. }
  destruct (for_nDocs_from_stops I self
              (apply_step self (fun text _ _ => prim text))
              (length docs) (length pre) (S (length docs)) 0 s
              (fun e' s' => e' = e /\ I (length pre) s'))
    as (e' & s' & Hrun & -> & Hfr & Hrest & Htext).
  - split; [apply only_written_refl|]. split; [done|].
    intros d t _ Ht. by rewrite take_0.
  - lia.
  - done.
  - lia.
  - intros j s1 _ [Hfr _]. exists docs. split; [|done].
    by eapply only_written_docs.
  - intros j s1 Hj (Hfr & Hrest & Htext).
    pose proof (only_written_docs _ _ _ _ _ Hfr Hdocs) as Hd1.
    destruct (lookup_lt_is_Some_2 pre j Hj) as [dj Hdj].
    assert (docs !! j = Some dj) as Hdj'.
    { unfold docs. by apply lookup_app_l_Some. }
    assert (has_text s dj = true) as Hdj_text.
    { rewrite forallb_forall in Htexts. apply Htexts.
      apply list_elem_of_In. by eapply list_elem_of_lookup_2. }
    destruct (has_text_inv _ _ Hdj_text) as (l0 & o0 & t0 & -> & Ho0 & Ht0).
    assert (prop_of s (VObj l0) "text" = Some (VStr t0)) as Hp0.
    { simpl. rewrite Ho0. done. }
    pose proof (Htext (VObj l0) t0 (list_elem_of_lookup_2 _ _ _ Hdj) Hp0) as Hp1.
    destruct (prop_of_text_inv _ _ _ Hp1) as (l1 & o1 & [= <-] & Ho1 & Ht1).
    exists (with_text s1 l0 (f (Nat.iter (visits (VObj l0) (take j pre)) f t0))).
    split; [exact (apply_step_text f prim self docs j l0 s1 o1 _ Hprim Hdj' Hd1 Ho1 Ht1)|].
    split; [|split].
    + unfold with_text. rewrite Ho1. eapply only_written_set; eauto.
    + intros l' Hl'. rewrite (take_S_r _ _ _ Hdj) in Hl'.
      apply not_elem_of_app in Hl' as [Hl' Hne].
      rewrite with_text_lookup_ne; [by apply Hrest|].
      intros ->. apply Hne, list_elem_of_here.
    + intros d t Hin Ht. rewrite (take_S_r _ _ _ Hdj), visits_snoc.
      specialize (Htext d t Hin Ht).
      destruct (prop_of_text_inv _ _ _ Ht) as (l' & o' & -> & Ho' & Ht').
      destruct (decide (l' = l0)) as [->|Hne].
      * assert (t = t0) as -> by congruence.
        simpl. rewrite Nat.eqb_refl.
        rewrite (with_text_lookup _ _ _ _ Ho1). simpl.
        rewrite lookup_insert_eq. by rewrite Nat.add_1_r.
      * simpl. rewrite with_text_lookup_ne; [|done].
        destruct (Nat.eqb_spec l' l0); [done|].
        rewrite Nat.add_0_r. exact Htext.
  - intros s1 (Hfr & Hrest & Htext). exists e, s1. split; [|done].
    pose proof (only_written_docs _ _ _ _ _ Hfr Hdocs) as Hd1.
    eapply apply_step_throws; [|exact Hd1| |exact Hthrows].
    + unfold docs. by rewrite list_lookup_middle.
    + rewrite Hrest; [done|]. intros Hin. apply no_string_not_before.
      by eapply subseteq_take.
  - exists s'. split.
    + unfold corpus.apply, for_nDocs.
      apply bind_throw.
      rewrite (bind_normal _ _ _ _ _ (nDocs_Some _ _ _ Hdocs)).
      exact Hrun.
    + split; [done|]. split.
      * intros l' Hl'. apply Hrest. by rewrite take_ge.
      * intros d t Hin Ht. rewrite (Htext d t Hin Ht). by rewrite take_ge.
Qed.

End first_text_that_is_no_string.

Lemma normalize_method `{Host} op self :
  calls_method op = true ->
  exists prim,
    normalize op self
    = (corpus.apply self (fun text _ _ => prim text) ;; ret (VCorpus self))
    /\ (forall t, prim (VStr t) = Normal (VStr (text_function op t)))
    /\ forall x, isString x = false -> exists msg, prim x = Throw (TypeError msg).
Proof.
  destruct op; try done; intros _;
    (eexists; split; [reflexivity|]; split; [intros t; reflexivity|]);
    intros [] Hx; try done; simpl; by eexists.
Qed.

(** X14: the normalizations that call a method of the text ([toLower],
    [toUpper] and the four [remove...]) stop at the first document whose
    text is not a string: they throw a [TypeError] there, and nothing is
    undone: the documents before it have been rewritten (once for every
    index they have before it), and no other object was written. *)
Theorem X14_text_not_a_string `{Host} (op : normalization) (s : state)
    (self : loc) (pre post : list value) (l : loc) (o : object) :
  calls_method op = true ->
  docs_of s self = Some (pre ++ VObj l :: post) ->
  forallb (has_text s) pre = true ->
  heap s !! l = Some o ->
  isString (default VUndefined (o !! "text")) = false ->
  let r := normalize op self s in
  (exists msg, fst r = Throw (TypeError msg))
  /\ only_text self s (snd r)
  /\ (forall l', VObj l' ∉ pre -> heap (snd r) !! l' = heap s !! l')
  /\ forall d t, d ∈ pre -> prop_of s d "text" = Some (VStr t) ->
       prop_of (snd r) d "text"
       = Some (VStr (Nat.iter (visits d pre) (text_function op) t)).
Proof.
  intros Hop Hd Ht Hl Hx r. subst r.
  destruct (normalize_method op self Hop) as (prim & -> & Hprim & Hthrows).
  destruct (Hthrows _ Hx) as [msg Hmsg].
  destruct (apply_stops (text_function op) prim self pre post l o
              (TypeError msg) s Hprim Hd Ht Hl Hmsg)
    as (s' & Hrun & Hrest).
  rewrite (bind_throw _ _ _ _ _ Hrun). split; [by exists msg|done].
Qed.

Lemma X14_text_not_a_string_witness :
  (exists msg,
     fst (@normalize sample_host ToUpper 0 number_as_text)
     = Throw (TypeError msg))
  /\ prop_of (snd (@normalize sample_host ToUpper 0 number_as_text)) (VObj 0)
       "text"
     = Some (VStr (Nat.iter 1 (@text_function sample_host ToUpper) (str "abc"))).
Proof.
  pose proof (@X14_text_not_a_string sample_host ToUpper number_as_text 0
                [VObj 0] [] 2
                (<["text" := VNum 7]> (<["attributes" := VNull]> ∅))
                eq_refl eq_refl eq_refl eq_refl eq_refl)
    as (Hthrow & _ & _ & Htext).
  split; [exact Hthrow|].
  exact (Htext (VObj 0) (str "abc") (list_elem_of_here _ _) eq_refl).
Defined.

(** ** Nothing is taken away *)

Lemma grown_refl s : grown s s.
Proof.
  split; [|split].
  - intros l o Ho. by exists o.
  - done.
  - intros self docs Hd. exists []. by rewrite app_nil_r.
Qed.

Lemma grown_alloc s0 s ext :
  grown s0 s -> grown s0 (State (heap s ++ ext) (corpora s)).
Proof.
  intros (Hheap & Hlen & Hdocs). split; [|by split].
  intros l o Ho. destruct (Hheap l o Ho) as (o' & Ho' & Hrest).
  exists o'. split; [|done]. simpl. by apply lookup_app_l_Some.
Qed.

Lemma grown_write s0 s l (o : object) p x :
  grown s0 s -> heap s !! l = Some o -> p = "text" \/ p = "attributes" ->
  grown s0 (State (<[l := <[p := x]> o]> (heap s)) (corpora s)).
Proof.
  intros (Hheap & Hlen & Hdocs) Hl Hp. split; [|by split].
  intros l' o0 Ho0. destruct (Hheap l' o0 Ho0) as (o' & Ho' & Hown & Hsame).
  simpl. destruct (decide (l' = l)) as [->|Hne].
  - exists (<[p := x]> o). rewrite Hl in Ho'. injection Ho' as <-.
    split; [|split].
    + apply list_lookup_insert_eq. by eapply lookup_lt_Some.
    + intros q Hq. destruct (decide (q = p)) as [->|Hqp].
      * rewrite lookup_insert_eq. by eexists.
      * rewrite lookup_insert_ne; [|done]. by apply Hown.
    + intros q Hq1 Hq2. rewrite lookup_insert_ne; [by apply Hsame|].
      destruct Hp; congruence.
  - exists o'. split; [|done]. by rewrite list_lookup_insert_ne.
Qed.

Lemma grown_append s0 s self docs more :
  grown s0 s -> docs_of s self = Some docs ->
  grown s0 (State (heap s) (<[self := Some (docs ++ more)]> (corpora s))).
Proof.
  intros (Hheap & Hlen & Hdocs) Hself. split; [done|]. split.
  - simpl. by rewrite length_insert.
  - intros c docs0 Hc. destruct (Hdocs c docs0 Hc) as [more0 Hmore0].
    destruct (decide (c = self)) as [->|Hne].
    + exists (more0 ++ more). apply docs_of_Some. simpl.
      rewrite Hself in Hmore0. injection Hmore0 as ->.
      rewrite app_assoc. apply list_lookup_insert_eq.
      apply docs_of_Some in Hself. by eapply lookup_lt_Some.
    + exists more0. apply docs_of_Some. simpl.
      rewrite list_lookup_insert_ne; [|done]. by apply docs_of_Some.
Qed.

Lemma grown_new s0 s self x :
  grown s0 s -> length (corpora s0) <= self ->
  grown s0 (State (heap s) (<[self := x]> (corpora s))).
Proof.
  intros (Hheap & Hlen & Hdocs) Hself. split; [done|]. split.
  - simpl. by rewrite length_insert.
  - intros c docs0 Hc. destruct (Hdocs c docs0 Hc) as [more0 Hmore0].
    exists more0. apply docs_of_Some. simpl.
    rewrite list_lookup_insert_ne; [by apply docs_of_Some|].
    intros <-. apply docs_of_Some, lookup_lt_Some in Hc. lia.
Qed.

Section nothing_taken_away.
Variable s0 : state.

Lemma set_prop_grown v w x :
  w = "text" \/ w = "attributes" ->
  hoare (grown s0) (set_prop v w x) (fun _ => grown s0) (grown s0).
Proof.
  intros Hw. eapply hoare_post; [by apply hoare_set_prop|].
  intros _ s' (s & l & o & Hg & -> & Ho & ->). by apply grown_write.
Qed.

Lemma Doc_grown text :
  hoare (grown s0) (Doc text) (fun _ => grown s0) (grown s0).
Proof.
  intros s Hg. destruct text; try exact Hg.
  rewrite Doc_string. by apply grown_alloc.
Qed.

Lemma wrap_grown elts :
  hoare (grown s0) (corpus.wrap elts) (fun _ => grown s0) (grown s0).
Proof.
  induction elts as [|e elts IH]; simpl.
  - by apply hoare_ret.
  - eapply hoare_bind; [apply Doc_grown|]. intros doc.
    eapply hoare_bind; [apply IH|]. intros arr. by apply hoare_ret.
Qed.

Lemma push_grown self d :
  hoare (grown s0) (push self d) (fun _ => grown s0) (grown s0).
Proof.
  unfold push.
  eapply hoare_bind; [by apply hoare_get_documents|].
  intros docs. eapply hoare_post; [apply hoare_set_documents; leftmost|].
  intros _ s' (s & [Hg Hd] & _ & ->). by apply grown_append.
Qed.

Lemma init_grown self docs :
  length (corpora s0) <= self ->
  hoare (grown s0) (corpus.init self docs) (fun _ => grown s0) (grown s0).
Proof.
  intros Hself. unfold corpus.init.
  assert (forall arr, hoare (grown s0) (set_documents self arr)
                        (fun _ => grown s0) (grown s0)) as Hset.
  { intros arr. eapply hoare_post; [by apply hoare_set_documents|].
    intros _ s' (s & Hg & _ & ->). by apply grown_new. }
  destruct (corpus.isUndefined docs); [apply Hset|].
  destruct (isString docs).
  { eapply hoare_bind; [apply Doc_grown|]. intros doc. apply Hset. }
  destruct (isStringArray docs).
  { eapply hoare_bind; [apply wrap_grown|]. intros arr. apply Hset. }
  by apply hoare_throw.
Qed.

Lemma Corpus_grown docs :
  hoare (grown s0) (corpus.Corpus docs) (fun _ => grown s0) (grown s0).
Proof.
  unfold corpus.Corpus. intros s Hg. unfold bind at 1, new_instance at 1.
  assert (grown s0 (State (heap s) (corpora s ++ [None]))) as Hg'.
  { destruct Hg as (Hheap & Hlen & Hdocs). split; [done|]. split.
    - simpl. rewrite length_app. simpl. lia.
    - intros c docs0 Hc. destruct (Hdocs c docs0 Hc) as [more Hmore].
      exists more. apply docs_of_Some. simpl.
      apply lookup_app_l_Some. by apply docs_of_Some. }
  assert (length (corpora s0) <= length (corpora s)) as Hlen by apply Hg.
  pose proof (hoare_bind _ _ (fun _ => ret (VCorpus (length (corpora s))))
                _ (fun _ => grown s0) _
                (init_grown (length (corpora s)) docs Hlen)
                (fun _ => hoare_ret _ _ _ _ (fun s Hs => Hs)) _ Hg') as Hrun.
  exact Hrun.
Qed.

Lemma addDoc_grown self doc :
  hoare (grown s0) (corpus.addDoc self doc) (fun _ => grown s0) (grown s0).
Proof.
  unfold corpus.addDoc. destruct (isString doc).
  - eapply hoare_bind; [apply Doc_grown|]. intros d.
    eapply hoare_bind; [apply push_grown|]. intros ?. by apply hoare_ret.
  - eapply hoare_bind; [by apply hoare_isDoc|]. intros [|].
    + eapply hoare_bind; [eapply hoare_pre; [apply push_grown|leftmost]|].
      intros ?. by apply hoare_ret.
    + apply hoare_throw. leftmost.
Qed.

Lemma append_grown self arr :
  hoare (grown s0)
    (let* documents := get_documents self in
     set_documents self (documents ++ arr) ;; ret VUndefined)
    (fun _ => grown s0) (grown s0).
Proof.
  eapply hoare_bind; [by apply hoare_get_documents|]. intros documents.
  eapply (hoare_bind _ _ _ (fun _ => grown s0));
    [|intros ?; by apply hoare_ret].
  eapply hoare_post; [apply hoare_set_documents; leftmost|].
  intros _ s' (s & [Hg Hd] & _ & ->). by apply grown_append.
Qed.

Lemma addDocs_grown self docs :
  hoare (grown s0) (corpus.addDocs self docs) (fun _ => grown s0) (grown s0).
Proof.
  unfold corpus.addDocs. destruct (isStringArray docs).
  - eapply hoare_bind; [apply wrap_grown|]. intros arr. apply append_grown.
  - eapply hoare_bind; [by apply hoare_isDocArray|]. intros [|].
    + eapply hoare_pre; [apply append_grown|leftmost].
    + apply hoare_throw. leftmost.
Qed.

Lemma setAttributes_grown self arr :
  hoare (grown s0) (corpus.setAttributes self arr)
    (fun _ => grown s0) (grown s0).
Proof.
  unfold corpus.setAttributes.
  destruct (isObjectArray arr); simpl; [|by apply hoare_throw].
  eapply hoare_bind; [by apply hoare_nDocs|]. intros n.
  destruct (negb _); [apply hoare_throw; leftmost|].
  eapply (hoare_bind _ _ _ (fun _ => grown s0));
    [|intros ?; by apply hoare_ret].
  eapply (hoare_pre _ (grown s0)); [|leftmost].
  apply hoare_for_upto. intros j.
  eapply hoare_bind; [by apply hoare_document_at|]. intros doc.
  eapply hoare_pre; [apply set_prop_grown; by right|leftmost].
Qed.

Lemma apply_grown self (FUN : callback) :
  hoare (grown s0) (corpus.apply self FUN) (fun _ => grown s0) (grown s0).
Proof.
  unfold corpus.apply.
  eapply (hoare_bind _ _ _ (fun _ => grown s0));
    [|intros ?; by apply hoare_ret].
  apply hoare_for_nDocs. intros j.
  eapply hoare_bind; [by apply hoare_document_at|]. intros doc.
  eapply hoare_bind; [apply hoare_get_prop; leftmost|]. intros text.
  eapply hoare_bind; [apply hoare_get_prop; leftmost|]. intros attrs.
  eapply hoare_bind; [apply hoare_lift; leftmost|]. intros r.
  eapply hoare_bind; [apply hoare_set_prop; leftmost|]. intros ?.
  eapply hoare_conseq;
    [apply (hoare_set_document_at_same (grown s0) (grown s0) self j doc);
       done| |done|done].
  intros s' (s & l & o & HP & -> & Ho & ->).
  destruct HP as ((((Hg & docs & Hd & Hdoc) & _) & _) & _).
  split; [by apply grown_write; auto|].
  exists docs. split; [done|]. exact Hdoc.
Qed.

Lemma instance_grown v :
  hoare (grown s0) (corpus.instance v) (fun _ => grown s0) (grown s0).
Proof. destruct v; try (by apply hoare_stuck). by apply hoare_ret. Qed.

Lemma map_grown self (FUN : callback) :
  hoare (grown s0) (corpus.map self FUN) (fun _ => grown s0) (grown s0).
Proof.
  unfold corpus.map.
  eapply hoare_bind; [apply Corpus_grown|]. intros ret_.
  eapply hoare_bind; [apply instance_grown|]. intros r.
  eapply (hoare_bind _ _ _ (fun _ => grown s0));
    [|intros ?; by apply hoare_ret].
  apply hoare_for_nDocs. intros j.
  eapply hoare_bind; [by apply hoare_document_at|]. intros doc.
  eapply hoare_bind; [apply hoare_get_prop; leftmost|]. intros text.
  eapply hoare_bind; [apply hoare_get_prop; leftmost|]. intros attrs.
  eapply hoare_bind; [apply hoare_lift; leftmost|]. intros t.
  eapply hoare_bind.
  { eapply hoare_pre; [apply (set_prop_grown doc "text" t); by left|leftmost]. }
  intros ?.
  eapply hoare_bind; [apply addDoc_grown|]. intros ?. by apply hoare_ret.
Qed.

Lemma filter_grown self (FUN : callback) :
  hoare (grown s0) (corpus.filter self FUN) (fun _ => grown s0) (grown s0).
Proof.
  unfold corpus.filter.
  eapply hoare_bind; [apply Corpus_grown|]. intros ret_.
  eapply hoare_bind; [apply instance_grown|]. intros r.
  eapply (hoare_bind _ _ _ (fun _ => grown s0));
    [|intros ?; by apply hoare_ret].
  apply hoare_for_nDocs. intros j.
  eapply hoare_bind; [by apply hoare_document_at|]. intros doc.
  eapply hoare_bind; [apply hoare_get_prop; leftmost|]. intros text.
  eapply hoare_bind; [apply hoare_get_prop; leftmost|]. intros attrs.
  eapply hoare_bind; [apply hoare_lift; leftmost|]. intros b.
  destruct (truthy b).
  - eapply (hoare_bind _ _ _ (fun _ => grown s0));
      [|intros ?; by apply hoare_ret].
    eapply hoare_pre; [apply addDoc_grown|leftmost].
  - apply hoare_ret. leftmost.
Qed.

Lemma normalize_grown `{Host} op self :
  hoare (grown s0) (normalize op self) (fun _ => grown s0) (grown s0).
Proof.
  destruct (normalize_apply op self) as (prim & -> & _).
  eapply hoare_bind; [apply apply_grown|]. intros ?. by apply hoare_ret.
Qed.

Lemma removeWords_grown `{Host} self words case_insensitive :
  hoare (grown s0) (corpus.removeWords self words case_insensitive)
    (fun _ => grown s0) (grown s0).
Proof.
  unfold corpus.removeWords.
  eapply (hoare_bind _ _ _ (fun _ => grown s0)).
  - apply hoare_for_nDocs. intros doc.
    apply hoare_for_upto. intros i. simpl.
    destruct (RegExp _) as [myRegExp|]; [|by apply hoare_stuck].
    eapply hoare_bind; [by apply hoare_document_at|]. intros d.
    eapply hoare_bind; [apply hoare_get_prop; leftmost|]. intros text.
    eapply hoare_bind; [apply hoare_lift; leftmost|]. intros r.
    eapply hoare_pre; [apply set_prop_grown; by left|leftmost].
  - intros ?.
    eapply hoare_bind; [apply (normalize_grown Clean)|].
    intros ?. by apply hoare_ret.
Qed.

Lemma perform_grown `{Host} c s : grown s0 s -> grown s0 (snd (perform c s)).
Proof.
  intros Hg. destruct c; simpl.
  - by apply grown_alloc.
  - by apply (hoare_snd _ _ _ s (Corpus_grown docs)).
  - by apply (hoare_snd _ _ _ s (addDoc_grown self doc)).
  - by apply (hoare_snd _ _ _ s (addDocs_grown self docs)).
  - by apply (hoare_snd _ _ _ s (setAttributes_grown self arr)).
  - by apply (hoare_snd _ _ _ s (apply_grown self FUN)).
  - by apply (hoare_snd _ _ _ s (map_grown self FUN)).
  - by apply (hoare_snd _ _ _ s (filter_grown self FUN)).
  - by apply (hoare_snd _ _ _ s
                (removeWords_grown self words case_insensitive)).
  - by apply (hoare_snd _ _ _ s (normalize_grown op self)).
Qed.

Lemma run_grown `{Host} cs s : grown s0 s -> grown s0 (run cs s).
Proof.
  revert s. induction cs as [|c cs IH]; intros s Hg; [done|].
  simpl. by apply IH, perform_grown.
Qed.

End nothing_taken_away.

(** X15: no call but [init] takes anything away.  Through any sequence
    of calls of the constructor and of the methods [addDoc], [addDocs],
    [setAttributes], [apply], [map], [filter], [removeWords] and the
    normalizations, and of a caller making objects of its own, whatever
    the calls complete with, every object stays at its address and owns
    every property it owned (those other than [text] and [attributes]
    with the values they had), every instance stays, and the [documents]
    of an initialised instance are those it had, each in its place,
    followed by what was added: none of these methods removes, replaces
    or reorders a document.  [init], which an instance has as a method
    too, is the exception: called again on an instance with documents, it
    replaces its [documents], and the documents there were are gone. *)
Theorem X15_no_call_but_init_takes_away `{Host} (cs : list call) (s : state) :
  grown s (run cs s)
  /\ forall self docs, docs_of s self = Some docs -> docs <> [] ->
       docs_of (snd (corpus.init self VUndefined s)) self = Some []
       /\ ~ grown s (snd (corpus.init self VUndefined s)).
Proof.
  split; [apply run_grown, grown_refl|].
  intros self docs Hd Hne.
  assert (docs_of (snd (corpus.init self VUndefined s)) self = Some [])
    as Hinit.
  { unfold corpus.init. simpl. unfold set_documents.
    pose proof Hd as Hc. apply docs_of_Some in Hc. rewrite Hc. simpl.
    apply docs_of_Some. simpl. apply list_lookup_insert_eq.
    by eapply lookup_lt_Some. }
  split; [done|]. intros (_ & _ & Hdocs).
  destruct (Hdocs self docs Hd) as [more Hmore].
  rewrite Hinit in Hmore. injection Hmore as Hmore.
  symmetry in Hmore. by apply app_eq_nil in Hmore as [-> _].
Qed.

Lemma X15_no_call_but_init_takes_away_witness :
  docs_of (snd (corpus.init 0 VUndefined two_documents)) 0 = Some []
  /\ ~ grown two_documents (snd (corpus.init 0 VUndefined two_documents)).
Proof.
  apply (proj2 (@X15_no_call_but_init_takes_away sample_host [] two_documents)
           0 [VObj 0; VObj 2] eq_refl).
  discriminate.
Defined.

(** ** [toString] *)

Section toString_reads.
Variable truncate : nat -> jsstring -> jsstring.
Variable s : state.
Variable self : loc.
Variable docs : list value.
Hypothesis Hdocs : docs_of s self = Some docs.
Hypothesis Htexts : forallb (has_text s) docs = true.

Lemma entry_text i l (o : object) t :
  heap s !! l = Some o -> o !! "text" = Some (VStr t) ->
  entry truncate s i (VObj l)
  = str "Document " ++ index_string i ++ [58%N; 10%N]
    ++ 9%N :: truncate 500 t ++ 10%N :: rule ++ [10%N].
Proof.
  intros Ho Ht. unfold entry. cbn [prop_of]. rewrite Ho.
  cbn [mbind option_bind]. by rewrite Ht.
Qed.

Lemma toString_from_run rest : forall pre fuel acc,
  docs = pre ++ rest -> length rest < fuel ->
  toString_from truncate fuel self (length pre) acc s
  = (Normal (acc ++ entries truncate s (length pre) rest), s).
Proof.
  induction rest as [|d rest IH]; intros pre fuel acc Hd Hfuel;
    (destruct fuel as [|fuel]; [simpl in Hfuel; lia|]);
    cbn [toString_from];
    rewrite (bind_normal _ _ _ _ _ (nDocs_Some _ _ _ Hdocs)).
  - rewrite Hd, app_nil_r, Nat.ltb_irrefl. unfold ret. cbn [entries].
    by rewrite app_nil_r.
  - assert (length pre < length docs) as Hlt.
    { rewrite Hd, length_app. simpl. lia. }
    destruct (Nat.ltb_spec (length pre) (length docs)) as [_|?]; [|lia].
    rewrite (bind_normal _ _ _ _ _ (document_at_Some _ _ _ (length pre) Hdocs)).
    assert (docs !! length pre = Some d) as Hlook.
    { rewrite Hd. by apply list_lookup_middle. }
    rewrite Hlook. cbn [default from_option].
    assert (has_text s d = true) as Hd_text.
    { rewrite forallb_forall in Htexts. apply Htexts.
      apply list_elem_of_In. by eapply list_elem_of_lookup_2. }
    destruct (has_text_inv _ _ Hd_text) as (l & o & t & -> & Ho & Ht).
    rewrite (bind_normal _ _ _ _ _ (get_prop_obj _ _ _ "text" Ho)).
    rewrite Ht. cbn [default from_option].
    unfold external at 1, lift at 1, bind at 1.
    unfold as_string at 1, ret at 1, bind at 1.
    cbv beta iota delta [id].
    replace (S (length pre)) with (length (pre ++ [VObj l]))
      by (rewrite length_app; simpl; lia).
    rewrite (IH (pre ++ [VObj l]) fuel).
    + rewrite length_app. cbn [length]. rewrite Nat.add_1_r.
      f_equal. f_equal. cbn [entries]. rewrite (entry_text _ _ _ _ Ho Ht).
      rewrite <- !app_assoc. cbn [app]. by rewrite <- !app_assoc.
    + by rewrite <- app_assoc.
    + simpl in Hfuel. lia.
Qed.

Lemma toString_run :
  toString truncate self s = (Normal (VStr (entries truncate s 0 docs)), s).
Proof.
  unfold toString.
  rewrite (bind_normal _ _ _ _ _ (nDocs_Some _ _ _ Hdocs)).
  erewrite bind_normal; [reflexivity|].
  apply (toString_from_run docs [] (S (length docs)) []); [done|lia].
Qed.

End toString_reads.

(** X16: on a Corpus whose texts are strings, [toString] writes nothing
    and returns, for the documents in their order, the line
    [Document i:], then a tab, the text cut by [truncate] to 500 and a
    line break, then a rule of sixteen [─ ] and a line break; for a Corpus
    without documents it returns the empty string. *)
Theorem X16_toString (truncate : nat -> jsstring -> jsstring) (s : state)
    (self : loc) (docs : list value) :
  docs_of s self = Some docs ->
  forallb (has_text s) docs = true ->
  toString truncate self s
  = (Normal (VStr (entries truncate s 0 docs)), s)
  /\ (docs = [] -> fst (toString truncate self s) = Normal (VStr [])).
Proof.
  intros Hd Ht. rewrite (toString_run truncate s self docs Hd Ht).
  split; [done|]. by intros ->.
Qed.

Lemma X16_toString_witness :
  toString (fun n t => take n t) 0 two_documents
  = (Normal (VStr (entries (fun n t => take n t) two_documents 0
                     [VObj 0; VObj 2])),
     two_documents).
Proof.
  exact (proj1 (X16_toString (fun n t => take n t) two_documents 0
                  [VObj 0; VObj 2] eq_refl eq_refl)).
Defined.

Lemma has_text_heap s s' d : heap s' = heap s -> has_text s' d = has_text s d.
Proof. intros Hh. unfold has_text, prop_of. by rewrite Hh. Qed.

(** X17: the Corpus [filter] builds shares its documents with the
    receiver.  On a Corpus whose texts are strings, a normalization of
    the Corpus that [filter] has built returns that Corpus and rewrites
    the text of the documents that were kept, which are documents of the
    receiver; the receiver still holds all its documents. *)
Theorem X17_filter_shares_documents `{Host} (op : normalization) (s : state)
    (self : loc) (docs : list value) (FUN : callback) :
  shaped s = true ->
  docs_of s self = Some docs ->
  forallb (has_text s) docs = true ->
  let new := length (corpora s) in
  let s1 := snd (corpus.filter self FUN s) in
  let r := normalize op new s1 in
  exists kept,
    docs_of s1 new = Some kept
    /\ kept `sublist_of` docs
    /\ fst r = Normal (VCorpus new)
    /\ docs_of (snd r) self = Some docs
    /\ forall d t, d ∈ kept -> prop_of s d "text" = Some (VStr t) ->
         prop_of (snd r) d "text"
         = Some (VStr (Nat.iter (visits d kept) (text_function op) t)).
Proof.
  intros Hs Hd Ht new s1 r.
  destruct (filter_run s self docs FUN Hs Hd) as (r0 & Hrun & _).
  subst r s1. rewrite Hrun. cbn [snd].
  set (kept := select s FUN 0 docs).
  set (s1 := State (heap s) (corpora s ++ [Some kept])).
  assert (docs_of s1 new = Some kept) as Hnew.
  { apply docs_of_Some. apply lookup_snoc. }
  assert (kept `sublist_of` docs) as Hsub by apply select_sublist.
  assert (forallb (has_text s1) kept = true) as Ht1.
  { apply forallb_forall. intros d Hin%list_elem_of_In.
    rewrite (has_text_heap s s1 d eq_refl).
    rewrite forallb_forall in Ht. apply Ht, list_elem_of_In.
    by eapply elem_of_sublist. }
  destruct (normalize_apply op new) as (prim & -> & Hprim).
  destruct (apply_text (text_function op) prim new kept s1 Hprim Hnew Ht1)
    as (s2 & Hrun2 & Hfr & Htext).
  exists kept. rewrite (bind_normal _ _ _ _ _ Hrun2). unfold ret. cbn [fst snd].
  split; [done|]. split; [done|]. split; [done|]. split.
  - apply docs_of_Some. destruct Hfr as (-> & _).
    apply lookup_app_l_Some. by apply docs_of_Some.
  - intros d t Hin Hdt. by apply Htext.
Qed.

Lemma X17_filter_shares_documents_witness :
  prop_of (snd (@normalize sample_host ToUpper 1
                  (snd (corpus.filter 0 keep_first two_documents))))
    (VObj 0) "text"
  = Some (VStr (str "A")).
Proof.
  destruct (@X17_filter_shares_documents sample_host ToUpper two_documents 0
              [VObj 0; VObj 2] keep_first eq_refl eq_refl eq_refl)
    as (kept & Hkept & _ & _ & _ & Htext).
  injection Hkept as <-.
  exact (Htext (VObj 0) (str "a") (list_elem_of_here _ _) eq_refl).
Defined.
